(** * seo_qc: the article quality checks of scripts/seo_qc.py

    A shallow embedding of the rule engine of [scripts/seo_qc.py]: the
    front-matter splitter, the fourteen checks, [run_checks] and
    [aggregate_results], together with the properties of them that the
    design document states.

    Python's [str] is a sequence of Unicode code points; it is modelled as
    a list of code points.  The regular expressions of the script are kept
    as data and run by a small backtracking matcher that follows the
    semantics of Python's [re] on the constructs the script uses. *)

From Stdlib Require Import NArith Arith Bool Ascii String Lia Permutation List.
Import ListNotations.

Set Implicit Arguments.
Set Warnings "-register-all,-abstract-large-number".

(** ** Characters and strings *)

Module Py.

Definition char := N.
Definition str := list char.

Definition char_eqb (a b : char) : bool := N.eqb a b.

(** Decoding of the UTF-8 bytes of a literal of this file into code points,
    so that literals can be written as they are in the script. *)
Fixpoint utf8_decode (bs : list N) : str :=
  match bs with
  | [] => []
  | b :: r =>
      if (b <? 128)%N then b :: utf8_decode r
      else if (b <? 224)%N then
        match r with
        | b1 :: r' => ((b - 192) * 64 + (b1 - 128))%N :: utf8_decode r'
        | _ => []
        end
      else if (b <? 240)%N then
        match r with
        | b1 :: b2 :: r' =>
            ((b - 224) * 4096 + (b1 - 128) * 64 + (b2 - 128))%N :: utf8_decode r'
        | _ => []
        end
      else
        match r with
        | b1 :: b2 :: b3 :: r' =>
            ((b - 240) * 262144 + (b1 - 128) * 4096 + (b2 - 128) * 64 + (b3 - 128))%N
              :: utf8_decode r'
        | _ => []
        end
  end.

Definition u (s : string) : str :=
  utf8_decode (map N_of_ascii (list_ascii_of_string s)).

Definition NL : char := 10%N.
Definition DQUOTE : char := 34%N.

Fixpoint str_eqb (a b : str) : bool :=
  match a, b with
  | [], [] => true
  | x :: a', y :: b' => char_eqb x y && str_eqb a' b'
  | _, _ => false
  end.

(** [s.startswith(p)] *)
Fixpoint startswith (p s : str) : bool :=
  match p with
  | [] => true
  | x :: p' =>
      match s with
      | [] => false
      | y :: s' => char_eqb x y && startswith p' s'
      end
  end.

(** [sub in s] *)
Fixpoint contains (sub s : str) : bool :=
  startswith sub s ||
  match s with
  | [] => false
  | _ :: s' => contains sub s'
  end.

(** [s.find(sub, start)]; [None] stands for the result -1. *)
Fixpoint find_at (sub s : str) (i : nat) : option nat :=
  if startswith sub s then Some i
  else match s with
       | [] => None
       | _ :: s' => find_at sub s' (S i)
       end.

Definition find (sub : str) (start : nat) (s : str) : option nat :=
  if start <=? length s then find_at sub (skipn start s) start else None.

(** [s[a:b]] and [s[a:]] for indices within range. *)
Definition slice (a b : nat) (s : str) : str := firstn (b - a) (skipn a s).
Definition slice_from (a : nat) (s : str) : str := skipn a s.

(** [Py_UNICODE_ISSPACE]: the characters that [str.strip()] removes and that
    [\s] matches in a [str] pattern. *)
Definition isspace (c : char) : bool :=
  ((9 <=? c) && (c <=? 13) || (28 <=? c) && (c <=? 32) ||
   (c =? 133) || (c =? 160) || (c =? 5760) ||
   (8192 <=? c) && (c <=? 8202) ||
   (c =? 8232) || (c =? 8233) || (c =? 8239) || (c =? 8287) || (c =? 12288))%N.

Fixpoint lstrip (s : str) : str :=
  match s with
  | [] => []
  | c :: s' => if isspace c then lstrip s' else s
  end.

Definition rstrip (s : str) : str := rev (lstrip (rev s)).

(** [s.strip()] *)
Definition strip (s : str) : str := rstrip (lstrip s).

(** [s.split(sep)] for a separator of one character. *)
Fixpoint split (sep : char) (s : str) : list str :=
  match s with
  | [] => [[]]
  | c :: s' =>
      if char_eqb c sep then [] :: split sep s'
      else match split sep s' with
           | [] => [[c]]
           | w :: ws => (c :: w) :: ws
           end
  end.

(** [sep.join(parts)] *)
Fixpoint join (sep : str) (parts : list str) : str :=
  match parts with
  | [] => []
  | [p] => p
  | p :: ps => p ++ sep ++ join sep ps
  end.

(** [s.count(sub)]: occurrences that do not overlap, from the left.  [skip]
    is the number of characters still covered by the last occurrence. *)
Fixpoint count_from (sub : str) (skip : nat) (s : str) : nat :=
  match skip with
  | S k =>
      match s with
      | [] => 0
      | _ :: s' => count_from sub k s'
      end
  | 0 =>
      if startswith sub s then
        S (match s with
           | [] => 0
           | _ :: s' => count_from sub (length sub - 1) s'
           end)
      else
        match s with
        | [] => 0
        | _ :: s' => count_from sub 0 s'
        end
  end.

Definition count (sub s : str) : nat :=
  match sub with
  | [] => S (length s)
  | _ => count_from sub 0 s
  end.

(** Decimal digits of a number, as [str(n)] and [f"{n}"] print it. *)
Fixpoint digits_fuel (fuel : nat) (n : N) (acc : str) : str :=
  match fuel with
  | 0 => acc
  | S f =>
      let acc' := (48 + n mod 10)%N :: acc in
      if (n <? 10)%N then acc' else digits_fuel f (n / 10)%N acc'
  end.

Definition str_of_N (n : N) : str := digits_fuel (S (N.to_nat (N.log2 n))) n [].
Definition str_of_nat (n : nat) : str := str_of_N (N.of_nat n).

(** [f"{n:03d}"] *)
Definition pad3 (n : nat) : str :=
  let d := str_of_nat n in
  repeat 48%N (3 - length d) ++ d.

End Py.

Import Py.
Arguments u s%_string.

Definition ch (a : ascii) : char := N_of_ascii a.
Arguments ch a%_char.

(** ** Regular expressions

    The patterns of the script, as data.  Repetition is only ever applied to
    a character class in the script, so [Rep] takes a class. *)

Module Re.

Inductive regex :=
| Lit (w : str)                       (* a literal string *)
| Cls (p : char -> bool)              (* one character of a class *)
| Rep (greedy : bool) (p : char -> bool) (lo : nat) (hi : option nat)
                                      (* p{lo,hi}, p* , p+ and the lazy p*? *)
| Bol (multiline : bool)              (* ^ *)
| Eol                                 (* $ without re.MULTILINE *)
| Cat (r1 r2 : regex)
| Alt (r1 r2 : regex)
| Grp (r : regex).                    (* the capture group 1 *)

(** A continuation receives the character before the position reached (what
    [^] looks at), the text of group 1 and the rest of the subject. *)
Definition cont (A : Type) := option char -> option str -> str -> option A.

Definition last_of (prev : option char) (w : str) : option char :=
  match rev w with
  | [] => prev
  | c :: _ => Some c
  end.

Definition more (hi : option nat) : bool :=
  match hi with
  | Some 0 => false
  | _ => true
  end.

Definition dec (hi : option nat) : option nat := option_map pred hi.

Definition or_else (A : Type) (a b : option A) : option A :=
  match a with
  | Some x => Some x
  | None => b
  end.

(** Backtracking over the number of repetitions: the greedy form tries the
    longest run first, the lazy form the shortest. *)
Fixpoint rep (A : Type) (greedy : bool) (p : char -> bool) (lo : nat) (hi : option nat)
    (k : cont A) (prev : option char) (cap : option str) (s : str) {struct s} : option A :=
  let stop := if lo =? 0 then k prev cap s else None in
  match s with
  | [] => stop
  | c :: s' =>
      if p c && more hi then
        let go := rep greedy p (pred lo) (dec hi) k (Some c) cap s' in
        if greedy then or_else go stop else or_else stop go
      else stop
  end.

Fixpoint matchk (A : Type) (r : regex) (k : cont A)
    (prev : option char) (cap : option str) (s : str) {struct r} : option A :=
  match r with
  | Lit w =>
      if startswith w s then k (last_of prev w) cap (skipn (length w) s) else None
  | Cls p =>
      match s with
      | [] => None
      | c :: s' => if p c then k (Some c) cap s' else None
      end
  | Rep greedy p lo hi => rep greedy p lo hi k prev cap s
  | Bol multiline =>
      match prev with
      | None => k prev cap s
      | Some c => if multiline && char_eqb c NL then k prev cap s else None
      end
  | Eol =>
      match s with
      | [] => k prev cap s
      | [c] => if char_eqb c NL then k prev cap s else None
      | _ => None
      end
  | Cat r1 r2 => matchk r1 (matchk r2 k) prev cap s
  | Alt r1 r2 => or_else (matchk r1 k prev cap s) (matchk r2 k prev cap s)
  | Grp r1 =>
      matchk r1 (fun prev' _ s' => k prev' (Some (firstn (length s - length s') s)) s')
        prev cap s
  end.

(** The match of [r] that starts at the current position, if any: its length
    and the text of group 1. *)
Definition match_at (r : regex) (prev : option char) (s : str) : option (nat * option str) :=
  matchk r (fun _ cap s' => Some (length s - length s', cap)) prev None s.

(** [re.finditer]: matches from the left that do not overlap.  [skip] is the
    number of characters still covered by the last match. *)
Fixpoint finditer (r : regex) (skip : nat) (prev : option char) (s : str) {struct s}
    : list (str * option str) :=
  match skip with
  | S k =>
      match s with
      | [] => []
      | c :: s' => finditer r k (Some c) s'
      end
  | 0 =>
      match match_at r prev s with
      | Some (n, cap) =>
          (firstn n s, cap) ::
          match s with
          | [] => []
          | c :: s' => finditer r (n - 1) (Some c) s'
          end
      | None =>
          match s with
          | [] => []
          | c :: s' => finditer r 0 (Some c) s'
          end
      end
  end.

(** [re.findall(r, s)] for a pattern without groups. *)
Definition findall (r : regex) (s : str) : list str := map fst (finditer r 0 None s).

(** [re.sub(r, repl, s)]; [repl] builds the replacement from group 1. *)
Fixpoint sub_from (r : regex) (repl : option str -> str) (skip : nat)
    (prev : option char) (s : str) {struct s} : str :=
  match skip with
  | S k =>
      match s with
      | [] => []
      | c :: s' => sub_from r repl k (Some c) s'
      end
  | 0 =>
      match match_at r prev s with
      | Some (n, cap) =>
          repl cap ++
          match s with
          | [] => []
          | c :: s' => (if n =? 0 then [c] else []) ++ sub_from r repl (n - 1) (Some c) s'
          end
      | None =>
          match s with
          | [] => []
          | c :: s' => c :: sub_from r repl 0 (Some c) s'
          end
      end
  end.

Definition sub (r : regex) (repl : option str -> str) (s : str) : str :=
  sub_from r repl 0 None s.

(** [re.search(r, s)] as a truth value. *)
Fixpoint search_from (r : regex) (prev : option char) (s : str) : bool :=
  match match_at r prev s with
  | Some _ => true
  | None =>
      match s with
      | [] => false
      | c :: s' => search_from r (Some c) s'
      end
  end.

Definition search (r : regex) (s : str) : bool := search_from r None s.

(** [r.match(s)] as a truth value. *)
Definition match_start (r : regex) (s : str) : bool :=
  match match_at r None s with
  | Some _ => true
  | None => false
  end.

(** Classes and shorthands. *)
Definition is_c (a : char) : char -> bool := fun c => char_eqb c a.
Definition not_c (a : char) : char -> bool := fun c => negb (char_eqb c a).
Definition one_of (w : str) : char -> bool := fun c => existsb (char_eqb c) w.
Definition dot : char -> bool := not_c NL.               (* . *)
Definition dot_all : char -> bool := fun _ => true.      (* . under re.DOTALL *)
Definition star (p : char -> bool) : regex := Rep true p 0 None.
Definition plus (p : char -> bool) : regex := Rep true p 1 None.
Definition lazy_star (p : char -> bool) : regex := Rep false p 0 None.
Definition replace_with (w : str) : option str -> str := fun _ => w.
Definition group1 : option str -> str := fun cap =>
  match cap with
  | Some g => g
  | None => []
  end.

(** ["|".join(re.escape(w) for w in ws)] *)
Fixpoint any_of (ws : list str) : regex :=
  match ws with
  | [] => Lit []
  | [w] => Lit w
  | w :: ws' => Alt (Lit w) (any_of ws')
  end.

End Re.

Import Re.

(** ** Values, exceptions and the runtime

    What [yaml.safe_load] can put into the front matter, as far as the
    checks look at it: a [str], a [list], a [dict], or any other object
    (None, a bool, a number, a date), of which only the truth value and the
    text [str()] gives are observed. *)

Inductive pyval :=
| PStr (s : str)
| PList (items : list pyval)
| PDict (entries : list (pyval * pyval))
| PAtom (truthy : bool) (shown : str)
| PBigInt.                  (* an int with more digits than str() prints *)

Definition dict := list (pyval * pyval).

Inductive load_result :=
| Loaded (v : pyval)
| YAMLError                 (* an exception of class yaml.YAMLError *)
| OtherError.               (* any other exception out of the loader *)

Inductive exn := TypeError | LoaderError | ValueError.

Inductive result (A : Type) :=
| Ok (a : A)
| Raise (e : exn).
Arguments Ok {A} a.
Arguments Raise {A} e.

Definition bind (A B : Type) (m : result A) (f : A -> result B) : result B :=
  match m with
  | Ok a => f a
  | Raise e => Raise e
  end.

Notation "x <- m ;; f" := (bind m (fun x => f))
  (at level 61, m at next level, right associativity).

(** The parts of Python and of its libraries that the script calls and that
    are not modelled here. *)
Record Runtime := {
  yaml_safe_load : str -> load_result;   (* yaml.safe_load *)
  repr : pyval -> str;                   (* repr() of a list or a dict *)
  isdecimal : char -> bool;              (* the class \d of a str pattern *)
  percent0 : nat -> nat -> str;          (* f"{p / t * 100:.0f}", float arithmetic *)
  path_exists : str -> bool              (* os.path.exists *)
}.

Definition truthy_of (v : pyval) : bool :=
  match v with
  | PStr s => negb (str_eqb s [])
  | PList items => match items with [] => false | _ => true end
  | PDict entries => match entries with [] => false | _ => true end
  | PAtom t _ => t
  | PBigInt => true
  end.

(** [str(v)] and [repr(v)] convert every int inside [v] to decimal, and
    that raises ValueError for an int beyond the digit limit. *)
Fixpoint printable (v : pyval) : bool :=
  match v with
  | PStr _ => true
  | PList items => forallb printable items
  | PDict entries =>
      forallb (fun kv : pyval * pyval => let (k, x) := kv in printable k && printable x)
        entries
  | PAtom _ _ => true
  | PBigInt => false
  end.

(** [str(v)] *)
Definition py_str (rt : Runtime) (v : pyval) : result str :=
  if printable v then
    Ok match v with
       | PStr s => s
       | PAtom _ shown => shown
       | _ => repr rt v
       end
  else Raise ValueError.

Definition key_is (k : str) (kv : pyval * pyval) : bool :=
  match fst kv with
  | PStr s => str_eqb s k
  | _ => false
  end.

(** [k in d] and [d[k]] / [d.get(k)] for a key that is a [str]. *)
Definition has_key (k : str) (d : dict) : bool := existsb (key_is k) d.
Definition get (k : str) (d : dict) : option pyval := option_map snd (List.find (key_is k) d).

Definition is_empty (A : Type) (l : list A) : bool :=
  match l with
  | [] => true
  | _ => false
  end.

(** [os.path.join] of posixpath. *)
Definition path_join2 (path b : str) : str :=
  if startswith (u "/") b then b
  else if is_empty path || char_eqb (last path 0%N) (ch "/") then path ++ b
  else path ++ u "/" ++ b.

Definition path_join (a : str) (ps : list str) : str := fold_left path_join2 ps a.

(** ** The script *)

Definition FORBIDDEN_WORDS : list str :=
  [u "必ず"; u "絶対"; u "間違いなく"; u "最高"; u "No.1"; u "ナンバーワン"; u "一番"].
Definition FORBIDDEN_PATTERN : regex := any_of FORBIDDEN_WORDS.

Definition JOTAI_PATTERN : regex :=
  Alt (Lit (u "である。"))
      (Alt (Lit (u "であろう。"))
           (Cat (Cls (not_c 12356%N (* い *))) (Lit (u "だ。")))).

Definition DATE_PATTERN (rt : Runtime) : regex :=
  let d := isdecimal rt in
  Cat (Bol false)
   (Cat (Rep true d 4 (Some 4))
    (Cat (Lit (u "-"))
     (Cat (Rep true d 2 (Some 2))
      (Cat (Lit (u "-"))
       (Cat (Rep true d 2 (Some 2)) Eol))))).

Definition REQUIRED_FIELDS : list str :=
  [u "title"; u "description"; u "publishedAt"; u "category"; u "area"; u "keyword"; u "keywords"].

(** [parse_frontmatter(content)]: the front matter and the body. *)
Definition parse_frontmatter (rt : Runtime) (content : str) : result (dict * str) :=
  if negb (startswith (u "---") content) then Ok ([], content)
  else
    match find (u "---") 3 content with
    | None => Ok ([], content)
    | Some end_ =>
        let fm_str := strip (slice 3 end_ content) in
        let body := strip (slice_from (end_ + 3) content) in
        match yaml_safe_load rt fm_str with
        | Loaded (PDict fm) => Ok (fm, body)
        | Loaded _ => Ok ([], body)
        | YAMLError => Ok ([], body)
        | OtherError => Raise LoaderError
        end
    end.

(** [re.sub(r"<[^>]+>", "", text)] *)
Definition TAG : regex := Cat (Lit (u "<")) (Cat (plus (not_c (ch ">"))) (Lit (u ">"))).

Definition strip_html_tags (text : str) : str := sub TAG (replace_with []) text.

(** The patterns of [count_japanese_chars]. *)
Definition MD_LINK : regex :=
  Cat (Lit (u "["))
   (Cat (Grp (star (not_c (ch "]"))))
    (Cat (Lit (u "]"))
     (Cat (Lit (u "("))
      (Cat (star (not_c (ch ")"))) (Lit (u ")")))))).
Definition MD_MARK : regex := Cls (one_of (u "#*_`|>-")).
Definition SPACES : regex := plus isspace.

Definition count_japanese_chars (text : str) : nat :=
  let text := strip_html_tags text in
  let text := sub MD_LINK group1 text in
  let text := sub MD_MARK (replace_with []) text in
  let text := sub SPACES (replace_with []) text in
  length text.

(** The loop of [find_h2_sections]: [cur] is [current_heading] with
    [current_lines], [acc] is [sections]. *)
Fixpoint h2_loop (lines : list str) (cur : option (str * list str))
    (acc : list (str * str)) : list (str * str) :=
  match lines with
  | [] =>
      match cur with
      | Some (h, ls) => acc ++ [(h, join [NL] ls)]
      | None => acc
      end
  | line :: rest =>
      if startswith (u "## ") line then
        match cur with
        | Some (h, ls) => h2_loop rest (Some (line, [])) (acc ++ [(h, join [NL] ls)])
        | None => h2_loop rest (Some (line, [])) acc
        end
      else
        match cur with
        | Some (h, ls) => h2_loop rest (Some (h, ls ++ [line])) acc
        | None => h2_loop rest None acc
        end
  end.

Definition find_h2_sections (body : str) : list (str * str) :=
  h2_loop (split NL body) None [].

Definition check_001_frontmatter_fields (fm : dict) : bool * str :=
  let missing := filter (fun f => negb (has_key f fm)) REQUIRED_FIELDS in
  if negb (is_empty missing) then (false, u "missing: " ++ join (u ", ") missing)
  else (true, []).

(** [not isinstance(v, str) or not v.strip()] *)
Definition empty_or_not_str (v : pyval) : bool :=
  match v with
  | PStr s => is_empty (strip s)
  | _ => true
  end.

(** One [if k in fm and bad(fm[k]): issues.append(msg)]. *)
Definition issue_if (fm : dict) (k : str) (bad : pyval -> bool) (msg : pyval -> str) : list str :=
  match get k fm with
  | Some v => if bad v then [msg v] else []
  | None => []
  end.

(** The step on ["publishedAt"]: [val = str(fm["publishedAt"])] can raise,
    and then nothing is returned. *)
Definition published_issue (rt : Runtime) (fm : dict) : result (list str) :=
  match get (u "publishedAt") fm with
  | Some v =>
      val <- py_str rt v ;;
      Ok (if negb (match_start (DATE_PATTERN rt) val)
          then [u "publishedAt format: " ++ val] else [])
  | None => Ok []
  end.

(** The test on ["category"] of the script appends nothing ([pass]). *)
Definition check_002_frontmatter_types (rt : Runtime) (fm : dict) : result (bool * str) :=
  let issues :=
    issue_if fm (u "title") empty_or_not_str (fun _ => u "title empty or not string")
    ++ issue_if fm (u "description") empty_or_not_str
         (fun _ => u "description empty or not string") in
  published <- published_issue rt fm ;;
  let issues :=
    issues ++ published
    ++ issue_if fm (u "area") empty_or_not_str (fun _ => u "area empty or not string")
    ++ issue_if fm (u "keyword") empty_or_not_str (fun _ => u "keyword empty or not string")
    ++ issue_if fm (u "keywords")
         (fun kw => match kw with
                    | PList items => length items <? 1
                    | _ => true
                    end)
         (fun _ => u "keywords not array or empty") in
  if negb (is_empty issues) then Ok (false, join (u "; ") issues)
  else Ok (true, []).

Definition check_003_pr_notation (body : str) : bool * str :=
  let lines := firstn 50 (split NL body) in
  let text := join [NL] lines in
  if contains (u "アフィリエイト広告") text || contains (u "PR") text then (true, [])
  else (false, u "PR notation not found in first 50 lines").

Definition CTA_BOX : str := u "<div class=" ++ [DQUOTE] ++ u "cta-box" ++ [DQUOTE] ++ u ">".

(** [r"<!--\s*CTA:"] *)
Definition CTA_COMMENT : regex := Cat (Lit (u "<!--")) (Cat (star isspace) (Lit (u "CTA:"))).

Definition check_004_cta_count (body : str) : bool * str :=
  let count := count CTA_BOX body in
  let cta_comments := length (findall CTA_COMMENT body) in
  let total := count + cta_comments in
  if total =? 3 then (true, [])
  else (false, u "CTA count: " ++ str_of_nat total ++ u " (div: " ++ str_of_nat count
                 ++ u ", comment: " ++ str_of_nat cta_comments ++ u ")").

(** [r'<div class="cta-box">.*?</div>\s*</div>'] under [re.DOTALL] *)
Definition CTA_BLOCK : regex :=
  Cat (Lit CTA_BOX)
   (Cat (lazy_star dot_all)
    (Cat (Lit (u "</div>")) (Cat (star isspace) (Lit (u "</div>"))))).

(** The loop over [enumerate(cta_blocks)]. *)
Fixpoint cta_issues (i : nat) (blocks : list str) : list str :=
  match blocks with
  | [] => []
  | block :: rest =>
      (if negb (contains (u "cta-badge") block) && negb (contains (u "cta-button") block)
       then [u "CTA#" ++ str_of_nat (i + 1) ++ u ": missing badge or button"] else [])
      ++ (if negb (contains (u "nofollow") block) || negb (contains (u "sponsored") block)
          then [u "CTA#" ++ str_of_nat (i + 1) ++ u ": missing nofollow/sponsored"] else [])
      ++ cta_issues (S i) rest
  end.

Definition check_005_cta_structure (body : str) : bool * str :=
  let cta_blocks := findall CTA_BLOCK body in
  let cta_comments := length (findall CTA_COMMENT body) in
  if is_empty cta_blocks && (cta_comments =? 0) then (false, u "no CTA found")
  else
    let issues := cta_issues 0 cta_blocks in
    if negb (is_empty issues) then (false, join (u "; ") issues)
    else (true, []).

(** [r"^## .+"] under [re.MULTILINE] *)
Definition H2_LINE : regex := Cat (Bol true) (Cat (Lit (u "## ")) (plus dot)).

Definition check_006_h2_count (body : str) : bool * str :=
  let count := length (findall H2_LINE body) in
  if count =? 5 then (true, [])
  else (false, u "H2 count: " ++ str_of_nat count).

(** [r"^#{3,4} .+"] under [re.MULTILINE] *)
Definition QUESTION_LINE : regex :=
  Cat (Bol true) (Cat (Rep true (is_c (ch "#")) 3 (Some 4)) (Cat (Lit (u " ")) (plus dot))).

Definition is_faq_heading (section : str * str) : bool :=
  contains (u "FAQ") (fst section) || contains (u "よくある質問") (fst section).

Definition check_007_faq_questions (body : str) : bool * str :=
  let sections := find_h2_sections body in
  (* the for loop with its break: the first heading that matches *)
  let faq_content :=
    match List.find is_faq_heading sections with
    | Some (_, content) => content
    | None => []
    end in
  let faq_content :=
    if is_empty faq_content && (4 <=? length sections)
    then snd (nth 3 sections ([], []))
    else faq_content in
  if is_empty faq_content then (false, u "FAQ section not found")
  else
    let count := length (findall QUESTION_LINE faq_content) in
    if 5 <=? count then (true, [])
    else (false, u "FAQ questions: " ++ str_of_nat count).

Definition check_008_char_count (body : str) : bool * str :=
  let char_count := count_japanese_chars body in
  if 2500 <=? char_count then (true, [])
  else (false, u "chars: " ++ str_of_nat char_count).

(** [word_counts[m] += 1] on a [defaultdict(int)], which keeps the order in
    which its keys were first seen. *)
Fixpoint bump (m : str) (counts : list (str * nat)) : list (str * nat) :=
  match counts with
  | [] => [(m, 1)]
  | (w, c) :: rest => if str_eqb w m then (w, S c) :: rest else (w, c) :: bump m rest
  end.

Definition check_009_forbidden_words (body : str) : bool * list str :=
  let matches := findall FORBIDDEN_PATTERN body in
  if is_empty matches then (true, [])
  else
    let word_counts := fold_left (fun counts m => bump m counts) matches [] in
    (false, map (fun wc => fst wc ++ u "(" ++ str_of_nat (snd wc) ++ u ")") word_counts).

(** [l.strip().startswith("|")] *)
Definition is_table_line (l : str) : bool := startswith (u "|") (strip l).

Definition check_010_cost_table (body : str) : bool * str :=
  let sections := find_h2_sections body in
  match sections with
  | [] => (false, u "no H2 sections")
  | (_, first_section) :: _ =>
      let table_lines := filter is_table_line (split NL first_section) in
      if 4 <=? length table_lines then (true, [])
      else (false, u "table lines in H2-1: " ++ str_of_nat (length table_lines))
  end.

(** [r"-{2,}"] *)
Definition DASHES : regex := Rep true (is_c (ch "-")) 2 None.

(** [next_line.startswith("|") and re.search(r"-{2,}", next_line)] *)
Definition is_separator (l : str) : bool :=
  let next_line := strip l in
  startswith (u "|") next_line && search DASHES next_line.

(** The while loop of [check_011_markdown_table_syntax]: [rest] is
    [lines[i:]]. *)
Fixpoint table_loop (i : nat) (rest : list str) (in_table has_separator : bool)
    (issues : list str) : list str :=
  match rest with
  | [] => issues
  | l :: rest' =>
      if is_table_line l then
        if negb in_table then
          match rest' with
          | next :: _ =>
              if is_separator next then table_loop (S i) rest' true true issues
              else table_loop (S i) rest' true false
                     (issues ++ [u "line " ++ str_of_nat (i + 1)
                                   ++ u ": table header not followed by separator"])
          | [] => table_loop (S i) rest' true false issues
          end
        else table_loop (S i) rest' in_table has_separator issues
      else
        if in_table then
          if negb has_separator then
            table_loop (S i) rest' false has_separator
              (issues ++ [u "table ending at line " ++ str_of_nat i
                            ++ u ": no separator row found"])
          else table_loop (S i) rest' false has_separator issues
        else table_loop (S i) rest' in_table has_separator issues
  end.

Definition check_011_markdown_table_syntax (body : str) : bool * str :=
  let lines := split NL body in
  let issues := table_loop 0 lines false false [] in
  if negb (is_empty issues) then (false, join (u "; ") (firstn 3 issues))
  else (true, []).

Definition check_012_writing_style (rt : Runtime) (body : str) : bool * str :=
  let clean := strip_html_tags body in
  let matches := findall JOTAI_PATTERN clean in
  if is_empty matches then (true, [])
  else (false, u "常体 found: " ++ repr rt (PList (map PStr (firstn 5 matches)))).

(** [body.count(area)] raises TypeError when [area] is not a [str]. *)
Definition check_013_area_frequency (fm : dict) (body : str) : result (bool * str) :=
  let area :=
    match get (u "area") fm with
    | Some v => v
    | None => PStr []
    end in
  if negb (truthy_of area) then Ok (false, u "no area in frontmatter")
  else
    match area with
    | PStr area =>
        let count := count area body in
        if 3 <=? count then Ok (true, [])
        else Ok (false, u "area '" ++ area ++ u "' count: " ++ str_of_nat count)
    | _ => Raise TypeError
    end.

Definition check_014_image_exists (rt : Runtime) (slug site_dir : str) : bool * str :=
  let images_dir := path_join site_dir [u "public"; u "images"; u "articles"] in
  let ogp_path := path_join images_dir [slug ++ u "-ogp.png"] in
  let thumb_path := path_join images_dir [slug ++ u "-thumb.png"] in
  let missing :=
    (if negb (path_exists rt ogp_path) then [u "ogp"] else [])
    ++ (if negb (path_exists rt thumb_path) then [u "thumb"] else []) in
  if is_empty missing then (true, [])
  else (false, u "missing: " ++ join (u ", ") missing).

(** The detail of a verdict: a [str], or the list of check 009. *)
Inductive detail :=
| DStr (s : str)
| DList (l : list str).

Record verdict := { pass : bool; detail_of : detail }.

Definition report := list (str * verdict).

(** [results[k] = v] on a dict, which keeps insertion order. *)
Fixpoint dict_set (k : str) (v : verdict) (results : report) : report :=
  match results with
  | [] => [(k, v)]
  | (k', v') :: rest =>
      if str_eqb k' k then (k', v) :: rest else (k', v') :: dict_set k v rest
  end.

Definition entry (pd : bool * str) : verdict := {| pass := fst pd; detail_of := DStr (snd pd) |}.

(** [run_checks], from the point where the file has been read: [content] is
    the text of the file and [slug] the stem of its path. *)
Definition run_checks (rt : Runtime) (content slug site_dir : str) : result report :=
  fb <- parse_frontmatter rt content ;;
  let fm := fst fb in
  let body := snd fb in
  let results := [] in
  let results := dict_set (u "check_001") (entry (check_001_frontmatter_fields fm)) results in
  r2 <- check_002_frontmatter_types rt fm ;;
  let results := dict_set (u "check_002") (entry r2) results in
  let results := dict_set (u "check_003") (entry (check_003_pr_notation body)) results in
  let results := dict_set (u "check_004") (entry (check_004_cta_count body)) results in
  let results := dict_set (u "check_005") (entry (check_005_cta_structure body)) results in
  let results := dict_set (u "check_006") (entry (check_006_h2_count body)) results in
  let results := dict_set (u "check_007") (entry (check_007_faq_questions body)) results in
  let results := dict_set (u "check_008") (entry (check_008_char_count body)) results in
  let r9 := check_009_forbidden_words body in
  let results :=
    dict_set (u "check_009")
      {| pass := fst r9; detail_of := if negb (fst r9) then DList (snd r9) else DStr [] |}
      results in
  let results := dict_set (u "check_010") (entry (check_010_cost_table body)) results in
  let results := dict_set (u "check_011") (entry (check_011_markdown_table_syntax body)) results in
  let results := dict_set (u "check_012") (entry (check_012_writing_style rt body)) results in
  r13 <- check_013_area_frequency fm body ;;
  let results := dict_set (u "check_013") (entry r13) results in
  let results := dict_set (u "check_014") (entry (check_014_image_exists rt slug site_dir)) results in
  Ok results.

(** What [run_site] stores for a file: the report, or [{"error": str(e)}]
    when [run_checks] raised. *)
Inductive file_result :=
| Checks (r : report)
| Failed (e : exn).

Definition stored (r : result report) : file_result :=
  match r with
  | Ok checks => Checks checks
  | Raise e => Failed e
  end.

(** [checks.get(cid)] where [cid in checks]; no rule is called "error". *)
Definition lookup (cid : str) (checks : file_result) : option verdict :=
  match checks with
  | Checks r => option_map snd (List.find (fun kv => str_eqb (fst kv) cid) r)
  | Failed _ => None
  end.

Record tally := {
  pass_count : nat;
  fail_count : nat;
  pass_rate : str;
  fail_files : list str;
  fail_files_total : nat
}.

(** [[f"check_{i:03d}" for i in range(1, 15)]] *)
Definition check_ids : list str := map (fun i => u "check_" ++ pad3 i) (seq 1 14).

(** One turn of the inner loop of [aggregate_results]; the state is
    [(pass_count, fail_count, fail_files)]. *)
Definition count_file (cid : str) (st : nat * nat * list str) (item : str * file_result)
    : nat * nat * list str :=
  let '(pass_count, fail_count, fail_files) := st in
  match lookup cid (snd item) with
  | Some v =>
      if pass v then (pass_count + 1, fail_count, fail_files)
      else (pass_count, fail_count + 1, fail_files ++ [fst item])
  | None => st
  end.

Definition tally_of (rt : Runtime) (all_results : list (str * file_result)) (cid : str) : tally :=
  let '(pass_count, fail_count, fail_files) := fold_left (count_file cid) all_results (0, 0, []) in
  let total := pass_count + fail_count in
  let rate := if 0 <? total then percent0 rt pass_count total ++ u "%" else u "N/A" in
  {| pass_count := pass_count;
     fail_count := fail_count;
     pass_rate := rate;
     fail_files := firstn 20 fail_files;
     fail_files_total := length fail_files |}.

Definition aggregate_results (rt : Runtime) (all_results : list (str * file_result))
    : list (str * tally) :=
  map (fun cid => (cid, tally_of rt all_results cid)) check_ids.

(** * The vocabulary of the properties *)

Fixpoint takewhile (p : char -> bool) (s : str) : str :=
  match s with
  | [] => []
  | c :: s' => if p c then c :: takewhile p s' else []
  end.

Fixpoint dropwhile (p : char -> bool) (s : str) : str :=
  match s with
  | [] => []
  | c :: s' => if p c then dropwhile p s' else s
  end.

(** The number of positions of [s] at which [here] holds of the rest of [s]. *)
Fixpoint positions (here : str -> bool) (s : str) : nat :=
  (if here s then 1 else 0) +
  match s with
  | [] => 0
  | _ :: s' => positions here s'
  end.

Definition is_some (A : Type) (o : option A) : bool :=
  match o with
  | Some _ => true
  | None => false
  end.

(** The markdown markers that do not count. *)
Definition is_md_mark (c : char) : bool := existsb (char_eqb c) (u "#*_`|>-").

(** What [count_japanese_chars] measures: its two first substitutions, then
    the two filters that its two last substitutions are. *)
Definition normalized_text (body : str) : str :=
  filter (fun c => negb (isspace c))
    (filter (fun c => negb (is_md_mark c))
       (sub MD_LINK group1 (strip_html_tags body))).

(** The normalized text as the design describes it, without the patterns
    of the script.  A text is read from the left: where a construct starts
    ([here] gives its length and what stands for it), that is written and the
    construct is skipped; any other character is copied. *)
Fixpoint rewrite_each (here : str -> option (nat * str)) (skip : nat) (s : str) : str :=
  match s with
  | [] => []
  | c :: s' =>
      match skip with
      | S k => rewrite_each here k s'
      | 0 =>
          match here s with
          | Some (n, w) => w ++ rewrite_each here (n - 1) s'
          | None => c :: rewrite_each here 0 s'
          end
      end
  end.

(** A markup tag: "<", one or more characters other than ">", and ">".
    Nothing stands for it. *)
Definition tag_spec (s : str) : option (nat * str) :=
  match s with
  | [] => None
  | c :: s1 =>
      if char_eqb c (ch "<") then
        let inside := takewhile (fun x => negb (char_eqb x (ch ">"))) s1 in
        match inside, dropwhile (fun x => negb (char_eqb x (ch ">"))) s1 with
        | _ :: _, _ :: _ => Some (length inside + 2, [])
        | _, _ => None
        end
      else None
  end.

(** A markdown link: "[", a text without "]", "](", a url without ")", and
    ")".  Its text stands for it. *)
Definition link_spec (s : str) : option (nat * str) :=
  match s with
  | [] => None
  | c :: s1 =>
      if char_eqb c (ch "[") then
        let text := takewhile (fun x => negb (char_eqb x (ch "]"))) s1 in
        match dropwhile (fun x => negb (char_eqb x (ch "]"))) s1 with
        | _ :: p :: s2 =>
            if char_eqb p (ch "(") then
              let url := takewhile (fun x => negb (char_eqb x (ch ")"))) s2 in
              match dropwhile (fun x => negb (char_eqb x (ch ")"))) s2 with
              | _ :: _ => Some (length text + length url + 4, text)
              | [] => None
              end
            else None
        | _ => None
        end
      else None
  end.

(** Tags stripped, links collapsed to their text, the markdown markers and
    then all whitespace removed. *)
Definition normalized_spec (body : str) : str :=
  let text := rewrite_each tag_spec 0 body in
  let text := rewrite_each link_spec 0 text in
  let text := filter (fun c => negb (is_md_mark c)) text in
  filter (fun c => negb (isspace c)) text.

(** A CTA comment starts here: [<!--], any whitespace, [CTA:]. *)
Definition cta_comment_here (s : str) : bool :=
  startswith (u "<!--") s && startswith (u "CTA:") (lstrip (skipn 4 s)).

Definition cta_comment_match (s : str) : option (nat * option str) :=
  if cta_comment_here s
  then Some (length s - length (skipn 4 (lstrip (skipn 4 s))), None)
  else None.

Definition I_KANA : char := 12356%N.   (* い *)

(** A plain-style ending starts here: one of the two literal endings, or a
    character other than い followed by だ。 *)
Definition jotai_here (s : str) : bool :=
  startswith (u "である。") s || startswith (u "であろう。") s ||
  match s with
  | [] => false
  | c :: t => negb (char_eqb c I_KANA) && startswith (u "だ。") t
  end.

(** Line [i] starts a run of table lines: it is a table line and the line
    before it, if any, is not.  [in_table] tells whether a run is already
    open before line 0. *)
Definition starts_run (in_table : bool) (lines : list str) (i : nat) : Prop :=
  i < length lines /\
  is_table_line (nth i lines []) = true /\
  match i with
  | 0 => in_table = false
  | S j => is_table_line (nth j lines []) = false
  end.

(** The separator requirement, read off the lines one after the other. *)
Fixpoint runs_ok (in_table : bool) (lines : list str) : bool :=
  match lines with
  | [] => true
  | l :: rest =>
      (if is_table_line l && negb in_table
       then match rest with
            | [] => true
            | next :: _ => is_separator next
            end
       else true)
      && runs_ok (is_table_line l) rest
  end.

Definition header_issue (i : nat) : str :=
  u "line " ++ str_of_nat (i + 1) ++ u ": table header not followed by separator".

(** An article whose FAQ heading is directly followed by the next heading,
    and whose fourth section holds five sub-headings. *)
Definition article_with_empty_faq : str :=
  u "## 費用の相場
本文
## 業者の選び方
本文
## よくある質問
## まとめ
### 一
### 二
### 三
### 四
### 五".

(** What the loader's answer on the header text turns into. *)
Definition loaded_as (rt : Runtime) (header body : str) : result (dict * str) :=
  match yaml_safe_load rt (strip header) with
  | Loaded (PDict fm) => Ok (fm, strip body)
  | Loaded _ => Ok ([], strip body)
  | YAMLError => Ok ([], strip body)
  | OtherError => Raise LoaderError
  end.

(** A runtime around a given loader, for the examples below, where only the
    loader matters: ASCII digits, no file on disk. *)
Definition runtime_with (load : str -> load_result) : Runtime :=
  {| yaml_safe_load := load;
     repr := fun _ => u "[...]";
     isdecimal := fun c => ((48 <=? c) && (c <=? 57))%N;
     percent0 := fun p t => str_of_nat (p * 100 / t);
     path_exists := fun _ => false |}.

(** The text has a header block and the loader raises a YAMLError on it. *)
Definition header_malformed (rt : Runtime) (content : str) : Prop :=
  startswith (u "---") content = true /\
  exists e, find (u "---") 3 content = Some e /\
            yaml_safe_load rt (strip (slice 3 e content)) = YAMLError.

(** The value of [publishedAt] is absent or can be printed: what
    [check_002_frontmatter_types] can test. *)
Definition published_printable (fm : dict) : Prop :=
  match get (u "publishedAt") fm with
  | None => True
  | Some v => printable v = true
  end.

(** The value of [area] is absent, false, or a [str]: what
    [check_013_area_frequency] can count. *)
Definition area_countable (fm : dict) : Prop :=
  match get (u "area") fm with
  | None => True
  | Some v => truthy_of v = false \/ exists s, v = PStr s
  end.

Definition keys_set (k : str) (ks : list str) : list str :=
  if existsb (fun k' => str_eqb k' k) ks then ks else ks ++ [k].

(** Whether a document passed or failed rule [cid]; a document without a
    verdict for it did neither. *)
Definition passed_here (cid : str) (item : str * file_result) : bool :=
  match lookup cid (snd item) with
  | Some v => pass v
  | None => false
  end.

Definition failed_here (cid : str) (item : str * file_result) : bool :=
  match lookup cid (snd item) with
  | Some v => negb (pass v)
  | None => false
  end.

Definition rate_of (rt : Runtime) (p f : nat) : str :=
  if 0 <? p + f then percent0 rt p (p + f) ++ u "%" else u "N/A".

(** The numbers of a tally; the sample of failing files is left out. *)
Definition tally_counts (t : tally) : nat * nat * nat * str :=
  (pass_count t, fail_count t, fail_files_total t, pass_rate t).

(** Two documents that fail rule 001, for the examples. *)
Definition failing_report : file_result :=
  stored (run_checks (runtime_with (fun _ => YAMLError)) (u "text") (u "a") (u "/srv/site")).

(** The fourteen entries of a report, spelled out. *)
Definition entries_of (rt : Runtime) (fm : dict) (body slug site_dir : str)
    (r2 r13 : bool * str) : report :=
  [ (u "check_001", entry (check_001_frontmatter_fields fm));
    (u "check_002", entry r2);
    (u "check_003", entry (check_003_pr_notation body));
    (u "check_004", entry (check_004_cta_count body));
    (u "check_005", entry (check_005_cta_structure body));
    (u "check_006", entry (check_006_h2_count body));
    (u "check_007", entry (check_007_faq_questions body));
    (u "check_008", entry (check_008_char_count body));
    (u "check_009",
      {| pass := fst (check_009_forbidden_words body);
         detail_of := if negb (fst (check_009_forbidden_words body))
                      then DList (snd (check_009_forbidden_words body)) else DStr [] |});
    (u "check_010", entry (check_010_cost_table body));
    (u "check_011", entry (check_011_markdown_table_syntax body));
    (u "check_012", entry (check_012_writing_style rt body));
    (u "check_013", entry r13);
    (u "check_014", entry (check_014_image_exists rt slug site_dir)) ].

(** A document that has a report. *)
Definition has_report (item : str * file_result) : bool :=
  match snd item with
  | Checks _ => true
  | Failed _ => false
  end.

(** A directory path with the separator [os.path.join] puts after it. *)
Definition with_slash (path : str) : str :=
  if is_empty path || char_eqb (last path 0%N) (ch "/") then path else path ++ u "/".

(** The first word of [ws] that starts [s]. *)
Fixpoint first_prefix (ws : list str) (s : str) : option str :=
  match ws with
  | [] => None
  | w :: ws' => if startswith w s then Some w else first_prefix ws' s
  end.

(** The counts that rule 009 reports, before they are printed. *)
Definition word_counts_of (body : str) : list (str * nat) :=
  fold_left (fun counts m => bump m counts) (findall FORBIDDEN_PATTERN body) [].

(** Four digits, "-", two digits, "-", two digits, and then the end of the
    text or one last newline. *)
Definition date_shape (rt : Runtime) (s : str) : bool :=
  (4 <=? length s) && forallb (isdecimal rt) (firstn 4 s) &&
  startswith (u "-") (skipn 4 s) &&
  (2 <=? length (skipn 5 s)) && forallb (isdecimal rt) (firstn 2 (skipn 5 s)) &&
  startswith (u "-") (skipn 7 s) &&
  (2 <=? length (skipn 8 s)) && forallb (isdecimal rt) (firstn 2 (skipn 8 s)) &&
  (is_empty (skipn 10 s) || str_eqb (skipn 10 s) [NL]).

(** A tag starts here: "<", at least one character other than ">", ">". *)
Definition tag_here (s : str) : bool :=
  match s with
  | [] => false
  | c :: t =>
      char_eqb c (ch "<") &&
      (1 <=? length (takewhile (not_c (ch ">")) t)) &&
      startswith (u ">") (dropwhile (not_c (ch ">")) t)
  end.

Definition not_rbracket : char -> bool := not_c (ch "]").
Definition not_rparen : char -> bool := not_c (ch ")").

(** The link that starts here: its length and its text. *)
Definition link_match (s : str) : option (nat * option str) :=
  if startswith (u "[") s then
    let r1 := dropwhile not_rbracket (skipn 1 s) in
    if startswith (u "]") r1 then
      if startswith (u "(") (skipn 1 r1) then
        let r2 := dropwhile not_rparen (skipn 1 (skipn 1 r1)) in
        if startswith (u ")") r2
        then Some (length s - length (skipn 1 r2), Some (takewhile not_rbracket (skipn 1 s)))
        else None
      else None
    else None
  else None.

(** A line that rule 006 counts: "## " and at least one more character. *)
Definition h2_ok (l : str) : bool := startswith (u "## ") l && (1 <=? length (skipn 3 l)).

(** A line that rule 007 counts as a question: "### " or "#### " and at
    least one more character. *)
Definition question_ok (l : str) : bool :=
  (startswith (u "### ") l && (1 <=? length (skipn 4 l))) ||
  (startswith (u "#### ") l && (1 <=? length (skipn 5 l))).

(** The section that rule 007 reads: the first whose heading has "FAQ" or
    "よくある質問", unless its content is empty; then, or when there is
    none, the fourth section if there are four. *)
Definition faq_content_of (sections : list (str * str)) : str :=
  let found :=
    match List.find is_faq_heading sections with
    | Some (_, content) => content
    | None => []
    end in
  if is_empty found && (4 <=? length sections) then snd (nth 3 sections ([], [])) else found.

(** * Properties *)

(** ** Strings *)

Lemma char_eqb_eq (a b : char) : char_eqb a b = true <-> a = b.
Proof. apply N.eqb_eq. Qed.

Lemma char_eqb_neq (a b : char) : char_eqb a b = false <-> a <> b.
Proof. apply N.eqb_neq. Qed.

Lemma char_eqb_refl (a : char) : char_eqb a a = true.
Proof. apply N.eqb_refl. Qed.

Lemma str_eqb_eq (a b : str) : str_eqb a b = true <-> a = b.
Proof.
  revert b; induction a as [|x a IH]; intros [|y b]; simpl; split; intro H;
    try reflexivity; try discriminate.
  - apply andb_true_iff in H as [Hx Ha]. apply char_eqb_eq in Hx. apply IH in Ha. congruence.
  - injection H as -> ->. rewrite char_eqb_refl. simpl. now apply IH.
Qed.

Lemma startswith_app (p t : str) : startswith p (p ++ t) = true.
Proof. induction p as [|x p IH]; simpl; [reflexivity|]. now rewrite char_eqb_refl. Qed.

Lemma startswith_spec (p s : str) : startswith p s = true <-> exists t, s = p ++ t.
Proof.
  split.
  - revert s; induction p as [|x p IH]; intros s H; simpl in *.
    + now exists s.
    + destruct s as [|y s]; [discriminate|].
      apply andb_true_iff in H as [Hx Hp]. apply char_eqb_eq in Hx. subst y.
      destruct (IH _ Hp) as [t ->]. now exists t.
  - intros [t ->]. apply startswith_app.
Qed.

Lemma startswith_skipn (p s : str) :
  startswith p s = true -> s = p ++ skipn (length p) s.
Proof.
  intro H. apply startswith_spec in H as [t ->].
  now rewrite skipn_app, skipn_all, Nat.sub_diag.
Qed.

Lemma contains_here (w s : str) : startswith w s = true -> contains w s = true.
Proof. intro H. destruct s; simpl in *; rewrite H; reflexivity. Qed.

Lemma contains_spec (w s : str) : contains w s = true <-> exists a b, s = a ++ w ++ b.
Proof.
  split.
  - induction s as [|c s IH]; simpl; intro H.
    + rewrite orb_false_r in H. apply startswith_spec in H as [t Ht]. now exists [], t.
    + apply orb_true_iff in H as [H|H].
      * apply startswith_spec in H as [t Ht]. now exists [], t.
      * destruct (IH H) as (a & b & ->). now exists (c :: a), b.
  - intros (a & b & ->). induction a as [|c a IH]; simpl.
    + apply contains_here, startswith_app.
    + rewrite IH. apply orb_true_r.
Qed.

Lemma contains_join (w sep line : str) (lines : list str) :
  In line lines -> contains w line = true -> contains w (join sep lines) = true.
Proof.
  intros Hin Hw. apply contains_spec in Hw as (a & b & ->). apply contains_spec.
  induction lines as [|l ls IH]; [contradiction|].
  destruct Hin as [->|Hin].
  - destruct ls as [|l' ls]; simpl.
    + now exists a, b.
    + exists a, (b ++ sep ++ join sep (l' :: ls)). now rewrite <- !app_assoc.
  - destruct (IH Hin) as (a' & b' & E). destruct ls as [|l' ls]; [contradiction|].
    change (join sep (l :: l' :: ls)) with (l ++ sep ++ join sep (l' :: ls)).
    rewrite E. exists (l ++ sep ++ a'), b'. now rewrite <- !app_assoc.
Qed.

(** ** Rule 003 *)

(** C10: a body with "PR" anywhere within one of its first 50 lines, also
    inside a longer word, a URL or an attribute, passes rule 003. *)
Theorem check_003_passes_on_any_PR (body line before after : str) :
  In line (firstn 50 (split NL body)) ->
  line = before ++ u "PR" ++ after ->
  check_003_pr_notation body = (true, []).
Proof.
  intros Hin Hline. unfold check_003_pr_notation.
  assert (H : contains (u "PR") (join [NL] (firstn 50 (split NL body))) = true).
  { apply contains_join with (line := line); [exact Hin|].
    apply contains_spec. now exists before, after. }
  rewrite H, orb_true_r. reflexivity.
Qed.

(** The letters "PR" of "APPROVED", in a URL on the second line. *)
Lemma check_003_passes_on_any_PR_witness :
  check_003_pr_notation (u "intro" ++ [NL] ++ u "see https://shop.example/APPROVED-items") = (true, []).
Proof.
  apply (@check_003_passes_on_any_PR _
           (u "see https://shop.example/APPROVED-items")
           (u "see https://shop.example/AP") (u "OVED-items")).
  - vm_compute. right. left. reflexivity.
  - vm_compute. reflexivity.
Defined.

(** ** The matcher *)

Lemma positions_ext (f g : str -> bool) (s : str) :
  (forall t, f t = g t) -> positions f s = positions g s.
Proof. intros H. induction s as [|c s IH]; simpl; rewrite H; congruence. Qed.

Lemma takewhile_dropwhile (p : char -> bool) (s : str) :
  takewhile p s ++ dropwhile p s = s.
Proof. induction s as [|c s IH]; simpl; [reflexivity|]. destruct (p c); simpl; congruence. Qed.

Lemma takewhile_all (p : char -> bool) (s : str) : Forall (fun c => p c = true) (takewhile p s).
Proof.
  induction s as [|c s IH]; simpl; [constructor|].
  destruct (p c) eqn:E; constructor; assumption.
Qed.

Lemma dropwhile_lstrip (s : str) : dropwhile isspace s = lstrip s.
Proof. induction s as [|c s IH]; simpl; [reflexivity|]. now rewrite IH. Qed.

Lemma last_of_cons (prev : option char) (c : char) (w : str) :
  last_of prev (c :: w) = last_of (Some c) w.
Proof.
  unfold last_of. simpl. destruct (rev w) as [|x l]; reflexivity.
Qed.

(** A greedy unbounded repetition takes the longest run, as soon as the
    continuation either accepts there or can never start with a character
    of the class. *)
Lemma rep_greedy_eq (A : Type) (p : char -> bool) (k : cont A) (cap : option str) (s : str) :
  forall (lo : nat) (prev : option char),
  (forall pv c t, p c = true -> k pv cap (c :: t) = None) \/
  k (last_of prev (takewhile p s)) cap (dropwhile p s) <> None ->
  rep true p lo None k prev cap s =
  if lo <=? length (takewhile p s)
  then k (last_of prev (takewhile p s)) cap (dropwhile p s)
  else None.
Proof.
  induction s as [|c s IH]; intros lo prev Hk; simpl.
  - destruct lo; reflexivity.
  - simpl in Hk. destruct (p c) eqn:Hp; simpl.
    + rewrite last_of_cons in *. rewrite IH by exact Hk.
      destruct lo as [|lo]; simpl.
      * destruct (k (last_of (Some c) (takewhile p s)) cap (dropwhile p s)) eqn:E;
          [reflexivity|].
        simpl. destruct Hk as [Hk|Hk]; [now apply Hk|contradiction].
      * destruct (lo <=? length (takewhile p s)); [|reflexivity].
        destruct (k (last_of (Some c) (takewhile p s)) cap (dropwhile p s));
          reflexivity.
    + destruct lo; reflexivity.
Qed.

(** Matching does not depend on the previous character when the pattern has
    no [^]; scanning then counts the positions where a match starts, as long
    as a match cannot contain the start of another one. *)
Lemma finditer_positions (r : regex) (c : char) (m : str -> option (nat * option str)) :
  (forall prev s, match_at r prev s = m s) ->
  (forall s n cap, m s = Some (n, cap) ->
     exists s', s = c :: s' /\ Forall (fun x => x <> c) (firstn (n - 1) s')) ->
  forall s skip prev,
    Forall (fun x => x <> c) (firstn skip s) ->
    length (finditer r skip prev s) = positions (fun t => is_some (m t)) s.
Proof.
  intros Hm Hc. induction s as [|x s IH]; intros skip prev Hskip.
  - assert (E : m [] = None).
    { destruct (m []) as [[n cap]|] eqn:E; [|reflexivity].
      destruct (Hc _ _ _ E) as (s' & Hs & _). discriminate. }
    destruct skip; simpl; rewrite ?Hm, E; reflexivity.
  - destruct skip as [|skip]; simpl.
    + rewrite Hm. destruct (m (x :: s)) as [[n cap]|] eqn:E; simpl.
      * f_equal. apply IH. destruct (Hc _ _ _ E) as (s' & Hs & Hall).
        injection Hs as _ <-. exact Hall.
      * apply IH. constructor.
    + simpl in Hskip. inversion Hskip as [|? ? Hx Hrest]; subst.
      destruct (m (x :: s)) as [[n cap]|] eqn:E; simpl.
      * destruct (Hc _ _ _ E) as (s' & Hs & _). injection Hs as -> _. contradiction.
      * apply IH. exact Hrest.
Qed.

(** [s.count(sub)] counts the positions where [sub] starts, when the first
    character of [sub] does not occur again in it. *)
Lemma count_positions (c : char) (w : str) :
  Forall (fun x => x <> c) w ->
  forall s skip,
    Forall (fun x => x <> c) (firstn skip s) ->
    count_from (c :: w) skip s = positions (startswith (c :: w)) s.
Proof.
  intros Hw. induction s as [|x s IH]; intros skip Hskip.
  - destruct skip; reflexivity.
  - destruct skip as [|skip].
    + cbn [count_from positions].
      destruct (startswith (c :: w) (x :: s)) eqn:E; cbn [Nat.add].
      * f_equal. apply IH. apply startswith_spec in E as [t Ht].
        injection Ht as -> ->.
        replace (length (c :: w) - 1) with (length w) by (simpl; lia).
        rewrite firstn_app, firstn_all, Nat.sub_diag. simpl. now rewrite app_nil_r.
      * apply IH. constructor.
    + cbn [count_from positions]. simpl in Hskip.
      inversion Hskip as [|? ? Hx Hrest]; subst.
      assert (E : startswith (c :: w) (x :: s) = false).
      { simpl. destruct (char_eqb c x) eqn:Ec; [|reflexivity].
        apply char_eqb_eq in Ec. congruence. }
      rewrite E. cbn [Nat.add]. apply IH. exact Hrest.
Qed.

(** No match anywhere is what an empty [findall] means. *)
Lemma finditer_nil_iff (r : regex) (s : str) :
  forall prev, finditer r 0 prev s = [] <-> search_from r prev s = false.
Proof.
  induction s as [|c s IH]; intros prev; simpl.
  - destruct (match_at r prev []) as [[n cap]|]; split; intro H; try discriminate; reflexivity.
  - destruct (match_at r prev (c :: s)) as [[n cap]|].
    + split; intro H; discriminate.
    + apply IH.
Qed.

Lemma search_from_false_iff (r : regex) (s : str) :
  forall prev,
    search_from r prev s = false <->
    forall a b, s = a ++ b -> match_at r (last_of prev a) b = None.
Proof.
  induction s as [|c s IH]; intros prev; simpl.
  - split.
    + intros H a b E. symmetry in E. apply app_eq_nil in E as [-> ->].
      change (last_of prev []) with prev.
      destruct (match_at r prev []); [discriminate|reflexivity].
    + intros H. specialize (H [] [] eq_refl). change (last_of prev []) with prev in H.
      now rewrite H.
  - split.
    + intros H a b E. destruct (match_at r prev (c :: s)) eqn:Em; [discriminate|].
      destruct a as [|x a].
      * simpl in E. subst b. exact Em.
      * injection E as <- E. rewrite last_of_cons. now apply (proj1 (IH _) H).
    + intros H. assert (H0 := H [] (c :: s) eq_refl).
      change (last_of prev []) with prev in H0. rewrite H0.
      apply IH. intros a b E. rewrite <- (last_of_cons prev). apply H. now rewrite E.
Qed.

(** Replacing the single characters of a class, or the runs of a class, by
    nothing removes exactly the characters of the class. *)
Lemma match_at_cls (p : char -> bool) (prev : option char) (s : str) :
  match_at (Cls p) prev s =
  match s with
  | [] => None
  | c :: _ => if p c then Some (1, None) else None
  end.
Proof.
  unfold match_at. cbn [matchk]. destruct s as [|c s]; [reflexivity|].
  destruct (p c); [|reflexivity]. do 2 f_equal. cbn [length]. lia.
Qed.

Lemma sub_class_filter (p : char -> bool) (s : str) :
  forall prev, sub_from (Cls p) (replace_with []) 0 prev s = filter (fun c => negb (p c)) s.
Proof.
  induction s as [|c s IH]; intros prev; [reflexivity|].
  cbn [sub_from filter]. rewrite match_at_cls. destruct (p c); cbn.
  - apply IH.
  - f_equal. apply IH.
Qed.

Lemma match_at_plus (p : char -> bool) (prev : option char) (s : str) :
  match_at (plus p) prev s =
  if 1 <=? length (takewhile p s) then Some (length (takewhile p s), None) else None.
Proof.
  unfold match_at, plus. cbn [matchk]. rewrite rep_greedy_eq.
  - destruct (1 <=? length (takewhile p s)); [|reflexivity].
    do 2 f_equal. rewrite <- (takewhile_dropwhile p s) at 1.
    rewrite length_app. lia.
  - right. discriminate.
Qed.

Lemma sub_plus_filter (p : char -> bool) (s : str) :
  forall skip prev,
    Forall (fun c => p c = true) (firstn skip s) ->
    sub_from (plus p) (replace_with []) skip prev s = filter (fun c => negb (p c)) s.
Proof.
  induction s as [|c s IH]; intros skip prev Hskip.
  - destruct skip; cbn [sub_from]; rewrite ?match_at_plus; reflexivity.
  - destruct skip as [|skip]; cbn [sub_from].
    + rewrite match_at_plus. simpl takewhile. destruct (p c) eqn:Hp.
      * cbn [length Nat.leb filter negb]. rewrite Hp. cbn [negb replace_with app Nat.eqb].
        apply IH. cbn [Nat.sub]. rewrite Nat.sub_0_r.
        assert (H := takewhile_all p s).
        rewrite <- (takewhile_dropwhile p s) at 2.
        rewrite firstn_app, firstn_all, Nat.sub_diag. simpl. now rewrite app_nil_r.
      * cbn [length Nat.leb filter]. rewrite Hp. cbn [negb]. f_equal. apply IH. constructor.
    + simpl in Hskip. inversion Hskip as [|? ? Hc Hrest]; subst.
      cbn [filter]. rewrite Hc. cbn [negb]. apply IH. exact Hrest.
Qed.

(** ** Rule 008 *)

Lemma count_japanese_chars_normalized (body : str) :
  count_japanese_chars body = length (normalized_text body).
Proof.
  unfold count_japanese_chars, normalized_text, sub, MD_MARK, SPACES.
  rewrite sub_class_filter, sub_plus_filter by constructor. reflexivity.
Qed.

(** The markup of a short text does not count. *)
Example normalized_text_example :
  normalized_text (u "## <b>[ab](http://x.example/y)</b>" ++ [NL]
                     ++ u "| **c** | `d` |　> - e") = u "abcde".
Proof. vm_compute. reflexivity. Qed.

(** 2500 characters pass and 2499 fail, with markup around them. *)
Example check_008_boundary :
  fst (check_008_char_count (u "<p>" ++ repeat 12354%N 2500 ++ u "</p>")) = true /\
  check_008_char_count (u "# " ++ repeat 12354%N 2499 ++ [NL]) = (false, u "chars: 2499").
Proof. split; vm_compute; reflexivity. Qed.

(** ** Rule 004 *)

Lemma match_at_cta_comment (prev : option char) (s : str) :
  match_at CTA_COMMENT prev s = cta_comment_match s.
Proof.
  unfold match_at, CTA_COMMENT, cta_comment_match, cta_comment_here, star.
  cbn [matchk].
  destruct (startswith (u "<!--") s) eqn:E; [|reflexivity].
  change (length (u "<!--")) with 4. rewrite rep_greedy_eq.
  - cbn [Nat.leb]. rewrite dropwhile_lstrip.
    destruct (startswith (u "CTA:") (lstrip (skipn 4 s))); reflexivity.
  - left. intros pv c t Hc.
    destruct (startswith (u "CTA:") (c :: t)) eqn:E'; [|reflexivity].
    apply startswith_spec in E' as [t' Ht']. vm_compute in Ht'.
    injection Ht' as -> _. discriminate.
Qed.

Lemma lstrip_decompose (s : str) :
  exists ws, s = ws ++ lstrip s /\ Forall (fun c => isspace c = true) ws.
Proof.
  exists (takewhile isspace s). rewrite <- dropwhile_lstrip.
  split; [symmetry; apply takewhile_dropwhile | apply takewhile_all].
Qed.

Lemma cta_comment_match_shape (s : str) (n : nat) (cap : option str) :
  cta_comment_match s = Some (n, cap) ->
  exists s', s = ch "<" :: s' /\ Forall (fun x => x <> ch "<") (firstn (n - 1) s').
Proof.
  unfold cta_comment_match, cta_comment_here.
  destruct (startswith (u "<!--") s) eqn:E1; [|discriminate]. cbn [andb].
  destruct (startswith (u "CTA:") (lstrip (skipn 4 s))) eqn:E2; [|discriminate].
  set (rest := skipn 4 (lstrip (skipn 4 s))) in *.
  intros H. assert (Hn : n = length s - length rest) by congruence. clear H. subst n.
  apply startswith_skipn in E1. change (length (u "<!--")) with 4 in E1.
  apply startswith_skipn in E2. change (length (u "CTA:")) with 4 in E2.
  destruct (lstrip_decompose (skipn 4 s)) as (ws & Hws & Hall).
  rewrite E2 in Hws. rewrite Hws in E1.
  exists (u "!--" ++ ws ++ u "CTA:" ++ rest). split; [exact E1|].
  replace (length s - length rest - 1) with (length (u "!--" ++ ws ++ u "CTA:")).
  - replace (u "!--" ++ ws ++ u "CTA:" ++ rest) with ((u "!--" ++ ws ++ u "CTA:") ++ rest)
      by (now rewrite <- !app_assoc).
    rewrite firstn_app, firstn_all, Nat.sub_diag. cbn [firstn]. rewrite app_nil_r.
    apply Forall_app. split; [vm_compute; repeat constructor; discriminate|].
    apply Forall_app. split; [|vm_compute; repeat constructor; discriminate].
    eapply Forall_impl; [|exact Hall]. intros c Hc ->. discriminate.
  - assert (L := f_equal (@length _) E1). rewrite !length_app in L.
    change (length (u "<!--")) with 4 in L. change (length (u "CTA:")) with 4 in L.
    rewrite !length_app.
    change (length (u "!--")) with 3. change (length (u "CTA:")) with 4.
    fold rest in L. clearbody rest. lia.
Qed.

Lemma findall_cta_comment (body : str) :
  length (findall CTA_COMMENT body) = positions cta_comment_here body.
Proof.
  unfold findall. rewrite length_map.
  rewrite (@finditer_positions CTA_COMMENT (ch "<") cta_comment_match).
  - apply positions_ext. intros t. unfold cta_comment_match.
    destruct (cta_comment_here t); reflexivity.
  - apply match_at_cta_comment.
  - apply cta_comment_match_shape.
  - constructor.
Qed.

Lemma count_cta_box (body : str) : count CTA_BOX body = positions (startswith CTA_BOX) body.
Proof.
  set (box := CTA_BOX). vm_compute in box. subst box.
  unfold count. apply count_positions; [|constructor].
  repeat constructor; discriminate.
Qed.

(** C8, as amended: rule 004 passes exactly when the number of places where
    the container tag starts plus the number of places where a CTA comment
    starts ([<!--], any amount of whitespace or none, [CTA:]) is 3. *)
Theorem check_004_passes_iff (body : str) :
  fst (check_004_cta_count body) = true <->
  positions (startswith CTA_BOX) body + positions cta_comment_here body = 3.
Proof.
  unfold check_004_cta_count. rewrite count_cta_box, findall_cta_comment.
  destruct (_ =? 3) eqn:E; simpl.
  - apply Nat.eqb_eq in E. tauto.
  - apply Nat.eqb_neq in E. split; [discriminate|contradiction].
Qed.

(** Three comments written without the space pass rule 004, although the
    marker [<!-- CTA:] and the container tag occur nowhere. *)
Lemma check_004_counts_unspaced_comments :
  let body := u "<!--CTA:a--> text <!--CTA:b--> text <!--CTA:c-->" in
  check_004_cta_count body = (true, []) /\
  positions (startswith CTA_BOX) body + positions (startswith (u "<!-- CTA:")) body = 0.
Proof. split; vm_compute; reflexivity. Qed.

(** Totals of 2 and 4 fail, 3 passes, whatever the mix. *)
Example check_004_boundary :
  let box := CTA_BOX ++ u "x</div></div>" in
  let comment := u "<!-- CTA: x -->" in
  fst (check_004_cta_count (box ++ comment)) = false /\
  fst (check_004_cta_count (box ++ comment ++ box)) = true /\
  fst (check_004_cta_count (comment ++ comment ++ comment)) = true /\
  fst (check_004_cta_count (box ++ comment ++ box ++ comment)) = false.
Proof. repeat split; vm_compute; reflexivity. Qed.

(** ** Rule 012 *)

Lemma match_at_jotai (prev : option char) (s : str) :
  is_some (match_at JOTAI_PATTERN prev s) = jotai_here s.
Proof.
  unfold match_at, JOTAI_PATTERN, jotai_here, not_c, I_KANA. cbn [matchk].
  destruct (startswith (u "である。") s); [reflexivity|].
  destruct (startswith (u "であろう。") s); [reflexivity|].
  destruct s as [|c t]; [reflexivity|]. cbn [or_else orb].
  destruct (negb (char_eqb c 12356%N)); [|reflexivity].
  destruct (startswith (u "だ。") t); reflexivity.
Qed.

Lemma findall_nil_iff (r : regex) (s : str) :
  is_empty (findall r s) = true <->
  forall a b, s = a ++ b -> is_some (match_at r (last_of None a) b) = false.
Proof.
  unfold findall.
  assert (E : is_empty (map fst (finditer r 0 None s)) = true <-> finditer r 0 None s = []).
  { destruct (finditer r 0 None s); simpl; split; intro H; try discriminate; reflexivity. }
  rewrite E, finditer_nil_iff, search_from_false_iff.
  split; intros H a b Hs; specialize (H a b Hs);
    destruct (match_at r (last_of None a) b); try reflexivity; discriminate.
Qed.

Lemma jotai_free_iff (clean : str) :
  (forall a b, clean = a ++ b -> jotai_here b = false) <->
  (forall a b, clean <> a ++ u "である。" ++ b) /\
  (forall a b, clean <> a ++ u "であろう。" ++ b) /\
  (forall a c b, clean = a ++ c :: u "だ。" ++ b -> c = I_KANA).
Proof.
  split.
  - intros H. repeat split.
    + intros a b E. specialize (H a _ E). unfold jotai_here in H.
      now rewrite startswith_app in H.
    + intros a b E. specialize (H a _ E). unfold jotai_here in H.
      rewrite startswith_app in H. now rewrite orb_true_r in H.
    + intros a c b E. specialize (H a _ E). unfold jotai_here in H.
      rewrite startswith_app, andb_true_r in H.
      apply orb_false_iff in H as [_ H]. apply negb_false_iff in H.
      now apply char_eqb_eq.
  - intros (H1 & H2 & H3) a b E. unfold jotai_here.
    destruct (startswith (u "である。") b) eqn:E1.
    { apply startswith_spec in E1 as [t ->]. now destruct (H1 a t). }
    destruct (startswith (u "であろう。") b) eqn:E2.
    { apply startswith_spec in E2 as [t ->]. now destruct (H2 a t). }
    destruct b as [|c t]; [reflexivity|]. cbn [orb].
    destruct (startswith (u "だ。") t) eqn:E3; [|apply andb_false_r].
    apply startswith_spec in E3 as [t' ->].
    rewrite (H3 a c t' E). unfold I_KANA. now rewrite char_eqb_refl.
Qed.

(** C7, as amended: rule 012 passes exactly when the body, after tag
    stripping, contains no "である。", no "であろう。" and no "だ。" that
    directly follows a character other than "い"; a "だ。" at the very
    start of the stripped text follows no character and is not reported.
    On failure the detail shows the first 5 matches at most. *)
Theorem check_012_passes_iff (rt : Runtime) (body : str) :
  (fst (check_012_writing_style rt body) = true <->
   (forall a b, strip_html_tags body <> a ++ u "である。" ++ b) /\
   (forall a b, strip_html_tags body <> a ++ u "であろう。" ++ b) /\
   (forall a c b, strip_html_tags body = a ++ c :: u "だ。" ++ b -> c = I_KANA)) /\
  (fst (check_012_writing_style rt body) = false ->
   exists shown,
     length shown <= 5 /\
     shown = firstn 5 (findall JOTAI_PATTERN (strip_html_tags body)) /\
     snd (check_012_writing_style rt body) =
       u "常体 found: " ++ repr rt (PList (map PStr shown))).
Proof.
  split.
  - rewrite <- (jotai_free_iff (strip_html_tags body)). unfold check_012_writing_style.
    assert (E := findall_nil_iff JOTAI_PATTERN (strip_html_tags body)).
    destruct (is_empty (findall JOTAI_PATTERN (strip_html_tags body))); cbn [fst].
    + split; [intros _|reflexivity]. intros a b Hs.
      rewrite <- (match_at_jotai (last_of None a)). exact (proj1 E eq_refl a b Hs).
    + split; [discriminate|]. intros H. apply E. intros a b Hs.
      rewrite match_at_jotai. exact (H a b Hs).
  - unfold check_012_writing_style.
    destruct (is_empty (findall JOTAI_PATTERN (strip_html_tags body))); cbn [fst snd].
    + discriminate.
    + intros _. eexists. split; [|split; reflexivity]. apply firstn_le_length.
Qed.

(** A body that is just "だ。" passes rule 012: the ending is there, not
    preceded by "い", and no tag is stripped. *)
Lemma check_012_misses_leading_da :
  (forall rt, check_012_writing_style rt (u "だ。") = (true, [])) /\
  strip_html_tags (u "だ。") = [] ++ u "だ。" ++ [] /\
  ~ (exists a, [] = a ++ [I_KANA]).
Proof.
  split; [intros rt; vm_compute; reflexivity|].
  split; [vm_compute; reflexivity|].
  intros [a H]. now destruct a.
Qed.

(** The same ending after a word is reported, and after "い" it is not. *)
Example check_012_examples (rt : Runtime) :
  fst (check_012_writing_style rt (u "<p>これは本だ。</p>")) = false /\
  fst (check_012_writing_style rt (u "行きたいだ。")) = true /\
  fst (check_012_writing_style rt (u "吾輩は猫である。")) = false.
Proof. repeat split; vm_compute; reflexivity. Qed.

(** ** Rule 011 *)

Lemma table_loop_app (rest : list str) :
  forall i in_table has_separator issues,
    table_loop i rest in_table has_separator issues =
    issues ++ table_loop i rest in_table has_separator [].
Proof.
  induction rest as [|l rest IH]; intros i it hs issues; cbn [table_loop].
  - now rewrite app_nil_r.
  - destruct (is_table_line l), it, hs; cbn [negb];
      try destruct rest as [|next rest']; try destruct (is_separator next);
      try apply IH;
      rewrite IH; symmetry; rewrite IH; cbn [app]; now rewrite <- ?app_assoc.
Qed.

Lemma table_loop_cons (l : str) (rest : list str) (i : nat) (it hs : bool) (issues : list str) :
  exists hs' extra,
    table_loop i (l :: rest) it hs issues =
    table_loop (S i) rest (is_table_line l) hs' (issues ++ extra).
Proof.
  cbn [table_loop].
  destruct (is_table_line l), it, hs; cbn [negb];
    try destruct rest as [|next rest']; try destruct (is_separator next);
    try (eexists; exists []; rewrite app_nil_r; reflexivity);
    eexists; eexists; reflexivity.
Qed.

Lemma table_loop_header (l : str) (tl : list str) (next : str) (i : nat) (hs : bool)
    (issues : list str) :
  is_table_line l = true -> hd_error tl = Some next -> is_separator next = false ->
  table_loop i (l :: tl) false hs issues =
  table_loop (S i) tl true false (issues ++ [header_issue i]).
Proof.
  intros Hl Hhd Hsep. cbn [table_loop]. rewrite Hl. cbn [negb].
  destruct tl as [|n tl']; [discriminate|]. injection Hhd as ->. now rewrite Hsep.
Qed.

Lemma table_loop_nil_iff (rest : list str) :
  forall i in_table has_separator,
    (rest <> [] -> in_table = true -> has_separator = true) ->
    (table_loop i rest in_table has_separator [] = [] <-> runs_ok in_table rest = true).
Proof.
  induction rest as [|l rest IH]; intros i it hs Inv; cbn [table_loop runs_ok].
  - tauto.
  - destruct (is_table_line l) eqn:El; cbn [andb].
    + destruct it; cbn [negb andb].
      * apply IH. intros _ _. apply Inv; [discriminate|reflexivity].
      * destruct rest as [|next rest'].
        { cbn [table_loop runs_ok]. tauto. }
        destruct (is_separator next); cbn [andb].
        -- apply IH. reflexivity.
        -- rewrite table_loop_app. cbn [app]. split; discriminate.
    + destruct it; cbn [negb].
      * rewrite (Inv ltac:(discriminate) eq_refl). cbn [negb].
        apply IH. discriminate.
      * apply IH. discriminate.
Qed.

Lemma starts_run_cons (it : bool) (l : str) (rest : list str) (j : nat) :
  starts_run it (l :: rest) (S j) <-> starts_run (is_table_line l) rest j.
Proof.
  unfold starts_run. cbn [length nth]. destruct j as [|j]; cbn [nth]; intuition lia.
Qed.

Lemma runs_ok_iff (lines : list str) :
  forall in_table,
    runs_ok in_table lines = true <->
    forall i, starts_run in_table lines i -> S i < length lines ->
              is_separator (nth (S i) lines []) = true.
Proof.
  induction lines as [|l rest IH]; intros it; cbn [runs_ok].
  - split; [|reflexivity]. intros _ i (Hi & _). simpl in Hi. lia.
  - rewrite andb_true_iff, IH. split.
    + intros [H0 Hrest] [|j] Hrun Hlen.
      * destruct Hrun as (_ & Hl & Hit). cbn [nth] in Hl. rewrite Hl, Hit in H0.
        cbn [andb negb] in H0. destruct rest as [|next rest']; [simpl in Hlen; lia|].
        exact H0.
      * apply starts_run_cons in Hrun. cbn [length] in Hlen.
        apply (Hrest j Hrun). lia.
    + intros H. split.
      * destruct (is_table_line l) eqn:El, it; cbn [andb negb]; try reflexivity.
        destruct rest as [|next rest']; [reflexivity|].
        apply (H 0); [|simpl; lia]. unfold starts_run. cbn [nth length].
        repeat split; [lia|exact El].
      * intros j Hrun Hlen. apply (H (S j)); [now apply starts_run_cons|simpl; lia].
Qed.

Lemma table_loop_reports (rest : list str) :
  forall i0 in_table has_separator issues j,
    starts_run in_table rest j -> S j < length rest ->
    is_separator (nth (S j) rest []) = false ->
    In (header_issue (i0 + j)) (table_loop i0 rest in_table has_separator issues).
Proof.
  induction rest as [|l rest IH]; intros i0 it hs issues j Hrun Hlen Hsep.
  - simpl in Hlen. lia.
  - destruct j as [|j].
    + destruct Hrun as (_ & Hl & Hit). cbn [nth] in Hl, Hsep. subst it.
      destruct rest as [|next rest']; [simpl in Hlen; lia|].
      cbn [nth] in Hsep.
      rewrite (@table_loop_header l (next :: rest') next i0 hs issues Hl eq_refl Hsep).
      rewrite table_loop_app. rewrite Nat.add_0_r.
      apply in_or_app. left. apply in_or_app. right. left. reflexivity.
    + apply starts_run_cons in Hrun. cbn [length nth] in Hlen, Hsep.
      destruct (table_loop_cons l rest i0 it hs issues) as (hs' & extra & ->).
      replace (i0 + S j) with (S i0 + j) by lia.
      apply IH; [exact Hrun|lia|exact Hsep].
Qed.

(** C6, as amended: rule 011 passes exactly when every run of table lines
    whose first line is not the last line of the body has, right after its
    first line, a table line with at least two dashes in a row.  A header
    followed by any other line is recorded under its line number, and the
    detail joins the first 3 recorded issues. *)
Theorem check_011_passes_iff (body : str) :
  (fst (check_011_markdown_table_syntax body) = true <->
   forall i, starts_run false (split NL body) i -> S i < length (split NL body) ->
             is_separator (nth (S i) (split NL body) []) = true) /\
  (forall i, starts_run false (split NL body) i -> S i < length (split NL body) ->
             is_separator (nth (S i) (split NL body) []) = false ->
             In (header_issue i) (table_loop 0 (split NL body) false false [])) /\
  (fst (check_011_markdown_table_syntax body) = false ->
   snd (check_011_markdown_table_syntax body) =
     join (u "; ") (firstn 3 (table_loop 0 (split NL body) false false [])) /\
   length (firstn 3 (table_loop 0 (split NL body) false false [])) <= 3).
Proof.
  split; [|split].
  - rewrite <- runs_ok_iff, <- (@table_loop_nil_iff (split NL body) 0 false false)
      by (intros _ H; exact H).
    unfold check_011_markdown_table_syntax.
    destruct (table_loop 0 (split NL body) false false []); cbn;
      split; intro; try reflexivity; discriminate.
  - intros i Hrun Hlen Hsep.
    apply (@table_loop_reports (split NL body) 0 false false [] i Hrun Hlen Hsep).
  - intros Hfail. split; [|apply firstn_le_length].
    unfold check_011_markdown_table_syntax in *.
    destruct (table_loop 0 (split NL body) false false []); cbn in *;
      [discriminate|reflexivity].
Qed.

(** A body whose only line is a table row passes: the run has a first line
    and no line after it. *)
Lemma check_011_passes_lone_table_line :
  let body := u "| a | b |" in
  check_011_markdown_table_syntax body = (true, []) /\
  split NL body = [body] /\
  is_table_line body = true /\
  nth_error (split NL body) 1 = None.
Proof. repeat split; vm_compute; reflexivity. Qed.

(** The table of the design passes; the same header followed by a data row
    fails, and the detail names line 1. *)
Example check_011_examples :
  check_011_markdown_table_syntax
    (u "| a | b |" ++ [NL] ++ u "|---|---|" ++ [NL] ++ u "| 1 | 2 |") = (true, []) /\
  check_011_markdown_table_syntax
    (u "| a | b |" ++ [NL] ++ u "| 1 | 2 |" ++ [NL] ++ u "text") =
    (false, u "line 1: table header not followed by separator; table ending at line 2: no separator row found").
Proof. split; vm_compute; reflexivity. Qed.

(** ** Rule 007 *)

(** C4: on that article the section found by its FAQ heading is empty, and
    rule 007 passes all the same, on the sub-headings of the fourth
    section. *)
Theorem check_007_leaves_empty_faq_section :
  List.find is_faq_heading (find_h2_sections article_with_empty_faq)
    = Some (u "## よくある質問", []) /\
  length (findall QUESTION_LINE []) = 0 /\
  nth 3 (find_h2_sections article_with_empty_faq) ([], [])
    = (u "## まとめ", u "### 一
### 二
### 三
### 四
### 五") /\
  check_007_faq_questions article_with_empty_faq = (true, []).
Proof. repeat split; vm_compute; reflexivity. Qed.

(** With a question under the FAQ heading the fallback is not taken. *)
Example check_007_uses_faq_section :
  check_007_faq_questions
    (u "## a
## b
## FAQ
### q1
## d
### 1
### 2
### 3
### 4
### 5") = (false, u "FAQ questions: 1").
Proof. vm_compute. reflexivity. Qed.

(** ** The front matter *)

Lemma skipn_past (A : Type) (a b : list A) (n : nat) :
  skipn (length a + n) (a ++ b) = skipn n b.
Proof. induction a as [|x a IH]; simpl; auto. Qed.

Lemma find_at_first (w pre s : str) :
  forall i,
    (forall j, j < length pre -> startswith w (skipn j (pre ++ s)) = false) ->
    startswith w s = true ->
    find_at w (pre ++ s) i = Some (i + length pre).
Proof.
  induction pre as [|c pre IH]; intros i Hno Hs.
  - simpl. destruct s; simpl in *; rewrite Hs; f_equal; lia.
  - assert (H0 := Hno 0 ltac:(simpl; lia)). cbn [skipn] in H0.
    cbn [app find_at] in *. rewrite H0. rewrite IH; [f_equal; simpl; lia| |exact Hs].
    intros j Hj. apply (Hno (S j)). simpl. lia.
Qed.

Lemma find_at_some (w s : str) :
  forall i e,
    find_at w s i = Some e ->
    exists pre t,
      s = pre ++ w ++ t /\ e = i + length pre /\
      forall j, j < length pre -> startswith w (skipn j s) = false.
Proof.
  induction s as [|c s IH]; intros i e H; cbn [find_at] in H.
  - destruct (startswith w []) eqn:E; [|discriminate]. injection H as <-.
    apply startswith_spec in E as [t Ht]. exists [], t. repeat split; auto.
    simpl. intros j Hj. lia.
  - destruct (startswith w (c :: s)) eqn:E.
    + injection H as <-. apply startswith_spec in E as [t Ht].
      exists [], t. repeat split; auto. simpl. intros j Hj. lia.
    + destruct (IH _ _ H) as (pre & t & Hs & He & Hno).
      exists (c :: pre), t. repeat split.
      * simpl. now rewrite Hs.
      * simpl. lia.
      * intros [|j] Hj; [exact E|]. cbn [skipn]. apply Hno. simpl in Hj. lia.
Qed.

Lemma parse_frontmatter_at (rt : Runtime) (header body : str) :
  (forall j, j < length header ->
             startswith (u "---") (skipn j (header ++ u "---" ++ body)) = false) ->
  parse_frontmatter rt (u "---" ++ header ++ u "---" ++ body) = loaded_as rt header body.
Proof.
  intros Hno. unfold parse_frontmatter, loaded_as.
  rewrite startswith_app. cbn [negb].
  assert (Hf : find (u "---") 3 (u "---" ++ header ++ u "---" ++ body)
               = Some (3 + length header)).
  { unfold find. change (skipn 3 (u "---" ++ header ++ u "---" ++ body))
      with (header ++ u "---" ++ body).
    rewrite find_at_first by (auto using startswith_app).
    rewrite length_app. change (length (u "---")) with 3. reflexivity. }
  rewrite Hf. unfold slice, slice_from.
  change (skipn 3 (u "---" ++ header ++ u "---" ++ body)) with (header ++ u "---" ++ body).
  replace (3 + length header - 3) with (length header) by lia.
  rewrite firstn_app, firstn_all, Nat.sub_diag. cbn [firstn]. rewrite app_nil_r.
  replace (3 + length header + 3) with (length (u "---" ++ header ++ u "---") + 0)
    by (rewrite !length_app; change (length (u "---")) with 3; lia).
  replace (u "---" ++ header ++ u "---" ++ body) with ((u "---" ++ header ++ u "---") ++ body)
    by (now rewrite <- !app_assoc).
  rewrite skipn_past. reflexivity.
Qed.

(** C5, as amended: a header is parsed exactly when the text starts with
    the characters "---" and "---" occurs again from index 3 on; neither has
    to be a line.  The header is the text up to the first such occurrence,
    the body the text after it, both stripped.  Otherwise the metadata is
    empty and the body is the whole text. *)
Theorem parse_frontmatter_spec (rt : Runtime) (content : str) :
  (startswith (u "---") content = false \/ find (u "---") 3 content = None ->
   parse_frontmatter rt content = Ok ([], content)) /\
  (forall header body,
     content = u "---" ++ header ++ u "---" ++ body ->
     (forall j, j < length header ->
                startswith (u "---") (skipn j (header ++ u "---" ++ body)) = false) ->
     parse_frontmatter rt content = loaded_as rt header body) /\
  (forall e,
     startswith (u "---") content = true -> find (u "---") 3 content = Some e ->
     exists header body,
       content = u "---" ++ header ++ u "---" ++ body /\
       e = 3 + length header /\
       (forall j, j < length header ->
                  startswith (u "---") (skipn j (header ++ u "---" ++ body)) = false)).
Proof.
  split; [|split].
  - unfold parse_frontmatter. intros [H|H].
    + now rewrite H.
    + rewrite H. now destruct (startswith (u "---") content).
  - intros header body -> Hno. now apply parse_frontmatter_at.
  - intros e Hs Hf. apply startswith_spec in Hs as [t ->].
    unfold find in Hf.
    destruct (3 <=? length (u "---" ++ t)); [|discriminate].
    change (skipn 3 (u "---" ++ t)) with t in Hf.
    destruct (find_at_some _ _ _ Hf) as (pre & t' & -> & -> & Hno).
    exists pre, t'. repeat split. exact Hno.
Qed.

(** A text of one line that merely starts with "---" and has "---" inside:
    no line is a delimiter, and the body is still cut off after the second
    "---". *)
Lemma parse_frontmatter_without_delimiter_lines :
  let content := u "---title: x---rest" in
  split NL content = [content] /\
  content <> u "---" /\
  forall rt : Runtime,
    parse_frontmatter rt content = loaded_as rt (u "title: x") (u "rest") /\
    parse_frontmatter rt content <> Ok ([], content).
Proof.
  cbv zeta. split; [vm_compute; reflexivity|]. split; [vm_compute; discriminate|].
  intros rt.
  assert (E : parse_frontmatter rt (u "---title: x---rest")
              = loaded_as rt (u "title: x") (u "rest")).
  { apply (@parse_frontmatter_at rt (u "title: x") (u "rest")).
    intros j Hj. vm_compute in Hj.
    do 8 (destruct j as [|j]; [vm_compute; reflexivity|]). lia. }
  split; [exact E|]. rewrite E. unfold loaded_as.
  destruct (yaml_safe_load rt (strip (u "title: x"))) as [[]| |]; vm_compute; discriminate.
Qed.

(** The usual layout. *)
Example parse_frontmatter_usual (rt : Runtime) :
  parse_frontmatter rt (u "---
title: x
---

# Heading
") = loaded_as rt (u "title: x") (u "# Heading") /\
  parse_frontmatter rt (u "# Heading") = Ok ([], u "# Heading").
Proof. split; vm_compute; reflexivity. Qed.

(** ** Degrading on a malformed header *)

Lemma check_002_empty (rt : Runtime) : check_002_frontmatter_types rt [] = Ok (true, []).
Proof. reflexivity. Qed.

(** C3, as amended: a malformed header gives empty metadata without an
    exception; on it rule 001 fails and lists the seven required fields, and
    rule 002, which looks only at fields that are present, passes. *)
Theorem malformed_header_degrades (rt : Runtime) (content : str) :
  header_malformed rt content ->
  exists body,
    parse_frontmatter rt content = Ok ([], body) /\
    check_001_frontmatter_fields (fst (@nil (pyval * pyval), body)) =
      (false, u "missing: title, description, publishedAt, category, area, keyword, keywords") /\
    check_002_frontmatter_types rt (fst (@nil (pyval * pyval), body)) = Ok (true, []).
Proof.
  intros (Hs & e & Hf & Hy). exists (strip (slice_from (e + 3) content)).
  split; [|split].
  - unfold parse_frontmatter. now rewrite Hs, Hf, Hy.
  - vm_compute. reflexivity.
  - reflexivity.
Qed.

(** An unclosed flow sequence in the header. *)
Lemma malformed_header_degrades_witness :
  exists body,
    parse_frontmatter (runtime_with (fun _ => YAMLError)) (u "---
title: [
---
text") = Ok ([], body) /\
    check_001_frontmatter_fields (fst (@nil (pyval * pyval), body)) =
      (false, u "missing: title, description, publishedAt, category, area, keyword, keywords") /\
    check_002_frontmatter_types (runtime_with (fun _ => YAMLError))
      (fst (@nil (pyval * pyval), body)) = Ok (true, []).
Proof.
  apply (@malformed_header_degrades (runtime_with (fun _ => YAMLError))).
  split; [vm_compute; reflexivity|].
  exists 13. split; vm_compute; reflexivity.
Defined.

(** On a malformed header rule 002 does not fail: whenever the loader
    rejects the header of this text, the metadata is empty and rule 002
    passes on it. *)
Lemma malformed_header_passes_rule_002 :
  exists content,
    forall rt : Runtime,
      yaml_safe_load rt (u "title: [") = YAMLError ->
      header_malformed rt content /\
      parse_frontmatter rt content = Ok ([], u "text") /\
      check_002_frontmatter_types rt [] = Ok (true, []).
Proof.
  exists (u "---
title: [
---
text").
  intros rt Hy. split; [|split].
  - split; [vm_compute; reflexivity|]. exists 13. split; [vm_compute; reflexivity|].
    rewrite <- Hy. vm_compute. reflexivity.
  - unfold parse_frontmatter. cbv zeta.
    change (startswith (u "---") _) with true. cbn [negb].
    change (find (u "---") 3 _) with (Some 13). cbv iota beta.
    change (strip (slice 3 13 _)) with (u "title: [").
    rewrite Hy. vm_compute. reflexivity.
  - reflexivity.
Qed.

(** ** The report of run_checks *)

Lemma dict_set_keys (k : str) (v : verdict) (results : report) :
  map fst (dict_set k v results) = keys_set k (map fst results).
Proof.
  unfold keys_set. induction results as [|[k' v'] rest IH]; [reflexivity|].
  cbn [dict_set map fst existsb]. destruct (str_eqb k' k); [reflexivity|].
  cbn [orb map fst]. rewrite IH. now destruct (existsb _ (map fst rest)).
Qed.

Lemma check_013_total (fm : dict) (body : str) :
  area_countable fm -> exists r, check_013_area_frequency fm body = Ok r.
Proof.
  unfold area_countable, check_013_area_frequency.
  destruct (get (u "area") fm) as [v|].
  - intros [Hf|[s ->]].
    + rewrite Hf. eexists. reflexivity.
    + destruct (negb (truthy_of (PStr s))); [eexists; reflexivity|].
      destruct (3 <=? count s body); eexists; reflexivity.
  - intros _. eexists. reflexivity.
Qed.

Lemma check_013_raises (fm : dict) (body : str) :
  ~ area_countable fm -> check_013_area_frequency fm body = Raise TypeError.
Proof.
  unfold area_countable, check_013_area_frequency.
  destruct (get (u "area") fm) as [v|]; [|tauto].
  intros H. destruct (truthy_of v) eqn:E; [|tauto]. cbn [negb].
  destruct v; try reflexivity. exfalso. apply H. right. now eexists.
Qed.

Lemma published_printable_dec (fm : dict) :
  published_printable fm \/ ~ published_printable fm.
Proof.
  unfold published_printable. destruct (get (u "publishedAt") fm) as [v|]; [|now left].
  destruct (printable v); [now left|right; discriminate].
Qed.

Lemma published_issue_total (rt : Runtime) (fm : dict) :
  published_printable fm -> exists issues, published_issue rt fm = Ok issues.
Proof.
  unfold published_printable, published_issue, py_str.
  destruct (get (u "publishedAt") fm) as [v|]; [|intros _; eexists; reflexivity].
  intros ->. cbn [bind]. eexists. reflexivity.
Qed.

Lemma published_issue_raises (rt : Runtime) (fm : dict) :
  ~ published_printable fm -> published_issue rt fm = Raise ValueError.
Proof.
  unfold published_printable, published_issue, py_str.
  destruct (get (u "publishedAt") fm) as [v|]; [|tauto].
  destruct (printable v); [congruence|reflexivity].
Qed.

Lemma check_002_total (rt : Runtime) (fm : dict) :
  published_printable fm -> exists r, check_002_frontmatter_types rt fm = Ok r.
Proof.
  intros H. unfold check_002_frontmatter_types. cbv zeta.
  destruct (@published_issue_total rt fm H) as [issues ->]. cbn [bind].
  match goal with |- context [if ?c then _ else _] => destruct c end; eexists; reflexivity.
Qed.

Lemma check_002_raises (rt : Runtime) (fm : dict) :
  ~ published_printable fm -> check_002_frontmatter_types rt fm = Raise ValueError.
Proof.
  intros H. unfold check_002_frontmatter_types. cbv zeta.
  now rewrite (@published_issue_raises rt fm H).
Qed.

(** C1, as amended: when the text parses without an exception, the value
    of [publishedAt] is absent or can be printed, and the value of [area] is
    absent, false or a [str], [run_checks] returns a report of exactly 14
    entries, check_001 to check_014 in this order.  (For a [publishedAt]
    that [str()] refuses, rule 002 raises; for any other [area] the call
    [body.count(area)] of rule 013 raises.) *)
Theorem run_checks_report (rt : Runtime) (content slug site_dir : str) (fm : dict) (body : str) :
  parse_frontmatter rt content = Ok (fm, body) ->
  published_printable fm ->
  area_countable fm ->
  exists r : report,
    run_checks rt content slug site_dir = Ok r /\
    map fst r = check_ids /\
    length r = 14.
Proof.
  intros Hp Hd Ha. unfold run_checks. rewrite Hp. cbn [bind fst snd].
  destruct (@check_002_total rt fm Hd) as [r2 ->]. cbn [bind].
  destruct (@check_013_total fm body Ha) as [r13 ->]. cbn [bind].
  eexists. split; [reflexivity|].
  assert (K : forall r : report, map fst r = check_ids -> map fst r = check_ids /\ length r = 14).
  { intros r E. split; [exact E|]. rewrite <- (length_map fst), E. reflexivity. }
  apply K. rewrite !dict_set_keys. vm_compute. reflexivity.
Qed.

(** An article with a header that names its area. *)
Lemma run_checks_report_witness :
  exists r : report,
    run_checks
      (runtime_with (fun _ => Loaded (PDict [(PStr (u "area"), PStr (u "渋谷区"))])))
      (u "---
area: 渋谷区
---
渋谷区の費用") (u "shibuya") (u "/srv/site") = Ok r /\
    map fst r = check_ids /\
    length r = 14.
Proof.
  apply (@run_checks_report _ _ _ _
           [(PStr (u "area"), PStr (u "渋谷区"))] (u "渋谷区の費用")).
  - vm_compute. reflexivity.
  - vm_compute. exact I.
  - vm_compute. right. eexists. reflexivity.
Defined.

(** A header [area: 5] parses, and then rule 013 raises: whenever the
    loader reads that header as the mapping of "area" to the number 5, no
    report comes out of [run_checks]. *)
Lemma run_checks_raises_on_numeric_area :
  exists content,
    forall (rt : Runtime) (slug site_dir : str),
      yaml_safe_load rt (u "area: 5") = Loaded (PDict [(PStr (u "area"), PAtom true (u "5"))]) ->
      parse_frontmatter rt content = Ok ([(PStr (u "area"), PAtom true (u "5"))], u "text") /\
      run_checks rt content slug site_dir = Raise TypeError.
Proof.
  exists (u "---
area: 5
---
text").
  intros rt slug site_dir Hy.
  assert (Hp : parse_frontmatter rt (u "---
area: 5
---
text") = Ok ([(PStr (u "area"), PAtom true (u "5"))], u "text")).
  { unfold parse_frontmatter. cbv zeta.
    change (startswith (u "---") _) with true. cbn [negb].
    change (find (u "---") 3 _) with (Some 12). cbv iota beta.
    change (strip (slice 3 12 _)) with (u "area: 5").
    rewrite Hy. vm_compute. reflexivity. }
  split; [exact Hp|].
  unfold run_checks. rewrite Hp. cbn [bind fst snd].
  assert (Hd : published_printable [(PStr (u "area"), PAtom true (u "5"))])
    by (vm_compute; exact I).
  destruct (@check_002_total rt _ Hd) as [r2 ->]. cbn [bind].
  rewrite check_013_raises; [reflexivity|].
  vm_compute. intros [H|[s H]]; discriminate.
Qed.

(** ** Aggregation *)

Lemma triple_eq (A B C : Type) (a a' : A) (b b' : B) (c c' : C) :
  a = a' -> b = b' -> c = c' -> (a, b, c) = (a', b', c').
Proof. congruence. Qed.

Section Aggregation.

Variable rt : Runtime.
Variable cid : str.

Lemma fold_count_file (all_results : list (str * file_result)) :
  forall p f ff,
    fold_left (count_file cid) all_results (p, f, ff) =
    (p + length (filter (passed_here cid) all_results),
     f + length (filter (failed_here cid) all_results),
     ff ++ map fst (filter (failed_here cid) all_results)).
Proof.
  induction all_results as [|item rest IH]; intros p f ff; cbn [fold_left filter].
  - cbn [length map]. now rewrite !Nat.add_0_r, app_nil_r.
  - assert (Hstep : count_file cid (p, f, ff) item =
                    (p + (if passed_here cid item then 1 else 0),
                     f + (if failed_here cid item then 1 else 0),
                     ff ++ (if failed_here cid item then [fst item] else []))).
    { unfold count_file, passed_here, failed_here.
      destruct (lookup cid (snd item)) as [v|]; [destruct (pass v)|]; cbn [negb];
        rewrite ?Nat.add_0_r, ?app_nil_r; reflexivity. }
    rewrite Hstep, IH.
    destruct (passed_here cid item), (failed_here cid item); cbn [length map];
      rewrite <- ?app_assoc; cbn [app];
      (apply triple_eq; [lia|lia|reflexivity]).
Qed.

Lemma tally_of_eq (all_results : list (str * file_result)) :
  tally_of rt all_results cid =
  {| pass_count := length (filter (passed_here cid) all_results);
     fail_count := length (filter (failed_here cid) all_results);
     pass_rate := rate_of rt (length (filter (passed_here cid) all_results))
                             (length (filter (failed_here cid) all_results));
     fail_files := firstn 20 (map fst (filter (failed_here cid) all_results));
     fail_files_total := length (filter (failed_here cid) all_results) |}.
Proof.
  unfold tally_of. rewrite fold_count_file. cbn [Nat.add app].
  now rewrite length_map.
Qed.

End Aggregation.

Lemma filter_length_perm (A : Type) (f : A -> bool) (l l' : list A) :
  Permutation l l' -> length (filter f l) = length (filter f l').
Proof.
  induction 1 as [|x l l' _ IH|x y l|l l' l'' _ IH1 _ IH2]; cbn [filter].
  - reflexivity.
  - destruct (f x); cbn [length]; congruence.
  - destruct (f x), (f y); reflexivity.
  - congruence.
Qed.

(** C2, as amended: the pass count, the fail count, the total of failing
    files and the pass rate of every rule do not depend on the order of the
    documents, and the counts of a collection are the sums of the counts of
    the parts of any partition of it.  (The sample of failing files follows
    the order of the documents.) *)
Theorem aggregate_counts_merge (rt : Runtime) (a b c : list (str * file_result)) :
  Permutation (a ++ b) c ->
  aggregate_results rt c = map (fun cid => (cid, tally_of rt c cid)) check_ids /\
  forall cid,
    pass_count (tally_of rt c cid) =
      pass_count (tally_of rt a cid) + pass_count (tally_of rt b cid) /\
    fail_count (tally_of rt c cid) =
      fail_count (tally_of rt a cid) + fail_count (tally_of rt b cid) /\
    fail_files_total (tally_of rt c cid) =
      fail_files_total (tally_of rt a cid) + fail_files_total (tally_of rt b cid) /\
    tally_counts (tally_of rt c cid) = tally_counts (tally_of rt (b ++ a) cid).
Proof.
  intros Hperm. split; [reflexivity|]. intros cid.
  assert (Hp : length (filter (passed_here cid) c) =
               length (filter (passed_here cid) a) + length (filter (passed_here cid) b)).
  { rewrite <- (filter_length_perm _ Hperm), filter_app, length_app. reflexivity. }
  assert (Hf : length (filter (failed_here cid) c) =
               length (filter (failed_here cid) a) + length (filter (failed_here cid) b)).
  { rewrite <- (filter_length_perm _ Hperm), filter_app, length_app. reflexivity. }
  rewrite !tally_of_eq. unfold tally_counts. cbn [pass_count fail_count fail_files_total pass_rate].
  repeat split; try assumption.
  rewrite !filter_app, !length_app, Hp, Hf.
  rewrite (Nat.add_comm (length (filter (passed_here cid) b))).
  rewrite (Nat.add_comm (length (filter (failed_here cid) b))). reflexivity.
Qed.

Lemma aggregate_counts_merge_witness :
  aggregate_results (runtime_with (fun _ => YAMLError))
    [(u "b.md", failing_report); (u "a.md", failing_report)]
  = map (fun cid => (cid, tally_of (runtime_with (fun _ => YAMLError))
                            [(u "b.md", failing_report); (u "a.md", failing_report)] cid))
      check_ids /\
  forall cid,
    let rt := runtime_with (fun _ => YAMLError) in
    let a := [(u "a.md", failing_report)] in
    let b := [(u "b.md", failing_report)] in
    let c := [(u "b.md", failing_report); (u "a.md", failing_report)] in
    pass_count (tally_of rt c cid) =
      pass_count (tally_of rt a cid) + pass_count (tally_of rt b cid) /\
    fail_count (tally_of rt c cid) =
      fail_count (tally_of rt a cid) + fail_count (tally_of rt b cid) /\
    fail_files_total (tally_of rt c cid) =
      fail_files_total (tally_of rt a cid) + fail_files_total (tally_of rt b cid) /\
    tally_counts (tally_of rt c cid) = tally_counts (tally_of rt (b ++ a) cid).
Proof.
  apply (@aggregate_counts_merge (runtime_with (fun _ => YAMLError))
           [(u "a.md", failing_report)] [(u "b.md", failing_report)]
           [(u "b.md", failing_report); (u "a.md", failing_report)]).
  cbn [app]. apply perm_swap.
Defined.

(** The summary itself depends on the order of the documents: the sample
    of failing files of rule 001 lists them as they come. *)
Lemma aggregate_results_depends_on_order :
  exists a b,
    Permutation a b /\
    forall rt : Runtime, aggregate_results rt a <> aggregate_results rt b.
Proof.
  exists [(u "a.md", failing_report); (u "b.md", failing_report)],
         [(u "b.md", failing_report); (u "a.md", failing_report)].
  split; [apply perm_swap|].
  intros rt H.
  apply (f_equal (map (fun e => fail_files (snd e)))) in H.
  unfold aggregate_results in H. rewrite !map_map in H. cbn [snd] in H.
  apply (f_equal (fun l => hd [] l)) in H.
  vm_compute in H. discriminate.
Qed.

(** * Further properties *)

(** ** What run_checks returns and when it raises *)

Lemma run_checks_entries (rt : Runtime) (content slug site_dir : str) (fm : dict) (body : str)
    (r2 r13 : bool * str) :
  parse_frontmatter rt content = Ok (fm, body) ->
  check_002_frontmatter_types rt fm = Ok r2 ->
  check_013_area_frequency fm body = Ok r13 ->
  run_checks rt content slug site_dir = Ok (entries_of rt fm body slug site_dir r2 r13).
Proof.
  intros Hp H2 H13. unfold run_checks. rewrite Hp. cbn [bind fst snd].
  rewrite H2. cbn [bind]. rewrite H13. cbn [bind].
  unfold entries_of. reflexivity.
Qed.

Lemma run_checks_ok_inv (rt : Runtime) (content slug site_dir : str) (r : report) :
  run_checks rt content slug site_dir = Ok r ->
  exists fm body r2 r13,
    parse_frontmatter rt content = Ok (fm, body) /\
    check_002_frontmatter_types rt fm = Ok r2 /\
    check_013_area_frequency fm body = Ok r13 /\
    r = entries_of rt fm body slug site_dir r2 r13.
Proof.
  intros H. destruct (parse_frontmatter rt content) as [[fm body]|e] eqn:Hp.
  - destruct (check_002_frontmatter_types rt fm) as [r2|e] eqn:H2.
    + destruct (check_013_area_frequency fm body) as [r13|e] eqn:H13.
      * rewrite (@run_checks_entries rt content slug site_dir fm body r2 r13 Hp H2 H13) in H.
        injection H as <-. now exists fm, body, r2, r13.
      * unfold run_checks in H. rewrite Hp in H. cbn [bind fst snd] in H.
        rewrite H2 in H. cbn [bind] in H. rewrite H13 in H. discriminate.
    + unfold run_checks in H. rewrite Hp in H. cbn [bind fst snd] in H.
      rewrite H2 in H. discriminate.
  - unfold run_checks in H. rewrite Hp in H. discriminate.
Qed.

Lemma parse_frontmatter_raises (rt : Runtime) (content : str) (x : exn) :
  parse_frontmatter rt content = Raise x <->
  x = LoaderError /\
  startswith (u "---") content = true /\
  exists e, find (u "---") 3 content = Some e /\
            yaml_safe_load rt (strip (slice 3 e content)) = OtherError.
Proof.
  unfold parse_frontmatter. split.
  - intros Hp.
    destruct (startswith (u "---") content); cbn [negb] in Hp; [|discriminate].
    destruct (find (u "---") 3 content) as [e'|]; [|discriminate].
    destruct (yaml_safe_load rt (strip (slice 3 e' content))) as [[]| |] eqn:Hy;
      try discriminate.
    injection Hp as <-. split; [reflexivity|]. split; [reflexivity|]. now exists e'.
  - intros (-> & Hs & e & Hf & Hy). now rewrite Hs, Hf, Hy.
Qed.

(** X1: [run_checks] raises in exactly three situations: the YAML loader
    raised something that is not a YAMLError (the exception leaves
    [parse_frontmatter]); the header parsed and [str()] refuses its
    [publishedAt] (ValueError in rule 002); or the header parsed, rule 002
    returned, and [area] is a true value that is not a [str] (TypeError in
    rule 013).  A YAMLError never leaves. *)
Theorem run_checks_raises_iff (rt : Runtime) (content slug site_dir : str) (x : exn) :
  run_checks rt content slug site_dir = Raise x <->
  (x = LoaderError /\
   startswith (u "---") content = true /\
   exists e, find (u "---") 3 content = Some e /\
             yaml_safe_load rt (strip (slice 3 e content)) = OtherError) \/
  (x = ValueError /\
   exists fm body, parse_frontmatter rt content = Ok (fm, body) /\ ~ published_printable fm) \/
  (x = TypeError /\
   exists fm body, parse_frontmatter rt content = Ok (fm, body) /\
                   published_printable fm /\ ~ area_countable fm).
Proof.
  unfold run_checks. split.
  - destruct (parse_frontmatter rt content) as [[fm body]|e] eqn:Hp; cbn [bind fst snd].
    + destruct (published_printable_dec fm) as [Hd|Hd].
      * destruct (@check_002_total rt fm Hd) as [r2 ->]. cbn [bind].
        destruct (check_013_area_frequency fm body) as [r13|e] eqn:H13; cbn [bind];
          [discriminate|].
        intros H. right. right. injection H as <-.
        assert (Hna : ~ area_countable fm).
        { intros Ha. destruct (@check_013_total fm body Ha) as [r E]. congruence. }
        rewrite (@check_013_raises fm body Hna) in H13. injection H13 as <-.
        split; [reflexivity|]. now exists fm, body.
      * rewrite (@check_002_raises rt fm Hd). cbn [bind].
        intros H. right. left. injection H as <-.
        split; [reflexivity|]. now exists fm, body.
    + intros H. left. injection H as <-. now apply parse_frontmatter_raises.
  - intros [H|[(-> & fm & body & Hp & Hd)|(-> & fm & body & Hp & Hd & Hna)]].
    + apply parse_frontmatter_raises in H. now rewrite H.
    + rewrite Hp. cbn [bind fst snd]. now rewrite (@check_002_raises rt fm Hd).
    + rewrite Hp. cbn [bind fst snd].
      destruct (@check_002_total rt fm Hd) as [r2 ->]. cbn [bind].
      now rewrite (@check_013_raises fm body Hna).
Qed.

(** A header whose [publishedAt] is an int too long to print parses, and
    then rule 002 raises, whatever the rest of the document. *)
Example run_checks_raises_on_long_int :
  forall (rt : Runtime) (slug site_dir : str),
    yaml_safe_load rt (u "publishedAt: 0xff") = Loaded (PDict [(PStr (u "publishedAt"), PBigInt)]) ->
    run_checks rt (u "---
publishedAt: 0xff
---
text") slug site_dir = Raise ValueError.
Proof.
  intros rt slug site_dir Hy. unfold run_checks.
  assert (Hp : parse_frontmatter rt (u "---
publishedAt: 0xff
---
text") = Ok ([(PStr (u "publishedAt"), PBigInt)], u "text")).
  { unfold parse_frontmatter. cbv zeta.
    change (startswith (u "---") _) with true. cbn [negb].
    change (find (u "---") 3 _) with (Some 22). cbv iota beta.
    change (strip (slice 3 22 _)) with (u "publishedAt: 0xff").
    rewrite Hy. vm_compute. reflexivity. }
  rewrite Hp. cbn [bind fst snd]. rewrite check_002_raises; [reflexivity|].
  vm_compute. discriminate.
Qed.

(** X2: a text that does not start with "---" never reaches the loader and
    always gets a report: rule 001 fails listing all seven fields, rule 002
    passes, rule 013 fails with "no area in frontmatter", and the other rules
    are run on the whole text, not stripped. *)
Theorem run_checks_without_header (rt : Runtime) (content slug site_dir : str) :
  startswith (u "---") content = false ->
  run_checks rt content slug site_dir =
    Ok (entries_of rt [] content slug site_dir (true, [])
          (false, u "no area in frontmatter")) /\
  lookup (u "check_001") (stored (run_checks rt content slug site_dir)) =
    Some {| pass := false;
            detail_of := DStr (u "missing: title, description, publishedAt, category, area, keyword, keywords") |} /\
  lookup (u "check_002") (stored (run_checks rt content slug site_dir)) =
    Some {| pass := true; detail_of := DStr [] |}.
Proof.
  intros Hs.
  assert (E : run_checks rt content slug site_dir =
              Ok (entries_of rt [] content slug site_dir (true, [])
                    (false, u "no area in frontmatter"))).
  { apply run_checks_entries; [|reflexivity|reflexivity].
    unfold parse_frontmatter. now rewrite Hs. }
  rewrite E. split; [reflexivity|]. split; vm_compute; reflexivity.
Qed.

Lemma run_checks_without_header_witness :
  run_checks (runtime_with (fun _ => OtherError)) (u "# 見出し") (u "a") (u "/srv/site") =
    Ok (entries_of (runtime_with (fun _ => OtherError)) [] (u "# 見出し") (u "a") (u "/srv/site")
          (true, []) (false, u "no area in frontmatter")) /\
  lookup (u "check_001")
    (stored (run_checks (runtime_with (fun _ => OtherError)) (u "# 見出し") (u "a") (u "/srv/site"))) =
    Some {| pass := false;
            detail_of := DStr (u "missing: title, description, publishedAt, category, area, keyword, keywords") |} /\
  lookup (u "check_002")
    (stored (run_checks (runtime_with (fun _ => OtherError)) (u "# 見出し") (u "a") (u "/srv/site"))) =
    Some {| pass := true; detail_of := DStr [] |}.
Proof.
  apply (@run_checks_without_header (runtime_with (fun _ => OtherError))).
  vm_compute. reflexivity.
Defined.

(** ** The tallies of aggregate_results *)

Lemma filter_disjoint_length (A : Type) (f g : A -> bool) (l : list A) :
  (forall x, f x = true -> g x = false) ->
  length (filter f l) + length (filter g l) <= length l.
Proof.
  intros H. induction l as [|x l IH]; cbn [filter length]; [lia|].
  destruct (f x) eqn:Ef; [rewrite (H x Ef)|destruct (g x)]; cbn [length]; lia.
Qed.

Lemma passed_not_failed (cid : str) (item : str * file_result) :
  passed_here cid item = true -> failed_here cid item = false.
Proof.
  unfold passed_here, failed_here. destruct (lookup cid (snd item)) as [v|]; [|reflexivity].
  now intros ->.
Qed.

Lemma firstn_app_firstn (A : Type) (y : list A) :
  forall n m (x : list A),
    n <= m -> firstn n (x ++ y) = firstn n (firstn n x ++ firstn m y).
Proof.
  induction n as [|n IH]; intros m x Hnm; [reflexivity|].
  destruct x as [|a x].
  - change (firstn (S n) y = firstn (S n) (firstn m y)).
    rewrite firstn_firstn. f_equal. lia.
  - cbn [firstn app]. f_equal. apply IH. lia.
Qed.

Lemma firstn_firstn_app (A : Type) (n : nat) (x y : list A) :
  firstn n (x ++ y) = firstn n (firstn n x ++ firstn n y).
Proof. now apply firstn_app_firstn. Qed.

(** X3: in every tally, the total of failing files is the fail count; the
    sample holds the first 20 failing file names, so its length is the
    smaller of 20 and the fail count; and no document is counted twice: pass
    and fail together never exceed the number of documents. *)
Theorem tally_of_invariants (rt : Runtime) (all_results : list (str * file_result)) (cid : str) :
  fail_files_total (tally_of rt all_results cid) = fail_count (tally_of rt all_results cid) /\
  length (fail_files (tally_of rt all_results cid)) =
    Nat.min 20 (fail_count (tally_of rt all_results cid)) /\
  pass_count (tally_of rt all_results cid) + fail_count (tally_of rt all_results cid)
    <= length all_results /\
  fail_files (tally_of rt all_results cid) =
    firstn 20 (map fst (filter (failed_here cid) all_results)).
Proof.
  rewrite tally_of_eq. cbn [pass_count fail_count fail_files fail_files_total].
  repeat split.
  - now rewrite length_firstn, length_map.
  - apply filter_disjoint_length. apply passed_not_failed.
Qed.

Lemma no_report_filters (cid : str) (all_results : list (str * file_result)) :
  (forall item, In item all_results -> exists e, snd item = Failed e) ->
  filter (passed_here cid) all_results = [] /\
  filter (failed_here cid) all_results = [].
Proof.
  induction all_results as [|item rest IH]; intros H; [split; reflexivity|].
  destruct (IH (fun i Hi => H i (or_intror Hi))) as [Hp Hf].
  destruct (H item (or_introl eq_refl)) as [e He].
  cbn [filter]. unfold passed_here at 1, failed_here at 1. rewrite He. cbn [lookup].
  now split.
Qed.

(** X4: when no document has a report (the collection is empty, or every
    document raised), every tally is zero and the rate is "N/A": nothing is
    divided by zero. *)
Theorem tally_of_without_reports (rt : Runtime) (all_results : list (str * file_result))
    (cid : str) :
  (forall item, In item all_results -> exists e, snd item = Failed e) ->
  tally_of rt all_results cid =
    {| pass_count := 0; fail_count := 0; pass_rate := u "N/A";
       fail_files := []; fail_files_total := 0 |}.
Proof.
  intros H. rewrite tally_of_eq.
  destruct (no_report_filters cid all_results H) as [-> ->]. reflexivity.
Qed.

Lemma tally_of_without_reports_witness :
  tally_of (runtime_with (fun _ => YAMLError))
    [(u "a.md", Failed TypeError); (u "b.md", Failed LoaderError)] (u "check_001") =
    {| pass_count := 0; fail_count := 0; pass_rate := u "N/A";
       fail_files := []; fail_files_total := 0 |}.
Proof.
  apply (@tally_of_without_reports (runtime_with (fun _ => YAMLError))).
  intros item [<-|[<-|[]]]; eexists; reflexivity.
Defined.

(** X5: the sample of failing files of two collections put one after the
    other is the first 20 names of the two samples put one after the other:
    samples can be merged without the documents. *)
Theorem fail_files_of_app (rt : Runtime) (a b : list (str * file_result)) (cid : str) :
  fail_files (tally_of rt (a ++ b) cid) =
  firstn 20 (fail_files (tally_of rt a cid) ++ fail_files (tally_of rt b cid)).
Proof.
  rewrite !tally_of_eq. cbn [fail_files].
  rewrite filter_app, map_app. apply firstn_firstn_app.
Qed.

Lemma run_checks_keys (rt : Runtime) (content slug site_dir : str) (r : report) :
  run_checks rt content slug site_dir = Ok r -> map fst r = check_ids.
Proof.
  intros H. destruct (run_checks_ok_inv _ _ _ _ H) as (fm & body & r2 & r13 & _ & _ & _ & ->).
  vm_compute. reflexivity.
Qed.

Lemma lookup_some (cid : str) (r : report) :
  In cid (map fst r) -> exists v, lookup cid (Checks r) = Some v.
Proof.
  unfold lookup. induction r as [|[k v] rest IH]; cbn [map fst In List.find]; [tauto|].
  intros [->|Hin].
  - rewrite (proj2 (str_eqb_eq cid cid) eq_refl). now eexists.
  - destruct (str_eqb k cid); [now eexists|]. now apply IH.
Qed.

(** X6: every document that [run_checks] gave a report for is counted once
    under every rule, as a pass or as a fail, and the documents that raised
    are counted under none: for each of the 14 rule ids, pass and fail add up
    to the number of documents with a report. *)
Theorem tally_counts_each_report (rt : Runtime) (all_results : list (str * file_result))
    (cid : str) :
  In cid check_ids ->
  (forall item, In item all_results ->
     exists rt' content slug site_dir,
       snd item = stored (run_checks rt' content slug site_dir)) ->
  pass_count (tally_of rt all_results cid) + fail_count (tally_of rt all_results cid)
    = length (filter has_report all_results).
Proof.
  intros Hcid H. rewrite tally_of_eq. cbn [pass_count fail_count].
  induction all_results as [|item rest IH]; [reflexivity|].
  cbn [filter]. specialize (IH (fun i Hi => H i (or_intror Hi))).
  destruct (H item (or_introl eq_refl)) as (rt' & content & slug & site_dir & Hitem).
  unfold passed_here at 1, failed_here at 1, has_report at 1. rewrite Hitem.
  destruct (run_checks rt' content slug site_dir) as [r|e] eqn:Hr; cbn [stored].
  - destruct (@lookup_some cid r) as [v Hv].
    { now rewrite (run_checks_keys _ _ _ _ Hr). }
    rewrite Hv. destruct (pass v); cbn [negb length]; lia.
  - cbn [lookup length]. exact IH.
Qed.

Lemma tally_counts_each_report_witness :
  pass_count (tally_of (runtime_with (fun _ => YAMLError))
                [(u "a.md", failing_report); (u "b.md", Failed TypeError)] (u "check_001"))
  + fail_count (tally_of (runtime_with (fun _ => YAMLError))
                [(u "a.md", failing_report); (u "b.md", Failed TypeError)] (u "check_001"))
  = length (filter has_report [(u "a.md", failing_report); (u "b.md", Failed TypeError)]).
Proof.
  apply (@tally_counts_each_report (runtime_with (fun _ => YAMLError))).
  - vm_compute. left. reflexivity.
  - intros item [<-|[<-|[]]].
    + exists (runtime_with (fun _ => YAMLError)), (u "text"), (u "a"), (u "/srv/site").
      reflexivity.
    + exists (runtime_with (fun _ =>
                Loaded (PDict [(PStr (u "area"), PAtom true (u "5"))]))),
             (u "---
area: 5
---
text"), (u "b"), (u "/srv/site").
      vm_compute. reflexivity.
Defined.

(** ** The body that parse_frontmatter returns *)

Lemma lstrip_head (s : str) (c : char) (t : str) : lstrip s = c :: t -> isspace c = false.
Proof.
  induction s as [|x s IH]; cbn [lstrip]; [discriminate|].
  destruct (isspace x) eqn:E; [exact IH|]. intros H. injection H as <- _. exact E.
Qed.

Lemma lstrip_fixed (c : char) (t : str) : isspace c = false -> lstrip (c :: t) = c :: t.
Proof. intros H. cbn [lstrip]. now rewrite H. Qed.

Lemma lstrip_app_nonspace (l m : str) (c : char) :
  isspace c = false -> lstrip (l ++ c :: m) = lstrip l ++ c :: m.
Proof.
  intros Hc. induction l as [|x l IH]; cbn [app lstrip].
  - now rewrite Hc.
  - destruct (isspace x); [exact IH|reflexivity].
Qed.

Lemma rstrip_cons (c : char) (t : str) : isspace c = false -> rstrip (c :: t) = c :: rstrip t.
Proof.
  intros Hc. unfold rstrip. cbn [rev]. rewrite lstrip_app_nonspace by exact Hc.
  rewrite rev_app_distr. reflexivity.
Qed.

Lemma rstrip_last (s t : str) (c : char) : rstrip s = t ++ [c] -> isspace c = false.
Proof.
  unfold rstrip. intros H. apply (f_equal (@rev _)) in H.
  rewrite rev_involutive, rev_app_distr in H. cbn [rev app] in H.
  eapply lstrip_head. exact H.
Qed.

Lemma rstrip_fixed (t : str) (c : char) : isspace c = false -> rstrip (t ++ [c]) = t ++ [c].
Proof.
  intros Hc. unfold rstrip. rewrite rev_app_distr. cbn [rev app].
  rewrite lstrip_fixed by exact Hc.
  change (c :: rev t) with ([c] ++ rev t). rewrite rev_app_distr, rev_involutive. reflexivity.
Qed.

(** What [strip] leaves has no whitespace at either end, and stripping it
    again changes nothing. *)
Lemma strip_edges (s : str) :
  (forall c t, strip s = c :: t -> isspace c = false) /\
  (forall t c, strip s = t ++ [c] -> isspace c = false) /\
  strip (strip s) = strip s.
Proof.
  unfold strip.
  assert (Hhead : forall c t, rstrip (lstrip s) = c :: t -> isspace c = false).
  { intros c t H. destruct (lstrip s) as [|x l] eqn:E; [discriminate|].
    assert (Hx : isspace x = false) by (eapply lstrip_head; exact E).
    rewrite rstrip_cons in H by exact Hx.
    injection H as <- _. exact Hx. }
  assert (Hlast : forall t c, rstrip (lstrip s) = t ++ [c] -> isspace c = false).
  { intros t c H. eapply rstrip_last. exact H. }
  split; [exact Hhead|]. split; [exact Hlast|].
  destruct (rstrip (lstrip s)) as [|c t] eqn:E; [reflexivity|].
  rewrite lstrip_fixed by (eapply Hhead; reflexivity).
  destruct (exists_last (l := c :: t) ltac:(discriminate)) as (t' & c' & E').
  rewrite E'. apply rstrip_fixed. apply (Hlast t' c'). exact E'.
Qed.

(** X7: when a header block is found, the body that comes back is
    stripped: it neither starts nor ends with whitespace, and stripping it
    again changes nothing.  (Without a header block the text comes back as it
    is, whitespace included.) *)
Theorem parsed_body_is_stripped (rt : Runtime) (content : str) (fm : dict) (body : str)
    (e : nat) :
  startswith (u "---") content = true ->
  find (u "---") 3 content = Some e ->
  parse_frontmatter rt content = Ok (fm, body) ->
  body = strip (slice_from (e + 3) content) /\
  strip body = body /\
  (forall c t, body = c :: t -> isspace c = false) /\
  (forall t c, body = t ++ [c] -> isspace c = false).
Proof.
  intros Hs Hf Hp. unfold parse_frontmatter in Hp. rewrite Hs, Hf in Hp. cbn [negb] in Hp.
  assert (Hb : body = strip (slice_from (e + 3) content)).
  { destruct (yaml_safe_load rt (strip (slice 3 e content))) as [[]| |];
      try discriminate; now injection Hp as _ <-. }
  split; [exact Hb|]. rewrite Hb.
  destruct (strip_edges (slice_from (e + 3) content)) as (H1 & H2 & H3).
  repeat split; assumption.
Qed.

Lemma parsed_body_is_stripped_witness :
  u "本文" = strip (slice_from (13 + 3) (u "---
title: x
---

  本文
")) /\
  strip (u "本文") = u "本文" /\
  (forall c t, u "本文" = c :: t -> isspace c = false) /\
  (forall t c, u "本文" = t ++ [c] -> isspace c = false).
Proof.
  apply (@parsed_body_is_stripped (runtime_with (fun _ => YAMLError)) (u "---
title: x
---

  本文
") [] (u "本文") 13); vm_compute; reflexivity.
Defined.

(** ** Rule 014 *)

Lemma path_join2_relative (path b : str) :
  startswith (u "/") b = false -> path_join2 path b = with_slash path ++ b.
Proof.
  intros H. unfold path_join2, with_slash. rewrite H.
  destruct (is_empty path || char_eqb (last path 0%N) (ch "/")); [reflexivity|].
  now rewrite <- app_assoc.
Qed.

Lemma with_slash_word (x w : str) (c : char) :
  char_eqb c (ch "/") = false -> with_slash (x ++ w ++ [c]) = x ++ w ++ [c] ++ u "/".
Proof.
  intros Hc. unfold with_slash.
  replace (x ++ w ++ [c]) with ((x ++ w) ++ [c]) by (now rewrite <- app_assoc).
  rewrite last_last, Hc, orb_false_r.
  assert (E : is_empty ((x ++ w) ++ [c]) = false) by (now destruct (x ++ w)).
  rewrite E. now rewrite <- !app_assoc.
Qed.

Lemma images_dir_eq (site_dir : str) :
  with_slash (path_join site_dir [u "public"; u "images"; u "articles"]) =
  with_slash site_dir ++ u "public/images/articles/".
Proof.
  unfold path_join. cbn [fold_left].
  rewrite !path_join2_relative by reflexivity.
  change (u "public") with (u "publi" ++ [ch "c"]).
  change (u "images") with (u "image" ++ [ch "s"]).
  change (u "articles") with (u "article" ++ [ch "s"]).
  rewrite !with_slash_word by reflexivity.
  rewrite <- !app_assoc. reflexivity.
Qed.

(** X8: for a slug that does not start with "/", rule 014 looks for
    [<site_dir>/public/images/articles/<slug>-ogp.png] and [...-thumb.png]
    (one "/" after [site_dir], whether or not it ends with one) and passes
    exactly when both exist; the detail names the missing ones, ogp first. *)
Theorem check_014_paths (rt : Runtime) (slug site_dir : str) :
  startswith (u "/") slug = false ->
  check_014_image_exists rt slug site_dir =
    match
      path_exists rt (with_slash site_dir ++ u "public/images/articles/" ++ slug ++ u "-ogp.png"),
      path_exists rt (with_slash site_dir ++ u "public/images/articles/" ++ slug ++ u "-thumb.png")
    with
    | true, true => (true, [])
    | false, true => (false, u "missing: ogp")
    | true, false => (false, u "missing: thumb")
    | false, false => (false, u "missing: ogp, thumb")
    end.
Proof.
  intros Hslug. unfold check_014_image_exists. cbv zeta.
  assert (Hrel : forall suffix, startswith (u "/") (slug ++ suffix) = false
                                \/ slug = []).
  { intros suffix. destruct slug as [|c t]; [now right|]. left. exact Hslug. }
  assert (Hp : forall suffix, startswith (u "/") suffix = false ->
            path_join (path_join site_dir [u "public"; u "images"; u "articles"])
                      [slug ++ suffix] =
            with_slash site_dir ++ u "public/images/articles/" ++ slug ++ suffix).
  { intros suffix Hsuf. unfold path_join at 1. cbn [fold_left].
    rewrite path_join2_relative.
    - rewrite images_dir_eq. now rewrite <- !app_assoc.
    - destruct (Hrel suffix) as [H | Hnil]; [exact H | rewrite Hnil; exact Hsuf]. }
  rewrite !Hp by reflexivity.
  destruct (path_exists rt _), (path_exists rt _); reflexivity.
Qed.

Lemma check_014_paths_witness :
  check_014_image_exists
    {| yaml_safe_load := fun _ => YAMLError; repr := fun _ => [];
       isdecimal := fun _ => false; percent0 := fun _ _ => [];
       path_exists := fun p => str_eqb p (u "/srv/site/public/images/articles/tokyo-ogp.png") |}
    (u "tokyo") (u "/srv/site") = (false, u "missing: thumb").
Proof.
  rewrite check_014_paths by (vm_compute; reflexivity).
  vm_compute. reflexivity.
Defined.

(** ** Rule 005 *)

Lemma positions_zero_iff (f : str -> bool) (s : str) :
  positions f s = 0 <-> forall a b, s = a ++ b -> f b = false.
Proof.
  induction s as [|c s IH]; cbn [positions].
  - split.
    + intros H a b E. symmetry in E. apply app_eq_nil in E as [_ ->].
      destruct (f []); [discriminate|reflexivity].
    + intros H. now rewrite (H [] [] eq_refl).
  - split.
    + intros H a b E. destruct (f (c :: s)) eqn:Ef; [discriminate|].
      destruct a as [|x a]; [simpl in E; now subst b|].
      injection E as _ E. apply (proj1 IH H a b E).
    + intros H. rewrite (H [] (c :: s) eq_refl). apply IH.
      intros a b E. apply (H (c :: a) b). now rewrite E.
Qed.

Lemma findall_cta_block_nil (body : str) :
  positions (startswith CTA_BOX) body = 0 -> findall CTA_BLOCK body = [].
Proof.
  intros H. assert (E := findall_nil_iff CTA_BLOCK body).
  destruct (findall CTA_BLOCK body) as [|m ms]; [reflexivity|]. exfalso.
  assert (E' : is_empty (m :: ms) = true); [|discriminate].
  apply E. intros a b Hs. unfold match_at, CTA_BLOCK. cbn [matchk].
  now rewrite (proj1 (positions_zero_iff _ _) H a b Hs).
Qed.

(** X9: in a body without the container tag, rule 005 has nothing to
    validate: it passes as soon as there is one CTA comment and fails with
    "no CTA found" when there is none.  With exactly three comments such a
    body passes rule 004 and rule 005 together. *)
Theorem check_005_comments_only (body : str) :
  positions (startswith CTA_BOX) body = 0 ->
  check_005_cta_structure body =
    (if positions cta_comment_here body =? 0 then (false, u "no CTA found") else (true, [])) /\
  (positions cta_comment_here body = 3 ->
   check_004_cta_count body = (true, []) /\ check_005_cta_structure body = (true, [])).
Proof.
  intros Hbox.
  assert (E5 : check_005_cta_structure body =
               (if positions cta_comment_here body =? 0
                then (false, u "no CTA found") else (true, []))).
  { unfold check_005_cta_structure. rewrite (findall_cta_block_nil body Hbox).
    rewrite findall_cta_comment. cbn [is_empty andb cta_issues].
    now destruct (positions cta_comment_here body =? 0). }
  split; [exact E5|]. intros H3. split.
  - unfold check_004_cta_count. rewrite count_cta_box, findall_cta_comment, Hbox, H3.
    reflexivity.
  - now rewrite E5, H3.
Qed.

Lemma check_005_comments_only_witness :
  check_005_cta_structure (u "<!-- CTA: a --> x <!--CTA: b --> y <!-- CTA: c -->") =
    (if positions cta_comment_here (u "<!-- CTA: a --> x <!--CTA: b --> y <!-- CTA: c -->") =? 0
     then (false, u "no CTA found") else (true, [])) /\
  (positions cta_comment_here (u "<!-- CTA: a --> x <!--CTA: b --> y <!-- CTA: c -->") = 3 ->
   check_004_cta_count (u "<!-- CTA: a --> x <!--CTA: b --> y <!-- CTA: c -->") = (true, []) /\
   check_005_cta_structure (u "<!-- CTA: a --> x <!--CTA: b --> y <!-- CTA: c -->") = (true, [])).
Proof.
  apply check_005_comments_only. vm_compute. reflexivity.
Defined.

(** ** Rule 003, both directions *)

Lemma startswith_before_sep (sep : char) (w : str) :
  ~ In sep w ->
  forall l rest, startswith w (l ++ sep :: rest) = true -> startswith w l = true.
Proof.
  induction w as [|x w IH]; intros Hsep l rest H; [reflexivity|].
  destruct l as [|c l]; cbn [app startswith] in *.
  - apply andb_true_iff in H as [Hx _]. apply char_eqb_eq in Hx.
    exfalso. apply Hsep. now left.
  - apply andb_true_iff in H as [Hx Hw]. rewrite Hx. cbn [andb].
    apply (IH (fun Hin => Hsep (or_intror Hin)) l rest Hw).
Qed.

Lemma contains_cons (w s : str) (c : char) : contains w s = true -> contains w (c :: s) = true.
Proof. intros H. cbn [contains]. rewrite H. apply orb_true_r. Qed.

Lemma contains_across_sep (sep : char) (w : str) :
  ~ In sep w ->
  forall l rest,
    contains w (l ++ sep :: rest) = true -> contains w l = true \/ contains w rest = true.
Proof.
  intros Hsep. induction l as [|c l IH]; intros rest H.
  - cbn [app contains] in H. apply orb_true_iff in H as [H|H]; [left|now right].
    apply contains_here. exact (@startswith_before_sep sep w Hsep [] rest H).
  - cbn [app] in H. cbn [contains] in H. apply orb_true_iff in H as [H|H].
    + left. apply contains_here. exact (@startswith_before_sep sep w Hsep (c :: l) rest H).
    + destruct (IH rest H) as [Hl|Hr]; [left|now right]. now apply contains_cons.
Qed.

Lemma contains_in_joined (sep : char) (w : str) (lines : list str) :
  ~ In sep w -> lines <> [] ->
  contains w (join [sep] lines) = true ->
  exists line, In line lines /\ contains w line = true.
Proof.
  intros Hsep. induction lines as [|l ls IH]; intros Hne H; [contradiction|].
  destruct ls as [|l2 ls].
  - exists l. split; [now left|exact H].
  - change (join [sep] (l :: l2 :: ls)) with (l ++ sep :: join [sep] (l2 :: ls)) in H.
    destruct (@contains_across_sep sep w Hsep l _ H) as [Hl|Hr].
    + exists l. split; [now left|exact Hl].
    + destruct (IH ltac:(discriminate) Hr) as (line & Hin & Hc).
      exists line. split; [now right|exact Hc].
Qed.

Lemma split_not_nil (sep : char) (s : str) : split sep s <> [].
Proof.
  induction s as [|c s IH]; cbn [split]; [discriminate|].
  destruct (char_eqb c sep); [discriminate|]. destruct (split sep s); discriminate.
Qed.

(** X10: rule 003 passes exactly when one of the first 50 lines of the body
    contains "アフィリエイト広告" or "PR"; a notice on line 51 or later does
    not count, and the failing detail is always the same text. *)
Theorem check_003_passes_iff (body : str) :
  (fst (check_003_pr_notation body) = true <->
   exists line,
     In line (firstn 50 (split NL body)) /\
     (contains (u "アフィリエイト広告") line = true \/ contains (u "PR") line = true)) /\
  (fst (check_003_pr_notation body) = false ->
   check_003_pr_notation body = (false, u "PR notation not found in first 50 lines")).
Proof.
  unfold check_003_pr_notation.
  assert (Hne : firstn 50 (split NL body) <> []).
  { destruct (split NL body) eqn:E; [now apply split_not_nil in E|discriminate]. }
  destruct (contains (u "アフィリエイト広告") (join [NL] (firstn 50 (split NL body)))
            || contains (u "PR") (join [NL] (firstn 50 (split NL body)))) eqn:E; cbn [fst].
  - split; [|discriminate]. split; [intros _|reflexivity].
    apply orb_true_iff in E as [E|E].
    + destruct (@contains_in_joined NL (u "アフィリエイト広告") _
                  ltac:(vm_compute; intuition discriminate) Hne E) as (line & Hin & Hc).
      exists line. auto.
    + destruct (@contains_in_joined NL (u "PR") _
                  ltac:(vm_compute; intuition discriminate) Hne E) as (line & Hin & Hc).
      exists line. auto.
  - split; [|reflexivity]. split; [discriminate|].
    intros (line & Hin & [Hc|Hc]); apply orb_false_iff in E as [E1 E2].
    + now rewrite (contains_join _ [NL] _ _ Hin Hc) in E1.
    + now rewrite (contains_join _ [NL] _ _ Hin Hc) in E2.
Qed.

(** ** The sections of find_h2_sections *)

Lemma h2_loop_headings (lines : list str) :
  forall cur acc,
    map fst (h2_loop lines cur acc) =
    map fst acc
    ++ match cur with
       | Some (h, _) => [h]
       | None => []
       end
    ++ filter (startswith (u "## ")) lines.
Proof.
  induction lines as [|line rest IH]; intros cur acc; cbn [h2_loop filter].
  - destruct cur as [[h ls]|]; rewrite ?map_app, ?app_nil_r; reflexivity.
  - destruct (startswith (u "## ") line); destruct cur as [[h ls]|]; rewrite IH;
      rewrite ?map_app; cbn [map fst app]; rewrite <- ?app_assoc; reflexivity.
Qed.

(** X11: the sections are the lines that start with "## ", in the order of
    the body, one section for each such line; text before the first such line
    belongs to no section. *)
Theorem find_h2_sections_headings (body : str) :
  map fst (find_h2_sections body) = filter (startswith (u "## ")) (split NL body) /\
  length (find_h2_sections body) = length (filter (startswith (u "## ")) (split NL body)).
Proof.
  assert (E : map fst (find_h2_sections body) = filter (startswith (u "## ")) (split NL body)).
  { unfold find_h2_sections. now rewrite h2_loop_headings. }
  split; [exact E|]. now rewrite <- E, length_map.
Qed.

(** ** Rule 009 *)

Lemma match_at_lit (w : str) (prev : option char) (s : str) :
  match_at (Lit w) prev s = if startswith w s then Some (length w, None) else None.
Proof.
  unfold match_at. cbn [matchk]. destruct (startswith w s) eqn:E; [|reflexivity].
  do 2 f_equal. rewrite (startswith_skipn _ _ E) at 1. rewrite length_app. lia.
Qed.

Lemma match_at_alt (r1 r2 : regex) (prev : option char) (s : str) :
  match_at (Alt r1 r2) prev s = or_else (match_at r1 prev s) (match_at r2 prev s).
Proof. reflexivity. Qed.

Lemma match_at_any_of (ws : list str) (prev : option char) (s : str) :
  ws <> [] ->
  match_at (any_of ws) prev s = option_map (fun w => (length w, None)) (first_prefix ws s).
Proof.
  induction ws as [|w ws IH]; intros Hne; [contradiction|].
  destruct ws as [|w2 ws].
  - cbn [any_of first_prefix]. rewrite match_at_lit. now destruct (startswith w s).
  - change (any_of (w :: w2 :: ws)) with (Alt (Lit w) (any_of (w2 :: ws))).
    rewrite match_at_alt, match_at_lit, IH by discriminate.
    cbn [first_prefix]. now destruct (startswith w s).
Qed.

Lemma first_prefix_some (ws : list str) (s w : str) :
  first_prefix ws s = Some w -> In w ws /\ startswith w s = true.
Proof.
  induction ws as [|x ws IH]; cbn [first_prefix]; [discriminate|].
  destruct (startswith x s) eqn:E.
  - intros H. injection H as <-. split; [now left|exact E].
  - intros H. destruct (IH H). split; [now right|assumption].
Qed.

Lemma first_prefix_none (ws : list str) (s : str) :
  first_prefix ws s = None <-> forall w, In w ws -> startswith w s = false.
Proof.
  induction ws as [|x ws IH]; cbn [first_prefix].
  - split; [intros _ w []|reflexivity].
  - destruct (startswith x s) eqn:E.
    + split; [discriminate|]. intros H. rewrite (H x (or_introl eq_refl)) in E. discriminate.
    + rewrite IH. split.
      * intros H w [<-|Hin]; [exact E|now apply H].
      * intros H w Hin. apply H. now right.
Qed.

(** Every match that [finditer] reports is a match of the pattern at some
    place of the subject. *)
Lemma finditer_in (r : regex) (s : str) :
  forall skip prev m cap,
    In (m, cap) (finditer r skip prev s) ->
    exists prev' s' n, match_at r prev' s' = Some (n, cap) /\ m = firstn n s'.
Proof.
  induction s as [|c s IH]; intros skip prev m cap Hin.
  - destruct skip; cbn [finditer] in Hin; [|contradiction].
    destruct (match_at r prev []) as [[n cap']|] eqn:E; [|contradiction].
    destruct Hin as [H|[]]. injection H as <- <-. now exists prev, [], n.
  - destruct skip as [|skip]; cbn [finditer] in Hin.
    + destruct (match_at r prev (c :: s)) as [[n cap']|] eqn:E.
      * destruct Hin as [H|Hin].
        -- injection H as <- <-. now exists prev, (c :: s), n.
        -- exact (IH _ _ _ _ Hin).
      * exact (IH _ _ _ _ Hin).
    + exact (IH _ _ _ _ Hin).
Qed.

Lemma findall_forbidden_words (body m : str) :
  In m (findall FORBIDDEN_PATTERN body) -> In m FORBIDDEN_WORDS.
Proof.
  unfold findall. intros H. apply in_map_iff in H as ([m' cap] & <- & Hin). cbn [fst].
  destruct (finditer_in _ _ _ _ _ _ Hin) as (prev' & s' & n & Hm & ->).
  unfold FORBIDDEN_PATTERN in Hm. rewrite match_at_any_of in Hm by discriminate.
  destruct (first_prefix FORBIDDEN_WORDS s') as [w|] eqn:E; [|discriminate].
  injection Hm as <- _. destruct (first_prefix_some _ _ E) as [Hw Hs].
  apply startswith_spec in Hs as [t ->].
  now rewrite firstn_app, firstn_all, Nat.sub_diag, app_nil_r.
Qed.

(** X12: rule 009 passes exactly when none of the seven forbidden words
    occurs anywhere in the body (tags included: nothing is stripped). *)
Theorem check_009_passes_iff (body : str) :
  fst (check_009_forbidden_words body) = true <->
  forall w, In w FORBIDDEN_WORDS -> contains w body = false.
Proof.
  unfold check_009_forbidden_words.
  assert (E := findall_nil_iff FORBIDDEN_PATTERN body).
  assert (K : (forall a b, body = a ++ b ->
                 is_some (match_at FORBIDDEN_PATTERN (last_of None a) b) = false) <->
              (forall w, In w FORBIDDEN_WORDS -> contains w body = false)).
  { split.
    - intros H w Hw. destruct (contains w body) eqn:Ec; [|reflexivity].
      apply contains_spec in Ec as (a & b & Hs). specialize (H a (w ++ b) Hs).
      unfold FORBIDDEN_PATTERN in H. rewrite match_at_any_of in H by discriminate.
      destruct (first_prefix FORBIDDEN_WORDS (w ++ b)) eqn:Ef; [discriminate|].
      assert (Hf := proj1 (first_prefix_none _ _) Ef w Hw).
      rewrite startswith_app in Hf. discriminate.
    - intros H a b Hs. unfold FORBIDDEN_PATTERN. rewrite match_at_any_of by discriminate.
      destruct (first_prefix FORBIDDEN_WORDS b) as [w|] eqn:Ef; [|reflexivity].
      destruct (first_prefix_some _ _ Ef) as [Hw Hsw].
      apply startswith_spec in Hsw as [t ->].
      assert (Hc : contains w body = true) by (apply contains_spec; now exists a, t).
      rewrite (H w Hw) in Hc. discriminate. }
  rewrite <- K, <- E.
  destruct (findall FORBIDDEN_PATTERN body); cbn; split; intro; try reflexivity; discriminate.
Qed.

Lemma sum_cons (a : nat) (l : list nat) : list_sum (a :: l) = a + list_sum l.
Proof. reflexivity. Qed.

Lemma bump_spec (m : str) (counts : list (str * nat)) :
  NoDup (map fst counts) ->
  NoDup (map fst (bump m counts)) /\
  list_sum (map snd (bump m counts)) = S (list_sum (map snd counts)) /\
  (forall w, In w (map fst (bump m counts)) <-> w = m \/ In w (map fst counts)) /\
  (forall w c, In (w, c) (bump m counts) -> 1 <= c \/ In (w, c) counts).
Proof.
  induction counts as [|[w c] rest IH]; intros Hnd.
  - cbn [bump map fst snd]. split; [|split; [|split]].
    + constructor; [intros []|constructor].
    + reflexivity.
    + intros w. cbn [In]. intuition congruence.
    + intros w c [H|[]]. injection H as <- <-. left. lia.
  - inversion Hnd as [|? ? Hnotin Hnd']; subst. cbn [bump].
    destruct (str_eqb w m) eqn:E.
    + apply str_eqb_eq in E. subst w. cbn [map fst snd]; rewrite ?sum_cons.
      split; [|split; [|split]].
      * exact Hnd.
      * cbn [Nat.add]. reflexivity.
      * intros w. cbn [In]. intuition congruence.
      * intros w c' [H|H]; [injection H as <- <-; left; lia|right; now right].
    + destruct (IH Hnd') as (H1 & H2 & H3 & H4). cbn [map fst snd]; rewrite ?sum_cons.
      assert (Hwm : w <> m).
      { intros ->. now rewrite (proj2 (str_eqb_eq m m) eq_refl) in E. }
      split; [|split; [|split]].
      * constructor; [|exact H1]. intros Hin. apply H3 in Hin as [->|Hin]; tauto.
      * rewrite H2. lia.
      * intros w'. cbn [In]. rewrite H3. intuition congruence.
      * intros w' c' [H|H]; [right; now left|].
        destruct (H4 _ _ H) as [Hc|Hc]; [now left|right; now right].
Qed.

Lemma fold_bump_spec (ms : list str) :
  forall counts,
    NoDup (map fst counts) ->
    (forall w c, In (w, c) counts -> 1 <= c) ->
    NoDup (map fst (fold_left (fun counts m => bump m counts) ms counts)) /\
    list_sum (map snd (fold_left (fun counts m => bump m counts) ms counts))
      = length ms + list_sum (map snd counts) /\
    (forall w, In w (map fst (fold_left (fun counts m => bump m counts) ms counts))
               <-> In w ms \/ In w (map fst counts)) /\
    (forall w c, In (w, c) (fold_left (fun counts m => bump m counts) ms counts) -> 1 <= c).
Proof.
  induction ms as [|m ms IH]; intros counts Hnd Hpos; cbn [fold_left].
  - split; [exact Hnd|]. split; [reflexivity|]. split; [|exact Hpos].
    intros w. cbn [In]. tauto.
  - destruct (@bump_spec m counts Hnd) as (H1 & H2 & H3 & H4).
    assert (Hpos' : forall w c, In (w, c) (bump m counts) -> 1 <= c).
    { intros w c H. destruct (H4 _ _ H) as [Hc|Hc]; [exact Hc|eapply Hpos; exact Hc]. }
    destruct (IH (bump m counts) H1 Hpos') as (I1 & I2 & I3 & I4).
    split; [exact I1|]. split; [|split; [|exact I4]].
    + rewrite I2, H2. cbn [length]. lia.
    + intros w. rewrite I3, H3. cbn [In]. intuition congruence.
Qed.

(** X13: when rule 009 fails, its detail has one entry "word(count)" for
    each forbidden word that occurs, no word twice; every count is at least 1
    and the counts add up to the number of matches found. *)
Theorem check_009_detail (body : str) :
  fst (check_009_forbidden_words body) = false ->
  snd (check_009_forbidden_words body) =
    map (fun wc => fst wc ++ u "(" ++ str_of_nat (snd wc) ++ u ")") (word_counts_of body) /\
  NoDup (map fst (word_counts_of body)) /\
  list_sum (map snd (word_counts_of body)) = length (findall FORBIDDEN_PATTERN body) /\
  (forall w, In w (map fst (word_counts_of body)) <-> In w (findall FORBIDDEN_PATTERN body)) /\
  (forall w c, In (w, c) (word_counts_of body) -> In w FORBIDDEN_WORDS /\ 1 <= c).
Proof.
  intros Hfail.
  destruct (@fold_bump_spec (findall FORBIDDEN_PATTERN body) [] (NoDup_nil _)
              (fun w c (H : In (w, c) []) => match H with end)) as (H1 & H2 & H3 & H4).
  fold (word_counts_of body) in H1, H2, H3, H4.
  split; [|split; [exact H1|split; [|split]]].
  - unfold check_009_forbidden_words in *.
    destruct (is_empty (findall FORBIDDEN_PATTERN body)); [discriminate|reflexivity].
  - rewrite H2. apply Nat.add_0_r.
  - intros w. rewrite H3. cbn [map In]. tauto.
  - intros w c Hin. split; [|exact (H4 _ _ Hin)].
    apply findall_forbidden_words with (body := body).
    assert (Hk : In w (map fst (word_counts_of body))).
    { apply in_map_iff. now exists (w, c). }
    apply H3 in Hk as [Hk|[]]. exact Hk.
Qed.

Lemma check_009_detail_witness :
  snd (check_009_forbidden_words (u "絶対に最高、絶対No.1")) =
    map (fun wc => fst wc ++ u "(" ++ str_of_nat (snd wc) ++ u ")")
      (word_counts_of (u "絶対に最高、絶対No.1")) /\
  NoDup (map fst (word_counts_of (u "絶対に最高、絶対No.1"))) /\
  list_sum (map snd (word_counts_of (u "絶対に最高、絶対No.1"))) =
    length (findall FORBIDDEN_PATTERN (u "絶対に最高、絶対No.1")) /\
  (forall w, In w (map fst (word_counts_of (u "絶対に最高、絶対No.1"))) <->
             In w (findall FORBIDDEN_PATTERN (u "絶対に最高、絶対No.1"))) /\
  (forall w c, In (w, c) (word_counts_of (u "絶対に最高、絶対No.1")) ->
               In w FORBIDDEN_WORDS /\ 1 <= c).
Proof.
  apply check_009_detail. vm_compute. reflexivity.
Defined.

Example check_009_example :
  check_009_forbidden_words (u "絶対に最高、絶対No.1") =
    (false, [u "絶対(2)"; u "最高(1)"; u "No.1(1)"]).
Proof. vm_compute. reflexivity. Qed.

(** ** Rule 013 *)

Lemma startswith_length (p s : str) : startswith p s = true -> length p <= length s.
Proof.
  intros H. apply startswith_spec in H as [t ->]. rewrite length_app. lia.
Qed.

Lemma startswith_extend (p s y : str) : startswith p s = true -> startswith p (s ++ y) = true.
Proof.
  intros H. apply startswith_spec in H as [t ->]. rewrite <- app_assoc. apply startswith_app.
Qed.

Lemma startswith_only_extended (p : str) :
  forall a y, startswith p (a ++ y) = true -> startswith p a = false -> length a < length p.
Proof.
  induction p as [|x p IH]; intros a y H1 H2; [discriminate|].
  destruct a as [|c a]; cbn [length]; [lia|].
  cbn [app startswith] in *. apply andb_true_iff in H1 as [Hx Hp]. rewrite Hx in H2.
  cbn [andb] in H2. specialize (IH a y Hp H2). lia.
Qed.

Lemma count_from_short (w : str) (s : str) :
  forall skip, length s < length w -> count_from w skip s = 0.
Proof.
  induction s as [|c s IH]; intros skip Hlen.
  - destruct skip; cbn [count_from]; [|reflexivity].
    destruct (startswith w []) eqn:E; [|reflexivity].
    apply startswith_length in E. lia.
  - destruct skip as [|skip]; cbn [count_from].
    + destruct (startswith w (c :: s)) eqn:E.
      * apply startswith_length in E. lia.
      * apply IH. cbn [length] in Hlen. lia.
    + apply IH. cbn [length] in Hlen. lia.
Qed.

Lemma count_from_app (w y : str) :
  w <> [] ->
  forall x skip, count_from w skip x <= count_from w skip (x ++ y).
Proof.
  intros Hw. induction x as [|c x IH]; intros skip.
  - rewrite count_from_short; [lia|]. destruct w; [contradiction|cbn [length]; lia].
  - destruct skip as [|skip]; cbn [app count_from]; [|apply IH].
    destruct (startswith w (c :: x)) eqn:E.
    + change (c :: x ++ y) with ((c :: x) ++ y). rewrite (startswith_extend _ _ y E).
      apply le_n_S, IH.
    + destruct (startswith w (c :: x ++ y)) eqn:E'.
      * change (c :: x ++ y) with ((c :: x) ++ y) in E'.
        assert (Hlen := startswith_only_extended _ _ _ E' E). cbn [length] in Hlen.
        rewrite (@count_from_short w x 0) by lia. lia.
      * apply IH.
Qed.

(** X14: for an [area] that is a non-empty [str], rule 013 never raises
    and passes exactly when [body.count(area)] is at least 3; occurrences are
    counted from the left without overlap, and text added after the body
    never lowers the count, so a body that passes still passes. *)
Theorem check_013_on_str (fm : dict) (body area : str) :
  get (u "area") fm = Some (PStr area) ->
  area <> [] ->
  check_013_area_frequency fm body =
    Ok (if 3 <=? count area body then (true, [])
        else (false, u "area '" ++ area ++ u "' count: " ++ str_of_nat (count area body))) /\
  (forall extra,
     count area body <= count area (body ++ extra) /\
     (check_013_area_frequency fm body = Ok (true, []) ->
      check_013_area_frequency fm (body ++ extra) = Ok (true, []))).
Proof.
  intros Hget Hne.
  assert (E : forall b, check_013_area_frequency fm b =
    Ok (if 3 <=? count area b then (true, [])
        else (false, u "area '" ++ area ++ u "' count: " ++ str_of_nat (count area b)))).
  { intros b. unfold check_013_area_frequency. rewrite Hget.
    destruct area as [|c t]; [contradiction|]. cbn [truthy_of str_eqb negb].
    now destruct (3 <=? count (c :: t) b). }
  split; [apply E|]. intros extra.
  assert (Hmono : count area body <= count area (body ++ extra)).
  { unfold count. destruct area as [|c t]; [contradiction|].
    apply count_from_app. discriminate. }
  split; [exact Hmono|]. rewrite !E.
  destruct (3 <=? count area body) eqn:E3; [|discriminate]. intros _.
  apply Nat.leb_le in E3.
  assert (E3' : (3 <=? count area (body ++ extra)) = true) by (apply Nat.leb_le; lia).
  now rewrite E3'.
Qed.

Lemma check_013_on_str_witness :
  check_013_area_frequency [(PStr (u "area"), PStr (u "渋谷"))] (u "渋谷の渋谷") =
    Ok (if 3 <=? count (u "渋谷") (u "渋谷の渋谷") then (true, [])
        else (false, u "area '" ++ u "渋谷" ++ u "' count: "
                       ++ str_of_nat (count (u "渋谷") (u "渋谷の渋谷")))) /\
  (forall extra,
     count (u "渋谷") (u "渋谷の渋谷") <= count (u "渋谷") (u "渋谷の渋谷" ++ extra) /\
     (check_013_area_frequency [(PStr (u "area"), PStr (u "渋谷"))] (u "渋谷の渋谷") = Ok (true, []) ->
      check_013_area_frequency [(PStr (u "area"), PStr (u "渋谷"))] (u "渋谷の渋谷" ++ extra)
        = Ok (true, []))).
Proof.
  apply check_013_on_str; [vm_compute; reflexivity|vm_compute; discriminate].
Defined.

Example check_013_counts :
  check_013_area_frequency [(PStr (u "area"), PStr (u "Shibuya"))]
    (u "Shibuya, Shibuya and Shibuya") = Ok (true, []) /\
  check_013_area_frequency [(PStr (u "area"), PStr (u "Shibuya"))]
    (u "Shibuya and Shibuya") = Ok (false, u "area 'Shibuya' count: 2") /\
  check_013_area_frequency [(PStr (u "area"), PStr (u "ああ"))]
    (u "あああああ") = Ok (false, u "area 'ああ' count: 2").
Proof. repeat split; vm_compute; reflexivity. Qed.

(** ** The date pattern and rule 002 *)

Lemma or_else_none (A : Type) (a : option A) : or_else a None = a.
Proof. now destruct a. Qed.

(** A repetition of exactly [n] characters of a class. *)
Lemma rep_exact (A : Type) (p : char -> bool) (k : cont A) (cap : option str) (n : nat) :
  forall (prev : option char) (s : str),
    rep true p n (Some n) k prev cap s =
    if (n <=? length s) && forallb p (firstn n s)
    then k (last_of prev (firstn n s)) cap (skipn n s)
    else None.
Proof.
  induction n as [|n IH]; intros prev s.
  - destruct s as [|c s]; cbn [rep Nat.eqb more andb]; [reflexivity|].
    now rewrite andb_false_r.
  - destruct s as [|c s]; cbn [rep Nat.eqb more dec option_map pred]; [reflexivity|].
    cbn [length Nat.leb firstn forallb skipn]. rewrite andb_true_r.
    destruct (p c); cbn [andb]; [|now rewrite andb_false_r].
    rewrite or_else_none, IH, last_of_cons. reflexivity.
Qed.

Lemma date_pattern_shape (rt : Runtime) (s : str) :
  match_start (DATE_PATTERN rt) s = date_shape rt s.
Proof.
  unfold match_start, match_at, DATE_PATTERN, date_shape. cbv zeta. cbn [matchk].
  rewrite rep_exact.
  destruct ((4 <=? length s) && forallb (isdecimal rt) (firstn 4 s)); [|reflexivity].
  cbn [andb]. destruct (startswith (u "-") (skipn 4 s)); [|reflexivity].
  change (length (u "-")) with 1. rewrite ?skipn_skipn. cbn [Nat.add andb].
  rewrite rep_exact.
  destruct ((2 <=? length (skipn 5 s)) && forallb (isdecimal rt) (firstn 2 (skipn 5 s)));
    [|reflexivity].
  cbn [andb]. rewrite ?skipn_skipn. cbn [Nat.add].
  destruct (startswith (u "-") (skipn 7 s)); [|reflexivity].
  rewrite ?skipn_skipn. cbn [Nat.add andb]. rewrite rep_exact.
  destruct ((2 <=? length (skipn 8 s)) && forallb (isdecimal rt) (firstn 2 (skipn 8 s)));
    [|reflexivity].
  cbn [andb]. rewrite ?skipn_skipn. cbn [Nat.add].
  destruct (skipn 10 s) as [|c [|c' t]]; cbn [is_empty str_eqb orb]; try reflexivity.
  - now destruct (char_eqb c NL).
  - now rewrite andb_false_r.
Qed.

(** X15: [DATE_PATTERN.match] accepts exactly the texts made of four
    digits, "-", two digits, "-", two digits, and, because of [$], the same
    followed by one newline; a digit is whatever [\d] accepts. *)
Theorem date_pattern_accepts_iff (rt : Runtime) (s : str) :
  match_start (DATE_PATTERN rt) s = true <->
  exists y m d tail,
    s = y ++ u "-" ++ m ++ u "-" ++ d ++ tail /\
    length y = 4 /\ length m = 2 /\ length d = 2 /\
    forallb (isdecimal rt) (y ++ m ++ d) = true /\
    (tail = [] \/ tail = [NL]).
Proof.
  rewrite date_pattern_shape. unfold date_shape. split.
  - intros H.
    destruct s as [|y1 [|y2 [|y3 [|y4 [|h1 [|m1 [|m2 [|h2 [|d1 [|d2 tail]]]]]]]]]];
      repeat rewrite andb_true_iff in H; decompose [and] H; clear H;
      change (u "-") with [45%N] in *;
      cbn [length Nat.leb skipn firstn startswith forallb] in *;
      try discriminate.
    repeat match goal with
           | H : _ && _ = true |- _ => apply andb_true_iff in H as [? ?]
           | H : char_eqb _ _ = true |- _ => apply char_eqb_eq in H
           end.
    subst. exists [y1; y2; y3; y4], [m1; m2], [d1; d2], tail.
    split; [reflexivity|]. do 3 (split; [reflexivity|]). split.
    + cbn [app forallb].
      repeat match goal with H : isdecimal rt _ = true |- _ => rewrite H; clear H end.
      reflexivity.
    + destruct tail as [|c [|c' t]]; cbn [is_empty str_eqb orb] in *.
      * now left.
      * right. f_equal. apply char_eqb_eq.
        match goal with H : char_eqb c NL && true = true |- _ =>
          now rewrite andb_true_r in H end.
      * match goal with H : char_eqb c NL && false = true |- _ =>
          now rewrite andb_false_r in H end.
  - intros (y & m & d & tail & -> & Hy & Hm & Hd & Hall & Htail).
    destruct y as [|y1 [|y2 [|y3 [|y4 [|]]]]]; try discriminate.
    destruct m as [|m1 [|m2 [|]]]; try discriminate.
    destruct d as [|d1 [|d2 [|]]]; try discriminate.
    cbn [app forallb] in Hall. change (u "-") with [45%N].
    cbn [app skipn firstn length forallb Nat.leb].
    repeat match goal with
           | H : _ && _ = true |- _ => apply andb_true_iff in H as [? ?]
           end.
    repeat match goal with H : isdecimal rt _ = true |- _ => rewrite H; clear H end.
    destruct Htail as [->| ->]; reflexivity.
Qed.

Lemma published_issue_nil (rt : Runtime) (fm : dict) :
  published_issue rt fm = Ok [] <->
  forall v, get (u "publishedAt") fm = Some v ->
            exists s, py_str rt v = Ok s /\ date_shape rt s = true.
Proof.
  unfold published_issue. destruct (get (u "publishedAt") fm) as [v|].
  - destruct (py_str rt v) as [s|e] eqn:Ep; cbn [bind].
    + rewrite date_pattern_shape. destruct (date_shape rt s) eqn:E; cbn [negb].
      * split; [|reflexivity]. intros _ v' Hv. injection Hv as <-. now exists s.
      * split; [discriminate|]. intros H. destruct (H v eq_refl) as (s' & Hs & Hd).
        rewrite Ep in Hs. injection Hs as <-. congruence.
    + split; [discriminate|]. intros H. destruct (H v eq_refl) as (s' & Hs & _).
      rewrite Ep in Hs. discriminate.
  - split; [|reflexivity]. intros _ v Hv. discriminate.
Qed.

(** X16: rule 002 raises only a ValueError, exactly when publishedAt is
    present and [str()] refuses it; otherwise it looks only at the fields that
    are present, and passes exactly when each of them is valid: title,
    description, area and keyword are strings that are not blank, publishedAt
    prints as a date accepted by [DATE_PATTERN], and keywords is a list that
    is not empty. *)
Theorem check_002_passes_iff (rt : Runtime) (fm : dict) :
  (forall x, check_002_frontmatter_types rt fm = Raise x <->
     x = ValueError /\
     exists v, get (u "publishedAt") fm = Some v /\ printable v = false) /\
  ((exists d, check_002_frontmatter_types rt fm = Ok (true, d)) <->
   (forall k v, In k [u "title"; u "description"; u "area"; u "keyword"] ->
                get k fm = Some v -> exists s, v = PStr s /\ strip s <> []) /\
   (forall v, get (u "publishedAt") fm = Some v ->
              exists s, py_str rt v = Ok s /\ date_shape rt s = true) /\
   (forall v, get (u "keywords") fm = Some v -> exists x items, v = PList (x :: items))).
Proof.
  assert (Hblank : forall v, empty_or_not_str v = false <-> exists s, v = PStr s /\ strip s <> []).
  { intros v. destruct v as [s| | | |]; cbn [empty_or_not_str];
      try (split; [discriminate|intros (s' & H & _); discriminate]).
    destruct (strip s) eqn:E; cbn [is_empty]; split; try discriminate.
    - intros (s' & H & Hne). injection H as <-. now rewrite E in Hne.
    - intros _. exists s. rewrite E. split; [reflexivity|discriminate].
    - reflexivity. }
  assert (Hissue : forall k bad msg,
            issue_if fm k bad msg = [] <-> (forall v, get k fm = Some v -> bad v = false)).
  { intros k bad msg. unfold issue_if. destruct (get k fm) as [v|].
    - destruct (bad v) eqn:E; split; try discriminate.
      + intros H. specialize (H v eq_refl). congruence.
      + intros _ v' H. now injection H as <-.
      + reflexivity.
    - split; [intros _ v H; discriminate|reflexivity]. }
  split.
  - intros x. destruct (published_printable_dec fm) as [Hd|Hd].
    + destruct (@check_002_total rt fm Hd) as [r ->]. split; [discriminate|].
      intros (_ & v & Hg & Hv). unfold published_printable in Hd. rewrite Hg in Hd. congruence.
    + rewrite (@check_002_raises rt fm Hd). split.
      * intros H. injection H as <-. split; [reflexivity|].
        unfold published_printable in Hd. destruct (get (u "publishedAt") fm) as [v|]; [|tauto].
        exists v. split; [reflexivity|]. now destruct (printable v).
      * now intros [-> _].
  - rewrite <- published_issue_nil. unfold check_002_frontmatter_types. cbv zeta.
    set (i1 := issue_if fm (u "title") _ _). set (i2 := issue_if fm (u "description") _ _).
    set (i4 := issue_if fm (u "area") _ _).
    set (i5 := issue_if fm (u "keyword") _ _). set (i6 := issue_if fm (u "keywords") _ _).
    assert (E : forall i3,
               (exists d, (if negb (is_empty ((i1 ++ i2) ++ i3 ++ i4 ++ i5 ++ i6))
                           then Ok (false, join (u "; ") ((i1 ++ i2) ++ i3 ++ i4 ++ i5 ++ i6))
                           else Ok (true, [])) = Ok (true, d)) <->
               i1 = [] /\ i2 = [] /\ i3 = [] /\ i4 = [] /\ i5 = [] /\ i6 = []).
    { intros i3. destruct ((i1 ++ i2) ++ i3 ++ i4 ++ i5 ++ i6) eqn:Ei; cbn [is_empty negb].
      - apply app_eq_nil in Ei as [E12 Ei]. apply app_eq_nil in E12 as [? ?].
        repeat (apply app_eq_nil in Ei as [? Ei]). split; [tauto|]. intros _. now exists [].
      - split; [intros [d H]; discriminate|].
        intros (-> & -> & -> & -> & -> & ->). discriminate. }
    destruct (published_issue rt fm) as [i3|e]; cbn [bind].
    + rewrite E. subst i1 i2 i4 i5 i6. rewrite !Hissue. clear E Hissue.
      split.
      * intros (H1 & H2 & H3 & H4 & H5 & H6). split; [|split].
        -- intros k v [<-|[<-|[<-|[<-|[]]]]] Hg; apply Hblank; eauto.
        -- now rewrite H3.
        -- intros v Hg. specialize (H6 v Hg). destruct v as [|[|x items]| | |]; try discriminate.
           now exists x, items.
      * intros (Hs & Hd & Hk). injection Hd as ->. repeat split; intros v Hg.
        -- apply Hblank. apply (Hs (u "title")); [now left|exact Hg].
        -- apply Hblank. apply (Hs (u "description")); [right; now left|exact Hg].
        -- apply Hblank. apply (Hs (u "area")); [right; right; now left|exact Hg].
        -- apply Hblank. apply (Hs (u "keyword")); [right; right; right; now left|exact Hg].
        -- destruct (Hk v Hg) as (x & items & ->). reflexivity.
    + split; [intros [d H]; discriminate|]. intros (_ & H & _). discriminate.
Qed.

(** A date that YAML loaded as a date object prints as one, a text with a
    slash does not pass, a missing field is not an issue here, and an int
    too long to print is an exception, not an issue. *)
Example check_002_examples :
  let rt := runtime_with (fun _ => YAMLError) in
  check_002_frontmatter_types rt
    [(PStr (u "title"), PStr (u "t")); (PStr (u "publishedAt"), PAtom true (u "2024-01-15"))]
    = Ok (true, []) /\
  check_002_frontmatter_types rt
    [(PStr (u "title"), PStr (u "  ")); (PStr (u "publishedAt"), PStr (u "2024/01/15"));
     (PStr (u "keywords"), PList [])]
    = Ok (false, u "title empty or not string; publishedAt format: 2024/01/15; keywords not array or empty") /\
  check_002_frontmatter_types rt
    [(PStr (u "title"), PStr (u "  ")); (PStr (u "publishedAt"), PList [PBigInt])]
    = Raise ValueError.
Proof. split; [|split]; vm_compute; reflexivity. Qed.

(** ** strip_html_tags *)

Lemma gt_not_start (c : char) (t : str) :
  not_c (ch ">") c = true -> startswith (u ">") (c :: t) = false.
Proof.
  intros Hc. change (u ">") with [ch ">"]. cbn [startswith].
  unfold not_c in Hc. apply negb_true_iff in Hc.
  replace (char_eqb (ch ">") c) with (char_eqb c (ch ">")) by apply N.eqb_sym.
  now rewrite Hc.
Qed.

Lemma match_at_tag_eq (prev : option char) (s : str) :
  match_at TAG prev s =
  if tag_here s
  then Some (2 + length (takewhile (not_c (ch ">")) (tl s)), None)
  else None.
Proof.
  unfold match_at, TAG, plus, tag_here. cbn [matchk].
  destruct s as [|c t]; [reflexivity|].
  change (u "<") with [ch "<"]. cbn [startswith length skipn tl].
  rewrite andb_true_r.
  replace (char_eqb (ch "<") c) with (char_eqb c (ch "<")) by apply N.eqb_sym.
  destruct (char_eqb c (ch "<")); [|reflexivity]. cbn [andb].
  change (length (u ">")) with 1.
  rewrite rep_greedy_eq
    by (left; intros pv x r Hx; cbv beta; now rewrite (@gt_not_start x r Hx)).
  destruct (1 <=? length (takewhile (not_c (ch ">")) t)); [|reflexivity]. cbn [andb].
  destruct (startswith (u ">") (dropwhile (not_c (ch ">")) t)) eqn:Es; [|reflexivity].
  do 2 f_equal.
  apply startswith_skipn in Es. change (length (u ">")) with 1 in Es.
  assert (L := f_equal (@length _) (takewhile_dropwhile (not_c (ch ">")) t)).
  rewrite Es in L. rewrite !length_app in L. change (length (u ">")) with 1 in L. lia.
Qed.

Lemma match_at_tag (prev : option char) (s : str) :
  is_some (match_at TAG prev s) = tag_here s.
Proof. rewrite match_at_tag_eq. now destruct (tag_here s). Qed.

Lemma sub_from_forall (P : char -> Prop) (r : regex) (s : str) :
  forall skip prev,
    Forall P s -> Forall P (sub_from r (replace_with []) skip prev s).
Proof.
  induction s as [|c s IH]; intros skip prev Hall.
  - destruct skip; cbn [sub_from]; [|constructor].
    destruct (match_at r prev []) as [[n cap]|]; constructor.
  - inversion Hall as [|? ? Hc Hs]; subst.
    destruct skip as [|skip]; cbn [sub_from]; [|now apply IH].
    destruct (match_at r prev (c :: s)) as [[n cap]|]; cbn [replace_with app].
    + destruct (n =? 0); cbn [app]; [constructor; [exact Hc|]|]; now apply IH.
    + constructor; [exact Hc|now apply IH].
Qed.

Lemma dropwhile_all (p : char -> bool) (s : str) :
  Forall (fun c => p c = true) s -> dropwhile p s = [].
Proof.
  induction 1 as [|c s Hc _ IH]; cbn [dropwhile]; [reflexivity|]. now rewrite Hc.
Qed.

Lemma dropwhile_head (p : char -> bool) (s : str) (x : char) (t : str) :
  dropwhile p s = x :: t -> p x = false.
Proof.
  induction s as [|c s IH]; cbn [dropwhile]; [discriminate|].
  destruct (p c) eqn:E; [exact IH|]. intros H. injection H as <- _. exact E.
Qed.

Lemma dropwhile_nil_all (p : char -> bool) (s : str) :
  dropwhile p s = [] -> Forall (fun c => p c = true) s.
Proof.
  induction s as [|c s IH]; cbn [dropwhile]; [constructor|].
  destruct (p c) eqn:E; [|discriminate]. intros H. constructor; [exact E|now apply IH].
Qed.

Lemma sub_from_tag_free (s : str) :
  forall skip prev a b,
    sub_from TAG (replace_with []) skip prev s = a ++ b -> tag_here b = false.
Proof.
  induction s as [|c s IH]; intros skip prev a b Hout.
  - assert (E : sub_from TAG (replace_with []) skip prev [] = []).
    { destruct skip; cbn [sub_from]; [|reflexivity].
      assert (M := match_at_tag prev []). now destruct (match_at TAG prev []). }
    rewrite E in Hout. symmetry in Hout. apply app_eq_nil in Hout as [_ ->]. reflexivity.
  - destruct skip as [|skip]; cbn [sub_from] in Hout; [|exact (IH _ _ _ _ Hout)].
    assert (M := match_at_tag prev (c :: s)).
    destruct (match_at TAG prev (c :: s)) as [[n cap]|] eqn:Em; cbn [is_some] in M.
    + assert (Hn : (n =? 0) = false).
      { rewrite match_at_tag_eq in Em. destruct (tag_here (c :: s)); [|discriminate].
        injection Em as <- _. reflexivity. }
      rewrite Hn in Hout. cbn [replace_with app] in Hout. exact (IH _ _ _ _ Hout).
    + destruct a as [|x a].
      * cbn [app] in Hout. subst b. cbn [tag_here] in *.
        destruct (char_eqb c (ch "<")); [|reflexivity]. cbn [andb] in *.
        set (out := sub_from TAG (replace_with []) 0 (Some c) s).
        destruct (dropwhile (not_c (ch ">")) s) as [|x t] eqn:Ed.
        -- rewrite (@dropwhile_all (not_c (ch ">")) out); [apply andb_false_r|].
           apply sub_from_forall. now apply dropwhile_nil_all.
        -- destruct s as [|y s']; [discriminate|].
           destruct (not_c (ch ">") y) eqn:Ey.
           ++ cbn [takewhile] in M. rewrite Ey in M. cbn [length Nat.leb andb] in M.
              assert (Hx := dropwhile_head _ _ Ed). unfold not_c in Hx.
              apply negb_false_iff, char_eqb_eq in Hx. subst x.
              change (u ">") with [ch ">"] in M. cbn [startswith] in M.
              rewrite char_eqb_refl in M. discriminate.
           ++ subst out. cbn [sub_from].
              assert (M' := match_at_tag (Some c) (y :: s')).
              destruct (match_at TAG (Some c) (y :: s')) as [[n' cap']|]; cbn [is_some] in M'.
              { cbn [tag_here] in M'. unfold not_c in Ey. apply negb_false_iff in Ey.
                apply char_eqb_eq in Ey. subst y. discriminate. }
              cbn [takewhile]. now rewrite Ey.
      * cbn [app] in Hout. injection Hout as _ Hout. exact (IH _ _ _ _ Hout).
Qed.

Lemma sub_from_no_match (r : regex) (repl : option str -> str) (s : str) :
  forall prev,
    (forall a b, s = a ++ b -> match_at r (last_of prev a) b = None) ->
    sub_from r repl 0 prev s = s.
Proof.
  induction s as [|c s IH]; intros prev H; cbn [sub_from].
  - assert (H0 := H [] [] eq_refl). change (last_of prev []) with prev in H0.
    now rewrite H0.
  - assert (H0 := H [] (c :: s) eq_refl). change (last_of prev []) with prev in H0.
    rewrite H0. f_equal. apply IH.
    intros a b E. rewrite <- (last_of_cons prev). apply H. now rewrite E.
Qed.

Lemma sub_from_shorter (r : regex) (s : str) :
  forall skip prev, length (sub_from r (replace_with []) skip prev s) <= length s.
Proof.
  induction s as [|c s IH]; intros skip prev.
  - destruct skip; cbn [sub_from]; [|cbn; lia].
    destruct (match_at r prev []) as [[n cap]|]; cbn; lia.
  - destruct skip as [|skip]; cbn [sub_from].
    + destruct (match_at r prev (c :: s)) as [[n cap]|]; cbn [replace_with app].
      * destruct (n =? 0); cbn [app length]; specialize (IH (n - 1) (Some c)); lia.
      * cbn [length]. specialize (IH 0 (Some c)). lia.
    + cbn [length]. specialize (IH skip (Some c)). lia.
Qed.

(** X17: what [strip_html_tags] returns holds no tag any more, wherever
    one looks in it, so stripping twice is the same as stripping once; and it
    never adds a character: the result is made of characters of the text. *)
Theorem strip_html_tags_leaves_no_tag (text : str) :
  (forall a b, strip_html_tags text = a ++ b -> tag_here b = false) /\
  strip_html_tags (strip_html_tags text) = strip_html_tags text /\
  (forall c, In c (strip_html_tags text) -> In c text) /\
  length (strip_html_tags text) <= length text.
Proof.
  assert (Hfree : forall a b, strip_html_tags text = a ++ b -> tag_here b = false).
  { intros a b. apply sub_from_tag_free. }
  split; [exact Hfree|]. split; [|split].
  - unfold strip_html_tags at 1. unfold sub. apply sub_from_no_match.
    intros a b E. assert (M := match_at_tag (last_of None a) b).
    rewrite (Hfree a b E) in M. now destruct (match_at TAG (last_of None a) b).
  - intros c Hin.
    assert (Hall : Forall (fun x => In x text) (strip_html_tags text)).
    { apply sub_from_forall. apply Forall_forall. auto. }
    exact (proj1 (Forall_forall _ _) Hall c Hin).
  - apply sub_from_shorter.
Qed.

Example strip_html_tags_examples :
  strip_html_tags (u "a<b>c<>d<<e>f<g") = u "ac<>df<g" /\
  strip_html_tags (u "<p class='x'>本文</p>") = u "本文" /\
  strip_html_tags (u "1 < 2 and 3 > 2") = u "1  2".
Proof. repeat split; vm_compute; reflexivity. Qed.

(** ** The links of count_japanese_chars *)

Lemma not_c_blocks (a c : char) (t : str) :
  not_c a c = true -> startswith [a] (c :: t) = false.
Proof.
  intros Hc. cbn [startswith]. unfold not_c in Hc. apply negb_true_iff in Hc.
  replace (char_eqb a c) with (char_eqb c a) by apply N.eqb_sym. now rewrite Hc.
Qed.

Lemma firstn_takewhile (p : char -> bool) (t : str) :
  firstn (length t - length (dropwhile p t)) t = takewhile p t.
Proof.
  assert (E := takewhile_dropwhile p t).
  assert (L := f_equal (@length _) E). rewrite length_app in L.
  replace (length t - length (dropwhile p t)) with (length (takewhile p t)) by lia.
  rewrite <- E at 2. now rewrite firstn_app, firstn_all, Nat.sub_diag, app_nil_r.
Qed.

Lemma match_at_md_link (prev : option char) (s : str) :
  match_at MD_LINK prev s = link_match s.
Proof.
  unfold match_at, MD_LINK, star, link_match. cbn [matchk]. cbv zeta.
  fold not_rbracket. fold not_rparen.
  destruct (startswith (u "[") s); [|reflexivity].
  change (length (u "[")) with 1. change (length (u "]")) with 1.
  change (length (u "(")) with 1. change (length (u ")")) with 1.
  rewrite rep_greedy_eq.
  2:{ left. intros pv c t Hc. cbv beta.
      change (u "]") with [ch "]"]. now rewrite (@not_c_blocks (ch "]") c t Hc). }
  cbn [Nat.leb]. rewrite firstn_takewhile.
  destruct (startswith (u "]") (dropwhile not_rbracket (skipn 1 s))); [|reflexivity].
  destruct (startswith (u "(") (skipn 1 (dropwhile not_rbracket (skipn 1 s)))); [|reflexivity].
  rewrite rep_greedy_eq.
  2:{ left. intros pv c t Hc. cbv beta.
      change (u ")") with [ch ")"]. now rewrite (@not_c_blocks (ch ")") c t Hc). }
  cbn [Nat.leb]. reflexivity.
Qed.

Lemma takewhile_app_stop (p : char -> bool) (t : str) (c : char) (rest : str) :
  Forall (fun x => p x = true) t -> p c = false ->
  takewhile p (t ++ c :: rest) = t /\ dropwhile p (t ++ c :: rest) = c :: rest.
Proof.
  intros Ht Hc. induction Ht as [|x t Hx _ IH]; cbn [app takewhile dropwhile].
  - now rewrite Hc.
  - rewrite Hx. destruct IH as [-> ->]. now split.
Qed.

Lemma link_match_link (t url rest : str) :
  Forall (fun x => x <> ch "]") t -> Forall (fun x => x <> ch ")") url ->
  link_match (u "[" ++ t ++ u "](" ++ url ++ u ")" ++ rest) =
  Some (length t + length url + 4, Some t).
Proof.
  intros Ht Hu. unfold link_match.
  change (u "[") with [ch "["]. change (u "](") with [ch "]"; ch "("].
  change (u ")") with [ch ")"]. change (u "]") with [ch "]"]. change (u "(") with [ch "("].
  cbn [app startswith skipn]. rewrite char_eqb_refl. cbn [andb].
  assert (Ht' : Forall (fun x => not_rbracket x = true) t).
  { eapply Forall_impl; [|exact Ht]. intros x Hx. unfold not_rbracket, not_c.
    apply negb_true_iff. now apply char_eqb_neq. }
  assert (Hu' : Forall (fun x => not_rparen x = true) url).
  { eapply Forall_impl; [|exact Hu]. intros x Hx. unfold not_rparen, not_c.
    apply negb_true_iff. now apply char_eqb_neq. }
  destruct (@takewhile_app_stop not_rbracket t (ch "]") (ch "(" :: url ++ ch ")" :: rest) Ht'
              eq_refl) as [E1 E2].
  rewrite E1, E2. cbn [startswith skipn]. rewrite !char_eqb_refl. cbn [andb].
  destruct (@takewhile_app_stop not_rparen url (ch ")") rest Hu' eq_refl) as [E3 E4].
  rewrite E4. cbn [startswith skipn]. rewrite char_eqb_refl. cbn [andb].
  do 2 f_equal. cbn [length]. rewrite !length_app. cbn [length]. rewrite !length_app.
  cbn [length]. lia.
Qed.

Lemma sub_from_skip (r : regex) (repl : option str -> str) (x : str) :
  forall prev b,
    sub_from r repl (length x) prev (x ++ b) = sub_from r repl 0 (last_of prev x) b.
Proof.
  induction x as [|c x IH]; intros prev b; [reflexivity|].
  change (sub_from r repl (length x) (Some c) (x ++ b)
          = sub_from r repl 0 (last_of prev (c :: x)) b).
  rewrite last_of_cons. apply IH.
Qed.

Lemma sub_link_prev (s : str) :
  forall skip prev prev',
    sub_from MD_LINK group1 skip prev s = sub_from MD_LINK group1 skip prev' s.
Proof.
  induction s as [|c s IH]; intros skip prev prev'.
  - destruct skip; cbn [sub_from]; [|reflexivity]. now rewrite !match_at_md_link.
  - destruct skip as [|skip]; cbn [sub_from]; [|reflexivity]. now rewrite !match_at_md_link.
Qed.

Lemma sub_link_plain (a : str) :
  Forall (fun x => x <> ch "[") a ->
  forall prev s, sub_from MD_LINK group1 0 prev (a ++ s) = a ++ sub MD_LINK group1 s.
Proof.
  induction 1 as [|c a Hc _ IH]; intros prev s.
  - apply sub_link_prev.
  - cbn [app sub_from]. rewrite match_at_md_link. unfold link_match.
    change (u "[") with [ch "["]. cbn [startswith].
    replace (char_eqb (ch "[") c) with (char_eqb c (ch "[")) by apply N.eqb_sym.
    rewrite (proj2 (char_eqb_neq c (ch "[")) Hc). cbn [andb]. f_equal. apply IH.
Qed.

(** X18: the link step of [count_japanese_chars] keeps the text of a link
    and drops the rest: plain text without "[" before a link
    [[text](url)] stays, the link becomes its text, and what follows is
    treated the same way. *)
Theorem collapse_link (before text url rest : str) :
  Forall (fun x => x <> ch "[") before ->
  Forall (fun x => x <> ch "]") text ->
  Forall (fun x => x <> ch ")") url ->
  sub MD_LINK group1 (before ++ u "[" ++ text ++ u "](" ++ url ++ u ")" ++ rest) =
  before ++ text ++ sub MD_LINK group1 rest.
Proof.
  intros Hb Ht Hu. unfold sub at 1. rewrite sub_link_plain by exact Hb. f_equal.
  unfold sub at 1.
  set (tail := text ++ u "](" ++ url ++ u ")").
  assert (Hm := link_match_link rest Ht Hu).
  change (u "[") with [ch "["] in *. cbn [app] in *. cbn [sub_from].
  rewrite match_at_md_link, Hm. cbn [group1].
  replace (length text + length url + 4 =? 0) with false
    by (symmetry; apply Nat.eqb_neq; lia).
  cbn [app]. f_equal.
  replace (length text + length url + 4 - 1) with (length tail)
    by (unfold tail; rewrite !length_app; change (length (u "](")) with 2;
        change (length (u ")")) with 1; lia).
  replace (text ++ u "](" ++ url ++ u ")" ++ rest) with (tail ++ rest)
    by (unfold tail; now rewrite <- !app_assoc).
  rewrite sub_from_skip. apply sub_link_prev.
Qed.

Lemma collapse_link_witness :
  sub MD_LINK group1
    (u "詳細は" ++ u "[" ++ u "公式サイト" ++ u "](" ++ u "https://example.com/a?b=1" ++ u ")"
       ++ u "へ") =
  u "詳細は" ++ u "公式サイト" ++ sub MD_LINK group1 (u "へ").
Proof.
  apply collapse_link; vm_compute; repeat constructor; discriminate.
Defined.

(** ** Patterns that match whole lines *)

Lemma join_split (sep : char) (s : str) : join [sep] (split sep s) = s.
Proof.
  induction s as [|c s IH]; [reflexivity|]. cbn [split].
  destruct (char_eqb c sep) eqn:E.
  - apply char_eqb_eq in E. subst c.
    destruct (split sep s) as [|w ws] eqn:Es; [now apply split_not_nil in Es|].
    change (join [sep] ([] :: w :: ws)) with (sep :: join [sep] (w :: ws)). now rewrite IH.
  - destruct (split sep s) as [|w ws] eqn:Es; [now apply split_not_nil in Es|].
    destruct ws as [|w2 ws].
    + cbn [join] in *. now rewrite IH.
    + change (join [sep] ((c :: w) :: w2 :: ws)) with (c :: join [sep] (w :: w2 :: ws)).
      now rewrite IH.
Qed.

Lemma split_lines_free (sep : char) (s : str) :
  Forall (fun l => ~ In sep l) (split sep s).
Proof.
  induction s as [|c s IH]; cbn [split].
  - constructor; [intros []|constructor].
  - destruct (char_eqb c sep) eqn:E.
    + constructor; [intros []|exact IH].
    + destruct (split sep s) as [|w ws]; [repeat constructor|].
      * intros [H|[]]. apply char_eqb_neq in E. congruence.
      * inversion IH as [|? ? Hw Hws]; subst. constructor; [|exact Hws].
        intros [H|H]; [|now apply Hw]. apply char_eqb_neq in E. congruence.
Qed.

Section LinePattern.

Variable r : regex.
Variable ok : str -> bool.

(** The pattern matches nowhere inside a line, and at the start of a line
    it matches the whole line or nothing, as [ok] decides. *)
Hypothesis inside_none :
  forall c s, c <> NL -> match_at r (Some c) s = None.
Hypothesis start_line :
  forall prev l tail,
    prev = None \/ prev = Some NL ->
    ~ In NL l ->
    tail = [] \/ (exists rest, tail = NL :: rest) ->
    match_at r prev (l ++ tail) = if ok l then Some (length l, None) else None.
Hypothesis ok_nil : ok [] = false.

Lemma finditer_inside (l : str) (rest_of : list (str * option str)) (tail : str) :
  ~ In NL l ->
  (tail = [] /\ rest_of = [] \/
   exists rest, tail = NL :: rest /\ rest_of = finditer r 0 (Some NL) rest) ->
  forall skip prev,
    skip <= length l ->
    (skip = 0 -> exists c, prev = Some c /\ c <> NL) ->
    finditer r skip prev (l ++ tail) = rest_of.
Proof.
  intros Hl Htail. induction l as [|x l IH]; intros skip prev Hskip Hprev.
  - assert (skip = 0) by (cbn [length] in Hskip; lia). subst skip.
    destruct (Hprev eq_refl) as (c & -> & Hc).
    destruct Htail as [[-> ->]|(rest & -> & ->)]; cbn [app finditer];
      rewrite inside_none by exact Hc; reflexivity.
  - assert (Hx : x <> NL) by (intros ->; apply Hl; now left).
    assert (Hl' : ~ In NL l) by (intros H; apply Hl; now right).
    destruct skip as [|skip]; cbn [app finditer].
    + destruct (Hprev eq_refl) as (c & -> & Hc). rewrite inside_none by exact Hc.
      apply (IH Hl'); [lia|]. intros _. now exists x.
    + apply (IH Hl'); [cbn [length] in Hskip; lia|]. intros _. now exists x.
Qed.

Lemma finditer_lines (lines : list str) :
  lines <> [] ->
  Forall (fun l => ~ In NL l) lines ->
  forall prev,
    prev = None \/ prev = Some NL ->
    map fst (finditer r 0 prev (join [NL] lines)) = filter ok lines.
Proof.
  induction lines as [|l ls IH]; intros Hne Hfree prev Hprev; [contradiction|].
  inversion Hfree as [|? ? Hl Hls]; subst.
  assert (Hstep : forall tail rest_of,
            (tail = [] /\ rest_of = [] \/
             exists rest, tail = NL :: rest /\ rest_of = finditer r 0 (Some NL) rest) ->
            map fst (finditer r 0 prev (l ++ tail)) =
            (if ok l then [l] else []) ++ map fst rest_of).
  { intros tail rest_of Htail.
    assert (Htail' : tail = [] \/ (exists rest, tail = NL :: rest)).
    { destruct Htail as [[-> _]|(rest & -> & _)]; [now left|right; now exists rest]. }
    assert (Hm : match_at r prev (l ++ tail) = if ok l then Some (length l, None) else None)
      by (apply start_line; assumption).
    destruct l as [|x l'].
    - rewrite ok_nil in *. cbn [app] in *.
      destruct Htail as [[-> ->]|(rest & -> & ->)]; cbn [finditer]; rewrite Hm; reflexivity.
    - cbn [app finditer] in *. rewrite Hm.
      assert (Hx : x <> NL) by (intros ->; apply Hl; now left).
      assert (Hl' : ~ In NL l') by (intros H; apply Hl; now right).
      destruct (ok (x :: l')).
      + cbn [map fst app]. f_equal.
        * change (x :: firstn (length l') (l' ++ tail)) with
            (x :: firstn (length l') (l' ++ tail)).
          cbn [length firstn]. now rewrite firstn_app, firstn_all, Nat.sub_diag, app_nil_r.
        * f_equal. replace (length (x :: l') - 1) with (length l') by (cbn [length]; lia).
          apply (@finditer_inside l' rest_of tail Hl' Htail); [lia|]. intros _. now exists x.
      + cbn [app]. f_equal.
        apply (@finditer_inside l' rest_of tail Hl' Htail); [lia|]. intros _. now exists x. }
  destruct ls as [|l2 ls].
  - cbn [join filter]. rewrite <- (app_nil_r l) at 1.
    rewrite (Hstep [] []) by (now left). cbn [map]. rewrite app_nil_r.
    now destruct (ok l).
  - change (join [NL] (l :: l2 :: ls)) with (l ++ NL :: join [NL] (l2 :: ls)).
    rewrite (Hstep (NL :: join [NL] (l2 :: ls)) (finditer r 0 (Some NL) (join [NL] (l2 :: ls))))
      by (right; now eexists).
    rewrite (IH ltac:(discriminate) Hls (Some NL)) by (now right).
    cbn [filter]. now destruct (ok l).
Qed.

Lemma findall_lines (s : str) : findall r s = filter ok (split NL s).
Proof.
  unfold findall. rewrite <- (join_split NL s) at 1.
  apply finditer_lines; [apply split_not_nil|apply split_lines_free|now left].
Qed.

End LinePattern.

(** ** Rule 006 *)

Lemma line_rest (m tail : str) :
  ~ In NL m ->
  tail = [] \/ (exists rest, tail = NL :: rest) ->
  takewhile dot (m ++ tail) = m /\ dropwhile dot (m ++ tail) = tail.
Proof.
  intros Hm Htail.
  assert (Hall : Forall (fun x => dot x = true) m).
  { apply Forall_forall. intros x Hx. unfold dot, not_c. apply negb_true_iff.
    apply char_eqb_neq. intros ->. contradiction. }
  destruct Htail as [->|(rest & ->)].
  - rewrite app_nil_r. split; [|now apply dropwhile_all].
    assert (E := takewhile_dropwhile dot m). rewrite (@dropwhile_all dot m Hall) in E.
    now rewrite app_nil_r in E.
  - now apply takewhile_app_stop.
Qed.

Lemma startswith_line (w l tail : str) :
  ~ In NL w ->
  tail = [] \/ (exists rest, tail = NL :: rest) ->
  startswith w (l ++ tail) = startswith w l.
Proof.
  intros Hw [->|(rest & ->)]; [now rewrite app_nil_r|].
  destruct (startswith w l) eqn:E.
  - now apply startswith_extend.
  - destruct (startswith w (l ++ NL :: rest)) eqn:E'; [|reflexivity].
    rewrite (@startswith_before_sep NL w Hw l rest E') in E. discriminate.
Qed.

Lemma bol_inside (r : regex) (c : char) (s : str) :
  c <> NL -> match_at (Cat (Bol true) r) (Some c) s = None.
Proof.
  intros Hc. unfold match_at. cbn [matchk andb].
  now rewrite (proj2 (char_eqb_neq c NL) Hc).
Qed.

Lemma bol_start (r : regex) (prev : option char) (s : str) :
  prev = None \/ prev = Some NL ->
  match_at (Cat (Bol true) r) prev s =
  matchk r (fun _ cap s' => Some (length s - length s', cap)) prev None s.
Proof.
  intros [->| ->]; unfold match_at; cbn [matchk andb]; [reflexivity|].
  now rewrite char_eqb_refl.
Qed.

Lemma h2_start_line (prev : option char) (l tail : str) :
  prev = None \/ prev = Some NL ->
  ~ In NL l ->
  tail = [] \/ (exists rest, tail = NL :: rest) ->
  match_at H2_LINE prev (l ++ tail) = if h2_ok l then Some (length l, None) else None.
Proof.
  intros Hprev Hl Htail. unfold H2_LINE, h2_ok. rewrite bol_start by exact Hprev.
  unfold plus. cbn [matchk].
  rewrite (@startswith_line (u "## ") l tail) by
    (try exact Htail; vm_compute; intuition discriminate).
  destruct (startswith (u "## ") l) eqn:Es; [|reflexivity]. cbn [andb].
  apply startswith_skipn in Es. change (length (u "## ")) with 3 in *.
  set (m := skipn 3 l) in *.
  assert (Hm : ~ In NL m).
  { intros H. apply Hl. rewrite Es. apply in_or_app. now right. }
  assert (Hskip : skipn 3 (l ++ tail) = m ++ tail).
  { rewrite Es at 1. rewrite <- app_assoc. reflexivity. }
  rewrite Hskip. destruct (@line_rest m tail Hm Htail) as [Et Ed].
  rewrite rep_greedy_eq by (right; cbv beta; discriminate).
  rewrite Et, Ed. destruct (1 <=? length m); [|reflexivity].
  do 2 f_equal. rewrite length_app. lia.
Qed.

Lemma findall_h2_lines (body : str) :
  findall H2_LINE body = filter h2_ok (split NL body).
Proof.
  apply findall_lines.
  - intros c s Hc. now apply bol_inside.
  - intros prev l tail. apply h2_start_line.
  - reflexivity.
Qed.

(** X19: rule 006 counts the lines that start with "## " and go on for at
    least one more character, and passes exactly when there are 5 of them.
    Every such line opens a section, so there are at least as many sections
    as counted headings; a line that is just "## " opens a section without
    being counted. *)
Theorem check_006_counts_lines (body : str) :
  findall H2_LINE body = filter h2_ok (split NL body) /\
  (fst (check_006_h2_count body) = true <->
   length (filter h2_ok (split NL body)) = 5) /\
  length (filter h2_ok (split NL body)) <= length (find_h2_sections body).
Proof.
  split; [apply findall_h2_lines|]. split.
  - unfold check_006_h2_count. rewrite findall_h2_lines.
    destruct (length (filter h2_ok (split NL body)) =? 5) eqn:E; cbn [fst].
    + apply Nat.eqb_eq in E. tauto.
    + apply Nat.eqb_neq in E. split; [discriminate|contradiction].
  - unfold find_h2_sections. rewrite <- (length_map fst), h2_loop_headings. cbn [map app].
    induction (split NL body) as [|l ls IH]; cbn [filter]; [lia|].
    unfold h2_ok at 1. destruct (startswith (u "## ") l); cbn [andb length].
    + destruct (1 <=? length (skipn 3 l)); cbn [length]; lia.
    + exact IH.
Qed.

Example check_006_examples :
  check_006_h2_count (u "## a
## b
## 
### c
 ## d
## e") = (false, u "H2 count: 3") /\
  length (find_h2_sections (u "## a
## b
## 
### c
 ## d
## e")) = 4.
Proof. split; vm_compute; reflexivity. Qed.

(** ** The questions of rule 007 *)

Lemma rep_zero (A : Type) (p : char -> bool) (k : cont A) (prev : option char)
    (cap : option str) (s : str) :
  rep true p 0 (Some 0) k prev cap s = k prev cap s.
Proof.
  destruct s as [|c s]; cbn [rep Nat.eqb more]; [reflexivity|]. now rewrite andb_false_r.
Qed.

Lemma rep_3_4 (A : Type) (p : char -> bool) (k : cont A) (prev : option char)
    (cap : option str) (s : str) :
  rep true p 3 (Some 4) k prev cap s =
  match s with
  | a :: b :: c :: rest =>
      if p a && p b && p c then
        match rest with
        | [] => k (Some c) cap []
        | d :: rest' =>
            if p d then or_else (k (Some d) cap rest') (k (Some c) cap rest)
            else k (Some c) cap rest
        end
      else None
  | _ => None
  end.
Proof.
  destruct s as [|a [|b [|c [|d rest']]]];
    cbn [rep Nat.eqb more dec option_map pred andb];
    rewrite ?rep_zero;
    repeat match goal with
           | |- context [p ?x] => destruct (p x)
           end;
    cbn [andb or_else]; rewrite ?or_else_none; reflexivity.
Qed.

(** What follows the hashes of a heading: a space and the rest of the line. *)
Lemma heading_rest (total : nat) (pv : option char) (x tail : str) :
  ~ In NL x ->
  tail = [] \/ (exists rest, tail = NL :: rest) ->
  (if startswith (u " ") (x ++ tail)
   then rep true dot 1 None (fun _ cap s' => Some (total - length s', cap))
          (last_of pv (u " ")) None (skipn 1 (x ++ tail))
   else None) =
  if startswith (u " ") x && (1 <=? length (skipn 1 x))
  then Some (total - length tail, @None str)
  else None.
Proof.
  intros Hx Htail.
  rewrite (@startswith_line (u " ") x tail) by
    (try exact Htail; vm_compute; intuition discriminate).
  destruct (startswith (u " ") x) eqn:Es; [|reflexivity]. cbn [andb].
  apply startswith_skipn in Es. change (length (u " ")) with 1 in Es.
  set (m := skipn 1 x) in *.
  assert (Hm : ~ In NL m).
  { intros H. apply Hx. rewrite Es. apply in_or_app. now right. }
  assert (Hskip : skipn 1 (x ++ tail) = m ++ tail).
  { rewrite Es at 1. rewrite <- app_assoc. reflexivity. }
  rewrite Hskip. destruct (@line_rest m tail Hm Htail) as [Et Ed].
  rewrite rep_greedy_eq by (right; cbv beta; discriminate).
  rewrite Et, Ed. now destruct (1 <=? length m).
Qed.

Lemma hash_blocks (total : nat) (pv : option char) (d : char) (t : str) :
  is_c (ch "#") d = true ->
  (if startswith (u " ") (d :: t)
   then rep true dot 1 None (fun _ cap s' => Some (total - length s', cap))
          (last_of pv (u " ")) None (skipn 1 (d :: t))
   else None) = None.
Proof.
  intros Hd. unfold is_c in Hd. apply char_eqb_eq in Hd. subst d. reflexivity.
Qed.

Lemma nl_blocks (total : nat) (pv : option char) (t : str) :
  (if startswith (u " ") (NL :: t)
   then rep true dot 1 None (fun _ cap s' => Some (total - length s', cap))
          (last_of pv (u " ")) None (skipn 1 (NL :: t))
   else None) = None.
Proof. reflexivity. Qed.

Lemma is_c_sym (a c : char) : is_c a c = char_eqb a c.
Proof. unfold is_c. apply N.eqb_sym. Qed.

Ltac hash_cases :=
  repeat match goal with
         | |- context [char_eqb (ch "#") ?x] =>
             is_var x;
             let E := fresh "E" in
             destruct (char_eqb (ch "#") x) eqn:E;
             [apply char_eqb_eq in E; subst x|]
         end.

Lemma question_start_line (prev : option char) (l tail : str) :
  prev = None \/ prev = Some NL ->
  ~ In NL l ->
  tail = [] \/ (exists rest, tail = NL :: rest) ->
  match_at QUESTION_LINE prev (l ++ tail) =
  if question_ok l then Some (length l, None) else None.
Proof.
  intros Hprev Hl Htail. unfold QUESTION_LINE, question_ok.
  rewrite bol_start by exact Hprev. unfold plus. cbn [matchk]. rewrite rep_3_4.
  change (length (u " ")) with 1.
  change (u "### ") with [ch "#"; ch "#"; ch "#"; ch " "].
  change (u "#### ") with [ch "#"; ch "#"; ch "#"; ch "#"; ch " "].
  destruct l as [|a [|b [|c [|d l4]]]].
  - destruct Htail as [->|(rest & ->)]; [reflexivity|].
    destruct rest as [|b [|c rest]]; reflexivity.
  - destruct Htail as [->|(rest & ->)]; cbn [app startswith andb orb];
      rewrite ?is_c_sym; [hash_cases; reflexivity|].
    destruct rest as [|c rest]; rewrite ?is_c_sym; hash_cases; reflexivity.
  - destruct Htail as [->|(rest & ->)]; cbn [app startswith andb orb];
      rewrite ?is_c_sym; hash_cases; reflexivity.
  - destruct Htail as [->|(rest & ->)]; cbn [app startswith andb orb];
      rewrite ?is_c_sym; hash_cases; cbn [andb orb]; reflexivity.
  - assert (Hl4 : ~ In NL l4) by (intros H; apply Hl; do 4 right; exact H).
    assert (Hd : ~ In NL (d :: l4)) by (intros H; apply Hl; do 3 right; exact H).
    cbn [app startswith]. rewrite !is_c_sym.
    destruct (char_eqb (ch "#") a) eqn:Ea; [|reflexivity].
    destruct (char_eqb (ch "#") b) eqn:Eb; [|reflexivity].
    destruct (char_eqb (ch "#") c) eqn:Ec; [|reflexivity].
    cbn [andb].
    destruct (char_eqb (ch "#") d) eqn:Ed.
    + apply char_eqb_eq in Ed. subst d.
      replace (startswith (u " ") (ch "#" :: l4 ++ tail)) with false by reflexivity.
      rewrite or_else_none.
      rewrite (@heading_rest _ (Some (ch "#")) l4 tail Hl4 Htail).
      match goal with
      | |- _ = (if ?cond then _ else _) =>
          change cond with (startswith (u " ") l4 && (1 <=? length (skipn 1 l4)))
      end.
      destruct (startswith (u " ") l4 && (1 <=? length (skipn 1 l4))); [|reflexivity].
      do 2 f_equal. cbn [length]. rewrite length_app. lia.
    + change (d :: l4 ++ tail) with ((d :: l4) ++ tail).
      rewrite (@heading_rest _ (Some c) (d :: l4) tail Hd Htail).
      match goal with
      | |- _ = (if ?cond then _ else _) =>
          replace cond with (startswith (u " ") (d :: l4) && (1 <=? length (skipn 1 (d :: l4))))
      end.
      * destruct (startswith (u " ") (d :: l4) && (1 <=? length (skipn 1 (d :: l4))));
          [|reflexivity].
        do 2 f_equal. change ((d :: l4) ++ tail) with (d :: l4 ++ tail).
        cbn [length]. rewrite length_app. lia.
      * change (u " ") with [ch " "]. cbn [startswith skipn length andb orb].
        now rewrite orb_false_r.
Qed.

Lemma findall_question_lines (content : str) :
  findall QUESTION_LINE content = filter question_ok (split NL content).
Proof.
  apply findall_lines.
  - intros c s Hc. now apply bol_inside.
  - intros prev l tail. apply question_start_line.
  - reflexivity.
Qed.

(** X20: rule 007 counts, in the section it reads, the lines that start
    with "### " or "#### " and go on for at least one more character
    (deeper or indented headings are not questions); it reports "FAQ section
    not found" when that section is empty, passes with 5 such lines or more,
    and reports their number otherwise. *)
Theorem check_007_counts_lines (body : str) :
  (forall content,
     findall QUESTION_LINE content = filter question_ok (split NL content)) /\
  check_007_faq_questions body =
    match faq_content_of (find_h2_sections body) with
    | [] => (false, u "FAQ section not found")
    | c :: content =>
        let n := length (filter question_ok (split NL (c :: content))) in
        if 5 <=? n then (true, []) else (false, u "FAQ questions: " ++ str_of_nat n)
    end /\
  (List.find is_faq_heading (find_h2_sections body) = None ->
   length (find_h2_sections body) < 4 ->
   check_007_faq_questions body = (false, u "FAQ section not found")).
Proof.
  split; [exact findall_question_lines|].
  assert (E : check_007_faq_questions body =
    match faq_content_of (find_h2_sections body) with
    | [] => (false, u "FAQ section not found")
    | c :: content =>
        let n := length (filter question_ok (split NL (c :: content))) in
        if 5 <=? n then (true, []) else (false, u "FAQ questions: " ++ str_of_nat n)
    end).
  { unfold check_007_faq_questions. cbv zeta. fold (faq_content_of (find_h2_sections body)).
    destruct (faq_content_of (find_h2_sections body)) as [|c content]; [reflexivity|].
    cbn [is_empty]. now rewrite findall_question_lines. }
  split; [exact E|]. intros Hnone Hlen. rewrite E. unfold faq_content_of. rewrite Hnone.
  cbn [is_empty andb]. apply Nat.ltb_lt in Hlen. rewrite Nat.ltb_antisym in Hlen.
  apply negb_true_iff in Hlen. now rewrite Hlen.
Qed.

Example check_007_examples :
  map question_ok [u "### q"; u "#### q"; u "##### q"; u "### "; u " ### q"; u "###q"]
    = [true; true; false; false; false; false] /\
  check_007_faq_questions (u "## a
## b
## c") = (false, u "FAQ section not found").
Proof. split; vm_compute; reflexivity. Qed.

(** ** The character count *)

Lemma dropwhile_length (p : char -> bool) (s : str) : length (dropwhile p s) <= length s.
Proof.
  induction s as [|c s IH]; cbn [dropwhile length]; [lia|].
  destruct (p c); cbn [length]; lia.
Qed.

Lemma startswith_one (x : char) (s : str) :
  startswith [x] s = true -> exists t, s = x :: t.
Proof.
  destruct s as [|y t]; cbn [startswith]; [discriminate|].
  rewrite andb_true_r. intros E. apply char_eqb_eq in E. subst y. now exists t.
Qed.

(** A link is at least four characters longer than its text. *)
Lemma link_match_size (s : str) (n : nat) (cap : option str) :
  link_match s = Some (n, cap) -> length (group1 cap) + 4 <= n /\ n <= length s.
Proof.
  unfold link_match.
  destruct (startswith (u "[") s) eqn:E0; [|discriminate].
  apply startswith_one in E0 as [s1 ->]. cbn [skipn].
  assert (Hs1 := takewhile_dropwhile not_rbracket s1).
  destruct (startswith (u "]") (dropwhile not_rbracket s1)) eqn:E1; [|discriminate].
  apply startswith_one in E1 as [r1 E1]. rewrite E1 in *. cbn [skipn].
  destruct (startswith (u "(") r1) eqn:E2; [|discriminate].
  apply startswith_one in E2 as [s2 ->]. cbn [skipn].
  assert (Hs2 := dropwhile_length not_rparen s2).
  destruct (startswith (u ")") (dropwhile not_rparen s2)) eqn:E3; [|discriminate].
  apply startswith_one in E3 as [r3 E3]. rewrite E3 in *. cbn [skipn].
  intros H. injection H as <- <-. cbn [group1].
  apply (f_equal (@length char)) in Hs1. rewrite length_app in Hs1.
  rewrite !length_cons in *. destruct (length r3); lia.
Qed.

Lemma sub_link_shorter (s : str) :
  forall skip prev,
    length (sub_from MD_LINK group1 skip prev s) + Nat.min skip (length s) <= length s.
Proof.
  induction s as [|c s IH]; intros skip prev.
  - destruct skip; cbn [sub_from]; [|cbn; lia].
    rewrite match_at_md_link. cbn. lia.
  - destruct skip as [|skip]; cbn [sub_from].
    + rewrite match_at_md_link.
      destruct (link_match (c :: s)) as [[n cap]|] eqn:E.
      * apply link_match_size in E as [Hcap Hn]. cbn [length] in Hn.
        replace (n =? 0) with false by (symmetry; apply Nat.eqb_neq; lia).
        cbn [app]. rewrite length_app. specialize (IH (n - 1) (Some c)).
        cbn [length Nat.min]. lia.
      * cbn [length Nat.min]. specialize (IH 0 (Some c)). lia.
    + cbn [length Nat.min]. specialize (IH skip (Some c)). lia.
Qed.

Lemma filter_length_le (p : char -> bool) (s : str) : length (filter p s) <= length s.
Proof.
  induction s as [|c s IH]; cbn [filter length]; [lia|].
  destruct (p c); cbn [length]; lia.
Qed.

Lemma filter_both (p q : char -> bool) (s : str) :
  filter q (filter p s) = filter (fun c => p c && q c) s.
Proof.
  induction s as [|c s IH]; cbn [filter]; [reflexivity|].
  destruct (p c); cbn [filter andb]; [|exact IH].
  destruct (q c); now rewrite IH.
Qed.

Lemma tag_here_plain (b : str) :
  Forall (fun x => x <> ch "<") b -> tag_here b = false.
Proof.
  intros H. destruct b as [|c t]; [reflexivity|].
  apply Forall_inv in H. cbn [tag_here].
  now rewrite (proj2 (char_eqb_neq c (ch "<")) H).
Qed.

(** X21: the count of [count_japanese_chars] never exceeds the length of
    the text, and on a text with no "<" and no "[" (so with no tag and no
    link) it is the number of characters that are neither a markdown marker
    nor whitespace. *)
Theorem count_japanese_chars_bounds (text : str) :
  count_japanese_chars text <= length text /\
  (Forall (fun x => x <> ch "<" /\ x <> ch "[") text ->
   count_japanese_chars text =
   length (filter (fun c => negb (is_md_mark c) && negb (isspace c)) text)).
Proof.
  rewrite count_japanese_chars_normalized. unfold normalized_text. split.
  - etransitivity; [apply filter_length_le|].
    etransitivity; [apply filter_length_le|].
    assert (H1 := sub_link_shorter (strip_html_tags text) 0 None).
    assert (H2 := sub_from_shorter TAG text 0 None).
    unfold strip_html_tags, sub in *. cbn [Nat.min] in H1. lia.
  - intros Hplain.
    assert (Hlt : Forall (fun x => x <> ch "<") text)
      by (eapply Forall_impl; [|exact Hplain]; now intros a [? _]).
    assert (Hbr : Forall (fun x => x <> ch "[") text)
      by (eapply Forall_impl; [|exact Hplain]; now intros a [_ ?]).
    assert (E1 : strip_html_tags text = text).
    { unfold strip_html_tags, sub. apply sub_from_no_match. intros a b ->.
      rewrite match_at_tag_eq. apply Forall_app in Hlt as [_ Hb].
      now rewrite (tag_here_plain Hb). }
    assert (E2 : sub MD_LINK group1 text = text).
    { assert (H := @sub_link_plain text Hbr None []).
      rewrite app_nil_r in H. unfold sub at 1. rewrite H.
      change (sub MD_LINK group1 []) with (@nil char). apply app_nil_r. }
    rewrite E1, E2, filter_both. reflexivity.
Qed.

Example count_japanese_chars_examples :
  count_japanese_chars (u "## <b>[ab](http://x.example/y)</b>") = 2 /\
  count_japanese_chars (u "a [b] (c) - d") = 8.
Proof. split; vm_compute; reflexivity. Qed.

(** ** The normalized text of the design *)








(** A tag needs a character inside (of "<>" the marker ">" goes and "<"
    stays), an unclosed "<" or "[" is plain text, and a link whose text is
    empty leaves nothing. *)
Example normalized_spec_examples :
  normalized_spec (u "<b>a</b> <> b < c [d](e) [](f) [g] (h)") = u "a<b<cd[g](h)" /\
  count_japanese_chars (u "<b>a</b> <> b < c [d](e) [](f) [g] (h)") = 12.
Proof. split; vm_compute; reflexivity. Qed.
